(** * sher-bot: the quiz bot of [quiz-bot.py], embedded and verified

    The development follows the source file top to bottom:
    - [PyStr]: the operations of Python's [str] and [int] the bot uses;
    - [Loader]: [load_questions], the parser of the quiz corpus;
    - [Store]: the subscription collection and [is_user_subscribed],
      [add_subscriber_command];
    - [Quiz]: the per-user session kept in [context.user_data] and the
      handlers [start_quiz], [send_next_question_batch], [handle_answer],
      [handle_next], [cancel], with the conversation they drive.

    Text is modelled as [string], one [ascii] per character: the model
    covers corpora and callback data made of ASCII characters, the text
    that [ascii_text] accepts (for these [str.isalpha], [str.upper],
    [str.strip] and [int] are as defined below; beyond ASCII Python goes
    by the Unicode tables, where a letter such as the sharp s is
    alphabetic and has an upper case of two characters).  The chat
    transport is taken to deliver every message. *)

From Stdlib Require Import ZArith List Ascii String Bool Lia Floats Uint63.
From stdpp Require Import base option list gmap strings.

Open Scope Z_scope.
Set Warnings "-clear-no-such-hyp".

(** ** Python's [str] *)
Module PyStr.

Definition LF : ascii := "010"%char.
Definition CR : ascii := "013"%char.

(** [str.isspace] on one ASCII character: TAB, LF, VT, FF, CR, the four
    separators FS, GS, RS, US, and the space. *)
Definition isspace (c : ascii) : bool :=
  let n := N_of_ascii c in
  ((9 <=? n) && (n <=? 13) || (28 <=? n) && (n <=? 32))%N.

Definition isupper (c : ascii) : bool :=
  let n := N_of_ascii c in ((65 <=? n) && (n <=? 90))%N.

Definition islower (c : ascii) : bool :=
  let n := N_of_ascii c in ((97 <=? n) && (n <=? 122))%N.

(** [c.isalpha()] for an ASCII character. *)
Definition isalpha (c : ascii) : bool := isupper c || islower c.

(** The text the model covers: every character is ASCII, a code point
    below 128. *)
Definition is_ascii (c : ascii) : bool := (N_of_ascii c <? 128)%N.

Fixpoint ascii_text (s : string) : bool :=
  match s with
  | EmptyString => true
  | String c r => is_ascii c && ascii_text r
  end.

Definition isdigit (c : ascii) : bool :=
  let n := N_of_ascii c in ((48 <=? n) && (n <=? 57))%N.

Definition upper_char (c : ascii) : ascii :=
  if islower c then ascii_of_N (N_of_ascii c - 32) else c.

(** [s.upper()] *)
Fixpoint upper (s : string) : string :=
  match s with
  | EmptyString => EmptyString
  | String c r => String (upper_char c) (upper r)
  end.

(** [s.isalpha()]: non-empty and every character alphabetic. *)
Fixpoint all_alpha (s : string) : bool :=
  match s with
  | EmptyString => true
  | String c r => isalpha c && all_alpha r
  end.

Definition str_isalpha (s : string) : bool :=
  match s with EmptyString => false | _ => all_alpha s end.

Definition len (s : string) : Z := Z.of_nat (String.length s).

Definition is_empty (s : string) : bool :=
  match s with EmptyString => true | _ => false end.

Fixpoint lstrip (s : string) : string :=
  match s with
  | EmptyString => EmptyString
  | String c r => if isspace c then lstrip r else s
  end.

Fixpoint rstrip (s : string) : string :=
  match s with
  | EmptyString => EmptyString
  | String c r =>
      let r' := rstrip r in
      if isspace c && is_empty r' then EmptyString else String c r'
  end.

(** [s.strip()] *)
Definition strip (s : string) : string := rstrip (lstrip s).

(** [s.startswith(p)] *)
Definition startswith (s p : string) : bool := String.prefix p s.

Fixpoint str_drop (n : nat) (s : string) : string :=
  match n, s with
  | O, _ => s
  | S k, String _ r => str_drop k r
  | S _, EmptyString => EmptyString
  end.

Definition cons_head (c : ascii) (parts : list string) : list string :=
  match parts with
  | h :: t => String c h :: t
  | [] => [String c EmptyString]
  end.

(** [s.split(sep)] for a non-empty [sep]: cut at the leftmost
    occurrences, which do not overlap.  [skip] counts the characters of
    an occurrence that are still to be passed over. *)
Fixpoint split_go (sep : string) (skip : nat) (s : string) : list string :=
  match s with
  | EmptyString => [EmptyString]
  | String c r =>
      match skip with
      | S k => split_go sep k r
      | O =>
          if String.prefix sep s
          then EmptyString :: split_go sep (String.length sep - 1) r
          else cons_head c (split_go sep O r)
      end
  end.

Definition split (sep s : string) : list string := split_go sep O s.

(** [s.split(sep, 1)]: cut at the first occurrence only. *)
Fixpoint split1 (sep s : string) : list string :=
  if String.prefix sep s then [EmptyString; str_drop (String.length sep) s]
  else match s with
       | EmptyString => [EmptyString]
       | String c r => cons_head c (split1 sep r)
       end.

(** [s.replace(old, new)] for a non-empty [old]. *)
Fixpoint replace_go (old new : string) (skip : nat) (s : string) : string :=
  match s with
  | EmptyString => EmptyString
  | String c r =>
      match skip with
      | S k => replace_go old new k r
      | O =>
          if String.prefix old s
          then new +:+ replace_go old new (String.length old - 1) r
          else String c (replace_go old new O r)
      end
  end.

Definition replace (old new s : string) : string := replace_go old new O s.

(** [lst[i]] on a list, with Python's negative indices; [None] stands
    for [IndexError]. *)
Definition index {A} (l : list A) (i : Z) : option A :=
  let n := Z.of_nat (length l) in
  if (0 <=? i) && (i <? n) then l !! Z.to_nat i
  else if (- n <=? i) && (i <? 0) then l !! Z.to_nat (n + i)
  else None.

(** [lst[a:b]]: a negative bound counts from the end, and both are
    clipped to the list. *)
Definition slice {A} (l : list A) (a b : Z) : list A :=
  let n := Z.of_nat (length l) in
  let norm i := if i <? 0 then Z.max 0 (i + n) else Z.min i n in
  take (Z.to_nat (norm b - norm a)) (drop (Z.to_nat (norm a)) l).

(** [list(range(a, b))] *)
Definition range (a b : Z) : list Z := seqZ a (b - a).

(** [str(n)] for an integer. *)
Fixpoint digits_pos (fuel : nat) (n : Z) (acc : string) : string :=
  match fuel with
  | O => acc
  | S k =>
      let acc' := String (ascii_of_N (48 + Z.to_N (n mod 10))) acc in
      if n <? 10 then acc' else digits_pos k (n / 10) acc'
  end.

Definition str_of_Z (n : Z) : string :=
  if n <? 0
  then String "-" (digits_pos (S (Z.to_nat (Z.log2 (- n)))) (- n) EmptyString)
  else digits_pos (S (Z.to_nat (Z.log2 n))) n EmptyString.

(** The whitespace [int] skips around a number: that of C's [isspace],
    TAB, LF, VT, FF, CR and the space.  The separators FS, GS, RS and US,
    which [str.strip] drops, are not among them: [int] refuses a string
    that holds one. *)
Definition isspace_c (c : ascii) : bool :=
  let n := N_of_ascii c in
  ((9 <=? n) && (n <=? 13) || (n =? 32))%N.

Fixpoint lstrip_c (s : string) : string :=
  match s with
  | EmptyString => EmptyString
  | String c r => if isspace_c c then lstrip_c r else s
  end.

Fixpoint rstrip_c (s : string) : string :=
  match s with
  | EmptyString => EmptyString
  | String c r =>
      let r' := rstrip_c r in
      if isspace_c c && is_empty r' then EmptyString else String c r'
  end.

(** [int(s)]: the whitespace around the number is skipped, then come an
    optional sign and decimal digits, where single underscores may
    separate digits.  [None] stands for [ValueError]. *)
Fixpoint digits_go (s : string) (acc : Z) (after_digit : bool) : option Z :=
  match s with
  | EmptyString => if after_digit then Some acc else None
  | String c r =>
      if isdigit c then digits_go r (10 * acc + (Z.of_N (N_of_ascii c) - 48)) true
      else if (Ascii.eqb c "_") && after_digit then
             match r with
             | String d _ => if isdigit d then digits_go r acc false else None
             | EmptyString => None
             end
           else None
  end.

Definition int (s : string) : option Z :=
  match rstrip_c (lstrip_c s) with
  | String "-" r => Z.opp <$> digits_go r 0 false
  | String "+" r => digits_go r 0 false
  | r => digits_go r 0 false
  end.

End PyStr.

(** ** Python's [float] and [round] *)
Module PyNum.

(** [float(n)] for a list length or a count: exact below 2^53. *)
Definition float_of_Z (n : Z) : float := PrimFloat.of_uint63 (Uint63.of_Z n).

(** [a / b] on integers (true division) and [n * x] with an integer [n]
    and a float [x], in binary64. *)
Definition truediv (a b : Z) : float :=
  PrimFloat.div (float_of_Z a) (float_of_Z b).

Definition mul_int_float (n : Z) (x : float) : float :=
  PrimFloat.mul (float_of_Z n) x.

(** The integer nearest to [m / 2^k], ties to the even one. *)
Definition round_half_even_shift (m : Z) (k : Z) : Z :=
  let d := 2 ^ k in
  let q := m / d in
  let r := m mod d in
  if (2 * r <? d) then q
  else if (d <? 2 * r) then q + 1
  else if Z.even q then q else q + 1.

(** [round(x)] of a finite float: the nearest integer, ties to even. *)
Definition round (x : float) : Z :=
  match Prim2SF x with
  | S754_finite s m e =>
      let a := if (0 <=? e) then Z.pos m * 2 ^ e
               else round_half_even_shift (Z.pos m) (- e) in
      if s then - a else a
  | _ => 0
  end.

End PyNum.

(** ** The question bank and its loader *)
Module Loader.
Import PyStr.

(** One parsed block of the corpus: the dict with the keys ['question'],
    ['options'], ['correct']. *)
Record Question := mkQuestion {
  question : string;
  options : list string;
  correct : string
}.

#[global] Instance Question_eq_dec : EqDecision Question.
Proof. solve_decision. Defined.

(** A Python [dict] with string keys, in insertion order. *)
Definition dict (V : Type) : Type := list (string * V).

Fixpoint dict_get {V} (k : string) (d : dict V) : option V :=
  match d with
  | [] => None
  | (k', v) :: r => if String.eqb k k' then Some v else dict_get k r
  end.

(** [d[k] = v]: a known key keeps its place, a new one goes last. *)
Fixpoint dict_set {V} (k : string) (v : V) (d : dict V) : dict V :=
  match d with
  | [] => [(k, v)]
  | (k', v') :: r =>
      if String.eqb k k' then (k, v) :: r else (k', v') :: dict_set k v r
  end.

Definition dict_values {V} (d : dict V) : list V := map snd d.

(** The bank: subject name to questions. *)
Definition bank : Type := dict (list Question).

(** [subjects[k].append(q)], for a [k] that is a key. *)
Definition dict_append (k : string) (q : Question) (d : bank) : bank :=
  match dict_get k d with
  | Some qs => dict_set k (qs ++ [q]) d
  | None => d
  end.

Definition nl : string := String LF EmptyString.
Definition crlf : string := String CR (String LF EmptyString).
Definition blank_line : string := String LF (String LF EmptyString).

(** [len(opt) > 2 and opt[1] == ')' and opt[0].isalpha()] *)
Definition option_ok (opt : string) : bool :=
  (2 <? len opt)
  && bool_decide (String.get 1 opt = Some ")"%char)
  && from_option isalpha false (String.get 0 opt).

(** The loop state: [current_subject] and [subjects]. *)
Definition loader_state : Type := option string * bank.

(** One turn of the loop [for block in blocks] (lines 105 to 158); every
    [continue] returns the state as it stands. *)
Definition load_block (st : loader_state) (block : string) : loader_state :=
  let '(current_subject, subjects) := st in
  let lines := split nl (strip block) in
  match lines !! 0%nat with
  | None => st
  | Some line0 =>
      if startswith line0 "Subject:" then
        match split1 ":" line0 !! 1%nat with
        | Some rest =>
            let name := strip rest in
            if negb (is_empty name) then (Some name, dict_set name [] subjects)
            else (None, subjects)
        | None => (None, subjects)
        end
      else
        match current_subject with
        | None => st
        | Some subj =>
            if (length lines <? 6)%nat then st
            else if negb (bool_decide (is_Some (dict_get subj subjects))) then st
            else
              let question_text := line0 in
              let opts := slice lines 1 5 in
              match lines !! 5%nat with
              | None => st
              | Some answer_line =>
                  if negb (forallb option_ok opts) then st
                  else if negb (startswith answer_line "Answer:") then st
                  else
                    match split1 ":" answer_line !! 1%nat with
                    | None => st
                    | Some rest =>
                        let correct_answer_letter := strip rest in
                        if is_empty correct_answer_letter
                           || negb (len correct_answer_letter =? 1)
                           || negb (str_isalpha correct_answer_letter)
                        then st
                        else
                          (current_subject,
                           dict_append subj
                             (mkQuestion question_text opts
                                (upper correct_answer_letter))
                             subjects)
                    end
              end
        end
  end.

(** [content.replace('\r\n', '\n').strip().split('\n\n')] *)
Definition blocks_of (content : string) : list string :=
  split blank_line (strip (replace crlf nl content)).

Definition load_blocks (st : loader_state) (blocks : list string) : loader_state :=
  fold_left load_block blocks st.

Definition load_content (content : string) : bank :=
  snd (load_blocks (None, []) (blocks_of content)).

(** [load_questions]: [None] is a quiz file that does not exist. *)
Definition load_questions (file : option string) : bank :=
  match file with
  | None => []
  | Some content => load_content content
  end.

(** The name a block gives when its first line is [Subject: <name>] with
    a non-empty trimmed name. *)
Definition subject_header (block : string) : option string :=
  match split nl (strip block) !! 0%nat with
  | Some line0 =>
      if startswith line0 "Subject:" then
        match split1 ":" line0 !! 1%nat with
        | Some rest => if is_empty (strip rest) then None else Some (strip rest)
        | None => None
        end
      else None
  | None => None
  end.

(** The letter an option line starts with. *)
Definition option_letter (opt : string) : string :=
  match opt with
  | String c _ => String c EmptyString
  | EmptyString => EmptyString
  end.

(** What the loader checks of a question before it stores it. *)
Definition question_ok (q : Question) : Prop :=
  length (options q) = 4%nat
  ∧ Forall (λ opt, option_ok opt = true) (options q)
  ∧ ∃ c, correct q = String c EmptyString ∧ isupper c = true.

(** ["\n".join(parts)] *)
Fixpoint join (sep : string) (parts : list string) : string :=
  match parts with
  | [] => EmptyString
  | [p] => p
  | p :: r => p +:+ sep +:+ join sep r
  end.

End Loader.

(** ** The subscription collection, the gate and the admin command *)
Module Store.
Import PyStr.

(** A document of the collection.  Times are microseconds since
    0001-01-01 00:00, the resolution of [datetime]; the collection keeps
    them to the millisecond, see [write_doc].  For
    [subscription_expires_at], [None] is a document without the key and
    [Some None] one that holds [None] under it. *)
Record user_doc := mkDoc {
  doc_chat_id : Z;
  subscribed_at : option Z;
  subscription_expires_at : option (option Z);
  username : option (option string)
}.

Inductive db_op :=
| OpFindOne (chat_id : Z)
| OpUpdateOne (chat_id : Z)
| OpInsertOne (chat_id : Z).

(** The collection as the bot sees it: the documents by [chat_id] (the
    unique index), the operations attempted so far, latest first, and
    [health], which tells for each coming operation whether the server
    answers ([true]) or the driver raises; past its end every operation
    is answered. *)
Record db := mkDb {
  docs : gmap Z user_doc;
  health : list bool;
  log : list db_op
}.

Definition attempt (o : db_op) (d : db) : bool * db :=
  (hd true (health d), mkDb (docs d) (tl (health d)) (o :: log d)).

(** [find_one({"chat_id": id})]; the outer [None] is a raised exception. *)
Definition find_one (id : Z) (d : db) : option (option user_doc) * db :=
  let '(ok, d') := attempt (OpFindOne id) d in
  (if ok then Some (docs d' !! id) else None, d').

(** What the collection keeps of a [datetime]: a date is stored as a
    count of milliseconds, the microseconds below are cut off. *)
Definition ms (t : Z) : Z := t - t mod 1000.

(** The integers a document can hold: 64 bits, signed. *)
Definition bson_int (n : Z) : bool := (- 2 ^ 63 <=? n) && (n <? 2 ^ 63).

(** The document as the collection keeps it. *)
Definition stored (doc : user_doc) : user_doc :=
  mkDoc (doc_chat_id doc) (option_map ms (subscribed_at doc))
    (option_map (option_map ms) (subscription_expires_at doc)) (username doc).

(** [update_one] and [insert_one], which leave [doc] under [id].  The
    driver raises, and nothing is stored, when the server does not
    answer and when the document to insert holds a [chat_id] beyond 64
    bits ([OverflowError]); [update_one] is reached only for a
    [chat_id] that [find_one] found in the collection. *)
Definition write_doc (o : db_op) (id : Z) (doc : user_doc) (d : db) : option unit * db :=
  let '(ok, d') := attempt o d in
  let fits := match o with OpInsertOne n => bson_int n | _ => true end in
  if ok && fits
  then (Some (), mkDb (<[id := stored doc]> (docs d')) (health d') (log d'))
  else (None, d').

(** [is_user_subscribed(chat_id)], with [now] for [datetime.now()]. *)
Definition is_user_subscribed (now : Z) (chat_id : Z) (d : db) : bool * db :=
  match find_one chat_id d with
  | (None, d') => (false, d')
  | (Some None, d') => (false, d')
  | (Some (Some user_doc), d') =>
      match subscription_expires_at user_doc with
      | Some (Some expires) =>
          if expires <? now then (false, d') else (true, d')
      | _ => (true, d')
      end
  end.

Definition us_per_day : Z := 86400 * 1000000.

(** [timedelta(days=n)]; [None] is [OverflowError]. *)
Definition timedelta_days (n : Z) : option Z :=
  if (Z.abs n <=? 999999999) then Some (n * us_per_day) else None.

(** [datetime.max] is the last microsecond of the year 9999. *)
Definition datetime_max : Z := 3652059 * us_per_day - 1.

Definition datetime_add (t delta : Z) : option Z :=
  let r := t + delta in
  if (0 <=? r) && (r <=? datetime_max) then Some r else None.

(** What the command answers (the emoji that end some of the bot's texts
    are left out of the strings). *)
Inductive reply :=
| ReplyText (s : string)
| ReplyUpdated (target : Z) (expiry : option Z)
| ReplyAdded (target : Z) (expiry : option Z)
| NotifyUser (target : Z) (expiry : option Z)
| ReplyNotifyFailed.

Definition msg_not_admin : string := "Kechirasiz, bu buyruq faqat adminlar uchun.".
Definition msg_usage : string :=
  "Qo'llash usuli: /addsubscriber <foydalanuvchi_chat_id> [kun_soni_tugashiga]".
Definition msg_bad_chat_id : string := "Xato Chat ID. Raqam bo'lishi kerak.".
Definition msg_days_not_positive : string := "Kun soni musbat raqam bo'lishi kerak.".
Definition msg_bad_days : string := "Xato kun soni. Raqam bo'lishi kerak.".
Definition msg_failure : string := "Xatolik yuz berdi. Bot loglarini tekshiring.".

(** The [try] block of lines 284 to 318, after the arguments are read. *)
Definition grant (now target_chat_id : Z) (expiry_days : option Z)
    (caller_username : option string) (notify_ok : bool) (d : db)
  : list reply * db :=
  match find_one target_chat_id d with
  | (None, d1) => ([ReplyText msg_failure], d1)
  | (Some user_doc, d1) =>
      let new_expiry_date :=
        match expiry_days with
        | Some n => delta ← timedelta_days n; Some <$> datetime_add now delta
        | None => Some None
        end in
      match new_expiry_date with
      | None => ([ReplyText msg_failure], d1)
      | Some new_expiry_date =>
          let notify :=
            if notify_ok then [NotifyUser target_chat_id new_expiry_date]
            else [ReplyNotifyFailed] in
          match user_doc with
          | Some doc =>
              let doc' :=
                mkDoc (doc_chat_id doc)
                  (Some (default now (subscribed_at doc)))
                  (match new_expiry_date with
                   | Some e => Some (Some e)
                   | None => None
                   end)
                  (username doc) in
              match write_doc (OpUpdateOne target_chat_id) target_chat_id doc' d1 with
              | (None, d2) => ([ReplyText msg_failure], d2)
              | (Some _, d2) =>
                  (ReplyUpdated target_chat_id new_expiry_date :: notify, d2)
              end
          | None =>
              let subscriber_data :=
                mkDoc target_chat_id (Some now)
                  (match new_expiry_date with
                   | Some e => Some (Some e)
                   | None => None
                   end)
                  (Some caller_username) in
              match write_doc (OpInsertOne target_chat_id) target_chat_id subscriber_data d1 with
              | (None, d2) => ([ReplyText msg_failure], d2)
              | (Some _, d2) =>
                  (ReplyAdded target_chat_id new_expiry_date :: notify, d2)
              end
          end
      end
  end.

(** [add_subscriber_command]: [admin] is [YOUR_ADMIN_CHAT_ID], [caller]
    the chat the command comes from, [args] is [context.args]. *)
Definition add_subscriber_command (admin : Z) (now : Z) (caller : Z)
    (caller_username : option string) (args : list string)
    (notify_ok : bool) (d : db) : list reply * db :=
  if negb (caller =? admin) then ([ReplyText msg_not_admin], d)
  else
    match args with
    | [] => ([ReplyText msg_usage], d)
    | arg0 :: rest =>
        match int arg0 with
        | None => ([ReplyText msg_bad_chat_id], d)
        | Some target_chat_id =>
            match rest with
            | [] => grant now target_chat_id None caller_username notify_ok d
            | arg1 :: _ =>
                match int arg1 with
                | None => ([ReplyText msg_bad_days], d)
                | Some expiry_days =>
                    if expiry_days <=? 0
                    then ([ReplyText msg_days_not_positive], d)
                    else grant now target_chat_id (Some expiry_days)
                           caller_username notify_ok d
                end
            end
        end
    end.

End Store.

(** ** The quiz session and its handlers *)
Module Quiz.
Import PyStr PyNum Loader.

Definition QUESTIONS_PER_BATCH : Z := 10.

(** The states of the [ConversationHandler]; [END] is
    [ConversationHandler.END]. *)
Inductive conv_state := END | SELECTING_SUBJECT | QUIZ_IN_PROGRESS.

#[global] Instance conv_state_eq_dec : EqDecision conv_state.
Proof. solve_decision. Defined.

(** An inline keyboard: rows of buttons, each a label and its callback
    data. *)
Definition keyboard : Type := list (list (string * string)).

(** A message text.  The text that replaces a question once it is
    answered carries a mark and is kept in parts. *)
Inductive text :=
| Str (s : string)
| Feedback (number : Z) (question_text options_text : string)
    (is_correct : bool) (correct_option_text selected_option_text : string).

(** The calls to the chat transport. *)
Inductive action :=
| answer_query
| edit_message_text (t : text)
| send_message (t : text) (reply_markup : option keyboard)
| delete_message.

(** [context.user_data]: a key that is [None] here is absent from the
    dict.  [ud_correct] is the set of the [qid] whose key
    [f"correct_{qid}"] holds [True]. *)
Record user_data := mkUd {
  ud_subject : option string;
  ud_questions : option (list Question);
  ud_index : option Z;
  ud_score : option Z;
  ud_answered_in_batch : option (gset Z);
  ud_current_batch_indices : option (list Z);
  ud_correct : gset Z
}.

(** [context.user_data.clear()] *)
Definition ud_clear : user_data := mkUd None None None None None None ∅.

Definition set_answered (a : gset Z) (ud : user_data) : user_data :=
  mkUd (ud_subject ud) (ud_questions ud) (ud_index ud) (ud_score ud)
    (Some a) (ud_current_batch_indices ud) (ud_correct ud).

Definition set_batch (b : list Z) (ud : user_data) : user_data :=
  mkUd (ud_subject ud) (ud_questions ud) (ud_index ud) (ud_score ud)
    (ud_answered_in_batch ud) (Some b) (ud_correct ud).

Definition set_index (i : Z) (ud : user_data) : user_data :=
  mkUd (ud_subject ud) (ud_questions ud) (Some i) (ud_score ud)
    (ud_answered_in_batch ud) (ud_current_batch_indices ud) (ud_correct ud).

(** [user_data['score'] = s] together with [user_data[f"correct_{qid}"] = True] *)
Definition credit (qid s : Z) (ud : user_data) : user_data :=
  mkUd (ud_subject ud) (ud_questions ud) (ud_index ud) (Some s)
    (ud_answered_in_batch ud) (ud_current_batch_indices ud)
    ({[qid]} ∪ ud_correct ud).

(** What a handler leaves behind: the user data, the state it returns
    ([None] when it raises instead, which leaves the conversation where
    it is) and the transport calls it made, in order. *)
Record result := mkResult {
  r_ud : user_data;
  r_state : option conv_state;
  r_actions : list action
}.

Definition known_subjects : list string :=
  ["amaliy-dasturlar"; "dasturlash-tillari-bazasi"; "OT"; "KTT"].

Definition nonempty {A} (l : list A) : bool :=
  match l with [] => false | _ => true end.

(** [get_start_keyboard]: [loaded] is [bot_data['questions']]. *)
Definition get_start_keyboard (loaded : bank) : option keyboard :=
  let subject_rows :=
    flat_map (λ subj,
      match dict_get subj loaded with
      | Some (_ :: _) => [[(subj, "subj|" +:+ subj)]]
      | _ => []
      end) known_subjects in
  let rows :=
    if existsb nonempty (dict_values loaded)
    then subject_rows ++ [[("Random 50 savol", "random")]]
    else subject_rows in
  if nonempty rows then Some rows else None.

(** The generator behind [random.sample] and [random.shuffle]: each call
    uses the generator and hands it on.  A sample of [k] elements is
    drawn without replacement, a shuffle reorders. *)
Class RandomGen (G : Type) := {
  sample : ∀ A : Type, G → list A → nat → list A * G;
  shuffle : ∀ A : Type, G → list A → list A * G;
  sample_length : ∀ A g (l : list A) k,
    (k ≤ length l)%nat → length (sample A g l k).1 = k;
  sample_submseteq : ∀ A g (l : list A) k,
    (k ≤ length l)%nat → (sample A g l k).1 ⊆+ l;
  shuffle_perm : ∀ A g (l : list A), (shuffle A g l).1 ≡ₚ l
}.
Arguments sample {G _ A} _ _ _.
Arguments shuffle {G _ A} _ _.

Definition list_len {A} (l : list A) : Z := Z.of_nat (length l).

(** [count] and [actual_count] of the random mix (lines 361 to 363) for
    a subject of [n] questions. *)
Definition mix_count (total_available target_total n : Z) : Z :=
  let proportion :=
    if 0 <? total_available then truediv n total_available
    else float_of_Z 0 in
  if 0 <? total_available
  then Z.max 1 (round (mul_int_float target_total proportion))
  else Z.min 10 n.

Definition actual_count (total_available target_total n : Z) : Z :=
  Z.min (mix_count total_available target_total n) n.

Section Handlers.
Context {G : Type} `{RandomGen G}.

(** The loop over [all_loaded_questions.items()] (lines 359 to 365). *)
Fixpoint random_mix_loop (g : G) (total_available target_total : Z)
    (items : bank) (temp_list : list Question) : list Question * G :=
  match items with
  | [] => (temp_list, g)
  | (subj, subj_questions) :: rest =>
      if negb (nonempty subj_questions)
      then random_mix_loop g total_available target_total rest temp_list
      else
        let n := actual_count total_available target_total (list_len subj_questions) in
        if 0 <? n then
          let '(picked, g') := sample g subj_questions (Z.to_nat n) in
          random_mix_loop g' total_available target_total rest (temp_list ++ picked)
        else random_mix_loop g total_available target_total rest temp_list
  end.

Definition sum_Z (l : list Z) : Z := foldr Z.add 0 l.

Definition random_mix (g : G) (loaded : bank) : list Question * G :=
  let total_available := sum_Z (map list_len (dict_values loaded)) in
  let target_total := Z.min 50 total_available in
  let '(temp_list, g1) :=
    random_mix_loop g total_available target_total loaded [] in
  shuffle g1 temp_list.

(** The option lines the presenter accepts (line 425). *)
Definition presentable (opt : string) : bool :=
  (2 <? len opt) && bool_decide (String.get 1 opt = Some ")"%char).

Definition question_message (question_global_index : Z) (q_data : Question)
    (valid_options : list string) : action :=
  let options_buttons :=
    map (λ opt,
      let option_letter := upper (option_letter opt) in
      (option_letter,
       "ans|" +:+ str_of_Z question_global_index +:+ "|" +:+ option_letter))
      valid_options in
  send_message
    (Str (str_of_Z (question_global_index + 1) +:+ ". " +:+ question q_data
          +:+ nl +:+ nl +:+ join nl valid_options))
    (Some [options_buttons]).

(** The loop of lines 420 to 449 over the questions of the batch: the
    set of answered indices and the messages sent. *)
Fixpoint present_batch (batch : list (Z * Question)) (answered : gset Z)
    (sent : list action) : gset Z * list action :=
  match batch with
  | [] => (answered, sent)
  | (question_global_index, q_data) :: rest =>
      let valid_options := filter (λ opt, presentable opt = true) (options q_data) in
      if negb (nonempty valid_options) then
        present_batch rest ({[question_global_index]} ∪ answered)
          (sent ++ [send_message
             (Str ("Q " +:+ str_of_Z (question_global_index + 1)
                   +:+ " o'tkazib yuborildi (xato variantlar).")) None])
      else
        present_batch rest answered
          (sent ++ [question_message question_global_index q_data valid_options])
  end.

Definition next_button : keyboard := [[("Keyingi testlar", "next")]].

(** [send_next_question_batch] *)
Definition send_next_question_batch (loaded : bank) (ud : user_data) : result :=
  let current_index := default 0 (ud_index ud) in
  let questions := default [] (ud_questions ud) in
  let total_questions := list_len questions in
  if total_questions <=? current_index then
    let reply_markup := get_start_keyboard loaded in
    mkResult ud (Some SELECTING_SUBJECT)
      (send_message (Str "Barcha savollarga javob berdingiz!") None ::
       match reply_markup with
       | Some _ => [send_message (Str "Yangi fanni tanlash?") reply_markup]
       | None => []
       end)
  else if negb (nonempty questions) then
    mkResult ud_clear (Some END)
      [send_message (Str "Xatolik: savollar topilmadi.") None]
  else
    let end_index := Z.min (current_index + QUESTIONS_PER_BATCH) total_questions in
    let batch_indices := range current_index end_index in
    let batch_questions := slice questions current_index end_index in
    let '(answered, sent) :=
      present_batch (zip batch_indices batch_questions) ∅ [] in
    let ud1 := set_index end_index (set_answered answered (set_batch batch_indices ud)) in
    mkResult ud1 (Some QUIZ_IN_PROGRESS)
      (sent ++
       if end_index <? total_questions
       then [send_message
               (Str "Barcha savollarga javob berib bo'lgach, keyingisiga o'ting...")
               (Some next_button)]
       else []).

(** [start_quiz]: [data] is the callback data. *)
Definition start_quiz (g : G) (loaded : bank) (data : string) : result * G :=
  let fail (t : string) (g' : G) :=
    (mkResult ud_clear (Some END) [answer_query; edit_message_text (Str t)], g') in
  let begin (subject_name : string) (questions_to_ask : list Question) (g' : G) :=
    if negb (nonempty questions_to_ask) then fail "Uzr, savollar topilmadi." g'
    else
      let ud := mkUd (Some subject_name) (Some questions_to_ask) (Some 0)
                  (Some 0) (Some ∅) (Some []) ∅ in
      let r := send_next_question_batch loaded ud in
      (mkResult (r_ud r) (Some QUIZ_IN_PROGRESS)
         (answer_query
          :: edit_message_text (Str ("Test boshlanmoqda: " +:+ subject_name))
          :: r_actions r), g') in
  if startswith data "subj|" then
    let subject_name := default EmptyString (split1 "|" data !! 1%nat) in
    match dict_get subject_name loaded with
    | Some (q :: qs) =>
        let '(questions_to_ask, g') := shuffle g (q :: qs) in
        begin subject_name questions_to_ask g'
    | _ =>
        fail ("Kechirasiz, '" +:+ subject_name
              +:+ "' fani uchun savollarni yuklashda xatolik.") g
    end
  else if String.eqb data "random" then
    if negb (existsb nonempty (dict_values loaded))
    then fail "Kechirasiz, aralashtirish uchun hech qanday savol mavjud emas." g
    else
      let '(questions_to_ask, g') := random_mix g loaded in
      begin "Random Mix" questions_to_ask g'
  else fail "Uzr , kutilmagan xato , botni qayta ishga tushuring /start" g.

(** The scan of the options for the feedback (lines 503 to 512). *)
Fixpoint scan_options (opts : list string) (selected_letter correct_answer_letter : string)
    (parts : list string) (selected_option_text correct_option_text : string)
  : list string * string * string :=
  match opts with
  | [] => (parts, selected_option_text, correct_option_text)
  | opt :: rest =>
      if 0 <? len opt then
        scan_options rest selected_letter correct_answer_letter (parts ++ [opt])
          (if startswith opt selected_letter then opt else selected_option_text)
          (if startswith opt correct_answer_letter then opt else correct_option_text)
      else
        scan_options rest selected_letter correct_answer_letter parts
          selected_option_text correct_option_text
  end.

Definition finish_text (score total_questions : Z) (with_keyboard : bool) : string :=
  "Test tugadi!" +:+ nl +:+ "Sizning natijangiz: "
  +:+ str_of_Z score +:+ "/" +:+ str_of_Z total_questions +:+ nl
  +:+ (if with_keyboard then nl +:+ "Yangi fan tanlash?"
       else "(Fan tanlashda xatolik, botni /start bilan qayta ishga tushiring)").

Definition is_in (x : Z) (l : list Z) : bool := bool_decide (x ∈ l).

(** Lines 468 to 475 of [handle_answer]: the callback data
    [ans|<qid>|<letter>] taken apart; [None] is the [ValueError] of an
    unpacking or of [int]. *)
Definition parse_answer (data : string) : option (Z * string) :=
  match split "|" data with
  | [_; qid_str; selected_letter] =>
      qid ← int qid_str; Some (qid, selected_letter)
  | _ => None
  end.

(** Lines 477 to 557 of [handle_answer], for the [qid] and the letter
    read from the callback data. *)
Definition answer_question (loaded : bank) (ud : user_data)
    (qid : Z) (selected_letter : string) : result :=
  let questions := default [] (ud_questions ud) in
  let total_questions := list_len questions in
  let current_batch_indices := default [] (ud_current_batch_indices ud) in
  let answered_in_batch := default ∅ (ud_answered_in_batch ud) in
  if negb (nonempty questions) || (total_questions <=? qid) then
    mkResult ud_clear (Some END)
      [answer_query; edit_message_text (Str "Uzr, savollarni yuklashda xatolik.")]
  else
    let first_answer :=
      is_in qid current_batch_indices && negb (bool_decide (qid ∈ answered_in_batch)) in
    let answered_in_batch :=
      if first_answer then {[qid]} ∪ answered_in_batch else answered_in_batch in
    let ud1 := if first_answer then set_answered answered_in_batch ud else ud in
    match index questions qid with
    | None => mkResult ud1 None [answer_query]
    | Some question_data =>
        let correct_answer_letter := correct question_data in
        let '(options_text_parts, selected_option_text, correct_option_text) :=
          scan_options (options question_data) selected_letter correct_answer_letter []
            ("(" +:+ selected_letter +:+ ")")
            ("(" +:+ correct_answer_letter +:+ ")") in
        let is_correct := String.eqb selected_letter correct_answer_letter in
        let ud2 :=
          if is_correct && negb (bool_decide (qid ∈ ud_correct ud1))
          then credit qid (default 0 (ud_score ud1) + 1) ud1
          else ud1 in
        let edit :=
          edit_message_text
            (Feedback (qid + 1) (question question_data)
               (join nl options_text_parts) is_correct
               correct_option_text selected_option_text) in
        let is_last_batch := is_in (total_questions - 1) current_batch_indices in
        let all_in_batch_answered :=
          list_len current_batch_indices <=? Z.of_nat (size answered_in_batch) in
        if is_last_batch && all_in_batch_answered then
          let score := default 0 (ud_score ud2) in
          let reply_markup := get_start_keyboard loaded in
          mkResult ud2 (Some SELECTING_SUBJECT)
            [answer_query; edit;
             send_message
               (Str (finish_text score total_questions
                       (bool_decide (is_Some reply_markup))))
               reply_markup]
        else mkResult ud2 (Some QUIZ_IN_PROGRESS) [answer_query; edit]
    end.

(** [handle_answer]: [data] is the callback data. *)
Definition handle_answer (loaded : bank) (ud : user_data) (data : string) : result :=
  match parse_answer data with
  | None =>
      mkResult ud (Some QUIZ_IN_PROGRESS)
        [answer_query; edit_message_text (Str "Uzr, no tugma va javob formati.")]
  | Some (qid, selected_letter) => answer_question loaded ud qid selected_letter
  end.

Definition remaining_text (remaining_count : Z) : string :=
  "Iltimos, qolgan " +:+ str_of_Z remaining_count +:+ " ta savolga javob bering!".

(** [handle_next] *)
Definition handle_next (loaded : bank) (ud : user_data) : result :=
  let current_batch_indices := default [] (ud_current_batch_indices ud) in
  let answered_in_batch := default ∅ (ud_answered_in_batch ud) in
  if list_len current_batch_indices <=? Z.of_nat (size answered_in_batch) then
    let r := send_next_question_batch loaded ud in
    mkResult (r_ud r) (r_state r) (answer_query :: delete_message :: r_actions r)
  else
    let remaining_count :=
      list_len current_batch_indices - Z.of_nat (size answered_in_batch) in
    mkResult ud (Some QUIZ_IN_PROGRESS)
      [answer_query; send_message (Str (remaining_text remaining_count)) None].

Definition cancel_message : string :=
  "Quiz bekor qilindi. Qayta boshlash uchun /start buyrug'ini bering.".

(** [cancel], reached by the command [/cancel]. *)
Definition cancel (ud : user_data) : result :=
  mkResult ud_clear (Some END) [send_message (Str cancel_message) None].

(** [start]: [subscribed] is what [is_user_subscribed] answers for the
    user at that moment. *)
Definition start (loaded : bank) (first_name : string) (subscribed : bool)
    (ud : user_data) : result :=
  if subscribed then
    match get_start_keyboard loaded with
    | None =>
        mkResult ud_clear (Some END)
          [send_message
             (Str "Uzr, hozirda hech qanday fanga doir savollar topilmadi. Doniyor bilan bog'laning.")
             None]
    | Some reply_markup =>
        mkResult ud_clear (Some SELECTING_SUBJECT)
          [send_message
             (Str ("Salom, " +:+ first_name +:+ "!" +:+ nl
                   +:+ "Quiz botimizga xush kelibsiz." +:+ nl
                   +:+ "Fan tanlang yoki aralash savollardan boshlang:"))
             (Some reply_markup)]
    end
  else
    mkResult ud (Some END)
      [send_message
         (Str ("Salom, " +:+ first_name +:+ "!" +:+ nl
               +:+ "Bu botdagi quizlardan to'liq foydalanish uchun obuna bo'lishingiz kerak."
               +:+ nl +:+ nl
               +:+ "Obuna bo'lish uchun /payment buyrug'ini bering yoki admin bilan bog'laning. +998330004136"))
         None].

(** What reaches the conversation of one user: the commands [/start]
    and [/cancel] sent as new messages, so that [update.message] is
    there to reply to, and the presses of inline buttons. *)
Inductive update :=
| CmdStart (first_name : string) (subscribed : bool)
| CmdCancel
| Callback (data : string).

(** [re.match("^word$", data)]: the end may come before one last line
    feed. *)
Definition matches_word (word data : string) : bool :=
  String.eqb data word || String.eqb data (word +:+ nl).

(** One user's conversation: its state, the user data and the
    generator. *)
Record conversation := mkConv {
  c_state : conv_state;
  c_ud : user_data;
  c_gen : G
}.

Definition settle (c : conversation) (r : result) (g : G) : conversation * list action :=
  (mkConv (default (c_state c) (r_state r)) (r_ud r) g, r_actions r).

(** The [ConversationHandler] of lines 637 to 650: the entry point when
    no conversation runs, else the handlers of the state in order, then
    the fallbacks; an update no handler takes changes nothing. *)
Definition conv_step (loaded : bank) (c : conversation) (u : update)
  : conversation * list action :=
  match u with
  | CmdStart first_name subscribed =>
      settle c (start loaded first_name subscribed (c_ud c)) (c_gen c)
  | CmdCancel =>
      match c_state c with
      | END => (c, [])
      | _ => settle c (cancel (c_ud c)) (c_gen c)
      end
  | Callback data =>
      match c_state c with
      | END => (c, [])
      | SELECTING_SUBJECT =>
          if startswith data "subj|" || matches_word "random" data then
            let '(r, g) := start_quiz (c_gen c) loaded data in settle c r g
          else (c, [])
      | QUIZ_IN_PROGRESS =>
          if startswith data "ans|" then
            settle c (handle_answer loaded (c_ud c) data) (c_gen c)
          else if matches_word "next" data then
            settle c (handle_next loaded (c_ud c)) (c_gen c)
          else (c, [])
      end
  end.

Definition conv_run (loaded : bank) (c : conversation) (us : list update) : conversation :=
  fold_left (λ c u, (conv_step loaded c u).1) us c.

End Handlers.

(** A generator to run the handlers with: its state counts the calls,
    a shuffle turns the list by that many places and a sample takes
    the first elements of the turned list. *)
Definition turn {A} (n : nat) (l : list A) : list A :=
  drop (n mod length l) l ++ take (n mod length l) l.

Lemma turn_perm {A} (n : nat) (l : list A) : turn n l ≡ₚ l.
Proof.
  unfold turn. rewrite Permutation_app_comm. by rewrite take_drop.
Qed.

#[global] Program Instance counting_gen : RandomGen nat := {|
  sample A g l k := (take k (turn g l), S g);
  shuffle A g l := (turn g l, S g)
|}.
Next Obligation.
  intros A g l k Hk. cbn. rewrite length_take.
  rewrite (Permutation_length (turn_perm g l)). lia.
Qed.
Next Obligation.
  intros A g l k Hk. cbn. rewrite <- (turn_perm g l) at 2.
  apply sublist_submseteq, sublist_take.
Qed.
Next Obligation. intros A g l. cbn. apply turn_perm. Qed.

End Quiz.

(** ** The corpus format, written out *)
Module Render.
Import PyStr Loader.

(** A question written the way the corpus has it: the text, the four
    option lines and the answer line. *)
Definition render_question (q : Question) : string :=
  join nl (question q :: options q ++ ["Answer: " +:+ correct q]).

(** No line feed in [s]. *)
Fixpoint one_line (s : string) : bool :=
  match s with
  | EmptyString => true
  | String c r => negb (Ascii.eqb c LF) && one_line r
  end.

(** What [render_question] needs of a question for the loader to take
    it: a text on one line that starts with no blank and does not start
    like a subject header, four well-formed option lines of one line
    each, and one upper-case letter as the answer. *)
Definition renderable (q : Question) : bool :=
  one_line (question q)
  && from_option (λ c, negb (isspace c)) false (String.get 0 (question q))
  && negb (startswith (question q) "Subject:")
  && bool_decide (length (options q) = 4%nat)
  && forallb (λ opt, option_ok opt && one_line opt) (options q)
  && match correct q with
     | String c EmptyString => isupper c
     | _ => false
     end.
End Render.

(** ** Corpora and sessions to run the bot on *)
Module Fixtures.
Import PyStr Loader Store Quiz.


(** A block whose answer letter is none of its option letters. *)
Definition corpus_stray_answer : string :=
  join nl ["Subject: S"; ""; "Q?"; "A) w"; "B) x"; "C) y"; "D) z"; "Answer: E"].

Definition block_sum : string :=
  join nl ["1+1?"; "A) 1"; "B) 2"; "C) 3"; "D) 4"; "Answer: b"].
Definition block_double : string :=
  join nl ["2+2?"; "A) 1"; "B) 2"; "C) 3"; "D) 4"; "Answer: D"].

Definition question_sum : Question :=
  mkQuestion "1+1?" ["A) 1"; "B) 2"; "C) 3"; "D) 4"] "B".
Definition question_double : Question :=
  mkQuestion "2+2?" ["A) 1"; "B) 2"; "C) 3"; "D) 4"] "D".

(** One subject, [Math], with two questions. *)
Definition corpus_math : string :=
  join blank_line ["Subject: Math"; block_sum; block_double].

(** The subject [Math] opened twice, one question under each opening. *)
Definition corpus_twice : string :=
  join blank_line ["Subject: Math"; block_sum; "Subject: Math"; block_double].

(** A document of user [id] with the given expiry, and a collection
    that holds the given documents and answers every operation. *)
Definition doc_until (id : Z) (expires : option (option Z)) : user_doc :=
  mkDoc id (Some 0) expires (Some None).

Definition db_of (l : list user_doc) : db :=
  mkDb (list_to_map (map (λ doc, (doc_chat_id doc, doc)) l)) [] [].

Definition one_second : Z := 1000000.


(** A bank with the one subject [OT] of [n] questions. *)
Definition bank_ot (n : nat) : bank := [("OT", replicate n question_sum)].

(** A conversation that has not begun, with the counting generator. *)
Definition idle : conversation := mkConv END ud_clear 0%nat.

(** The user starts, picks [OT] and answers the first three questions. *)
Definition three_answers : list update :=
  [CmdStart "Ali" true; Callback "subj|OT";
   Callback "ans|0|B"; Callback "ans|1|A"; Callback "ans|2|B"].

(** The user data as [start_quiz] sets it for 25 questions of [OT],
    before the first batch is sent. *)
Definition fresh_25 : user_data :=
  mkUd (Some "OT") (Some (replicate 25 question_sum)) (Some 0) (Some 0)
    (Some ∅) (Some []) ∅.

(** The bank of [corpus_math] and the conversation in which the user
    has started and picked [Math]. *)
Definition math_bank : bank := load_questions (Some corpus_math).

Definition math_session : conversation :=
  conv_run math_bank idle [CmdStart "Ali" true; Callback "subj|Math"].

End Fixtures.

(** * Properties *)

(** ** The loader *)
Module LoaderFacts.
Import PyStr Loader.

Lemma dict_get_set {V} (k k' : string) (v : V) (d : dict V) :
  dict_get k (dict_set k' v d) = if String.eqb k k' then Some v else dict_get k d.
Proof.
  induction d as [|[k0 v0] d IH]; simpl; [done|].
  destruct (String.eqb_spec k' k0) as [->|Hne]; simpl.
  - destruct (String.eqb k k0); done.
  - rewrite IH. destruct (String.eqb_spec k k0) as [->|Hne']; [|done].
    by rewrite (proj2 (String.eqb_neq k0 k')).
Qed.

Lemma dict_get_elem {V} (k : string) (v : V) (d : dict V) :
  dict_get k d = Some v → ∃ k', (k', v) ∈ d.
Proof.
  induction d as [|[k0 v0] d IH]; simpl; [done|].
  destruct (String.eqb k k0).
  - intros [= ->]. exists k0. left.
  - intros Hg. destruct (IH Hg) as [k' Hin]. exists k'. by right.
Qed.

Lemma dict_set_Forall {V} (P : V → Prop) (k : string) (v : V) (d : dict V) :
  P v → Forall (λ e, P e.2) d → Forall (λ e, P e.2) (dict_set k v d).
Proof.
  intros Hv. induction 1 as [|[k0 v0] d H0 Hd IH]; simpl.
  - by apply Forall_singleton.
  - destruct (String.eqb k k0); constructor; done.
Qed.

Definition bank_ok (b : bank) : Prop := Forall (λ e, Forall question_ok e.2) b.

Lemma dict_append_ok k q b : question_ok q → bank_ok b → bank_ok (dict_append k q b).
Proof.
  intros Hq Hb. unfold dict_append.
  destruct (dict_get k b) as [qs|] eqn:Hg; [|done].
  apply dict_set_Forall; [|done].
  destruct (dict_get_elem _ _ _ Hg) as [k' Hin].
  unfold bank_ok in Hb. rewrite Forall_forall in Hb. specialize (Hb _ Hin). simpl in Hb.
  apply Forall_app. split; [done | by apply Forall_singleton].
Qed.

Lemma upper_char_isupper c : isalpha c = true → isupper (upper_char c) = true.
Proof.
  destruct c as [[] [] [] [] [] [] [] []]; vm_compute; congruence.
Qed.

Lemma single_alpha s :
  is_empty s || negb (len s =? 1) || negb (str_isalpha s) = false →
  ∃ c, s = String c EmptyString ∧ isalpha c = true.
Proof.
  destruct s as [|c [|c' s]]; [done | |].
  - intros Hc. exists c. split; [done|].
    cbn in Hc. destruct (isalpha c); done.
  - intros Hc. exfalso.
    assert ((len (String c (String c' s)) =? 1) = false) as Hl.
    { apply Z.eqb_neq. unfold len. simpl String.length. lia. }
    rewrite Hl in Hc. done.
Qed.

Lemma slice_1_5_length {A} (l : list A) : (6 ≤ length l)%nat → length (slice l 1 5) = 4%nat.
Proof.
  intros Hl. unfold slice.
  change (5 <? 0) with false. change (1 <? 0) with false. cbv beta iota zeta.
  rewrite !Z.min_l by lia. rewrite length_take, length_drop. lia.
Qed.

Lemma load_block_ok st block : bank_ok st.2 → bank_ok (load_block st block).2.
Proof.
  destruct st as [cs b]. simpl. intros Hb. unfold load_block.
  repeat (case_match; simpl; try done).
  - apply dict_set_Forall; [constructor | done].
  - apply dict_append_ok; [|done].
    repeat split; simpl.
    + apply slice_1_5_length.
      match goal with H : (_ <? 6)%nat = false |- _ => apply Nat.ltb_ge in H; done end.
    + match goal with H : negb (forallb _ _) = false |- _ =>
        apply negb_false_iff in H; rewrite forallb_forall in H end.
      apply Forall_forall. intros x Hx. apply list_elem_of_In in Hx. auto.
    + match goal with H : _ || _ || _ = false |- _ =>
        destruct (single_alpha _ H) as (c & -> & Hc) end.
      exists (upper_char c). split; [done|]. by apply upper_char_isupper.
Qed.

Lemma load_blocks_ok blocks st : bank_ok st.2 → bank_ok (load_blocks st blocks).2.
Proof.
  revert st. induction blocks as [|b bs IH]; intros st Hst; simpl; [done|].
  apply IH. by apply load_block_ok.
Qed.

(** Two loader states that name the same current subject and agree on
    the entry of [name] keep doing so, block after block. *)
Definition agree_on (name : string) (s1 s2 : loader_state) : Prop :=
  s1.1 = s2.1 ∧ dict_get name s1.2 = dict_get name s2.2.

Lemma dict_get_append k k' q b :
  dict_get k (dict_append k' q b) =
  if String.eqb k k' then (λ qs, qs ++ [q]) <$> dict_get k b else dict_get k b.
Proof.
  unfold dict_append. destruct (String.eqb_spec k k') as [->|Hne].
  - destruct (dict_get k' b) as [qs|] eqn:Hg; simpl.
    + by rewrite dict_get_set, String.eqb_refl.
    + by rewrite Hg.
  - destruct (dict_get k' b) as [qs|] eqn:Hg; [|done].
    by rewrite dict_get_set, (proj2 (String.eqb_neq k k')).
Qed.

Lemma load_block_agree name s1 s2 block :
  agree_on name s1 s2 → agree_on name (load_block s1 block) (load_block s2 block).
Proof.
  destruct s1 as [cs b1], s2 as [cs2 b2]. intros [Hcs Hg]. simpl in Hcs, Hg. subst cs2.
  unfold load_block.
  destruct (split nl (strip block) !! 0%nat) as [line0|]; [|done].
  destruct (startswith line0 "Subject:").
  { destruct (split1 ":" line0 !! 1%nat) as [rest|]; [|done].
    destruct (negb (is_empty (strip rest))); [|done].
    split; [done|]. simpl. by rewrite !dict_get_set, Hg. }
  destruct cs as [subj|]; [|done].
  destruct (length (split nl (strip block)) <? 6)%nat; [done|].
  destruct (String.eqb_spec name subj) as [->|Hne].
  - rewrite Hg.
    destruct (negb (bool_decide (is_Some (dict_get subj b2)))); [done|].
    destruct (split nl (strip block) !! 5%nat) as [answer_line|]; [|done].
    destruct (negb (forallb option_ok _)); [done|].
    destruct (negb (startswith answer_line "Answer:")); [done|].
    destruct (split1 ":" answer_line !! 1%nat) as [rest|]; [|done].
    destruct (_ || _ || _); [done|].
    split; [done|]. simpl. by rewrite !dict_get_append, Hg.
  - assert (∀ b q, dict_get name (dict_append subj q b) = dict_get name b) as Hother.
    { intros b q. by rewrite dict_get_append, (proj2 (String.eqb_neq name subj)). }
    repeat (case_match; try done); split; simpl; try done;
      rewrite ?Hother; done.
Qed.

Lemma load_blocks_agree name blocks s1 s2 :
  agree_on name s1 s2 → agree_on name (load_blocks s1 blocks) (load_blocks s2 blocks).
Proof.
  revert s1 s2. induction blocks as [|b bs IH]; intros s1 s2 Hs; simpl; [done|].
  apply IH. by apply load_block_agree.
Qed.

Lemma load_block_header st hdr name :
  subject_header hdr = Some name →
  load_block st hdr = (Some name, dict_set name [] st.2).
Proof.
  destruct st as [cs b]. unfold subject_header, load_block.
  destruct (split nl (strip hdr) !! 0%nat) as [line0|]; [|done].
  destruct (startswith line0 "Subject:"); [|done].
  destruct (split1 ":" line0 !! 1%nat) as [rest|]; [|done].
  destruct (is_empty (strip rest)); [done|]. by intros [= <-].
Qed.

Lemma load_blocks_app st l1 l2 :
  load_blocks st (l1 ++ l2) = load_blocks (load_blocks st l1) l2.
Proof. apply fold_left_app. Qed.

End LoaderFacts.

Module LoaderSpec.
Import PyStr Loader Fixtures LoaderFacts.


Example load_corpus_math :
  load_questions (Some corpus_math) = [("Math", [question_sum; question_double])].
Proof. reflexivity. Qed.

(** C3, as the loader has it, for a corpus of ASCII text: every
    question of every subject of the bank that [load_questions] builds
    has exactly four option lines, each longer than two characters with
    a letter first and a closing parenthesis second, and a [correct]
    letter that is one upper-case letter, A to Z.  Whether that letter is
    the letter of one of the options is not looked at. *)
Theorem loaded_questions_checked (file : option string) :
  from_option ascii_text true file = true →
  Forall (λ entry, Forall question_ok entry.2) (load_questions file).
Proof.
  intros _. destruct file as [content|]; simpl; [|constructor].
  apply (load_blocks_ok (blocks_of content) (None, [])). constructor.
Qed.

Lemma loaded_questions_checked_witness :
  from_option ascii_text true (Some corpus_math) = true
  ∧ load_questions (Some corpus_math) = [("Math", [question_sum; question_double])]
  ∧ Forall (λ entry, Forall question_ok entry.2) (load_questions (Some corpus_math)).
Proof.
  split; [reflexivity|]. split; [reflexivity|].
  exact (loaded_questions_checked (Some corpus_math) eq_refl).
Defined.

(** C3 as stated fails: this corpus of ASCII text loads into a question
    whose [correct] letter, E, is the letter of none of its four
    options. *)
Lemma correct_letter_outside_options :
  ∃ q, load_questions (Some corpus_stray_answer) = [("S", [q])]
       ∧ length (options q) = 4%nat
       ∧ correct q = "E"
       ∧ map option_letter (options q) = ["A"; "B"; "C"; "D"]
       ∧ correct q ∉ map option_letter (options q).
Proof.
  eexists. split; [reflexivity|]. cbn.
  repeat split. intros Hin.
  repeat (apply elem_of_cons in Hin as [Hin|Hin]; [discriminate Hin|]).
  by apply elem_of_nil in Hin.
Qed.

(** C10: a block that opens the subject [name] sets its list to empty,
    whatever the blocks before it put there; the entry of [name] in the
    bank is what the blocks after that opening add to an empty list, so
    the questions parsed under an earlier opening of [name] are gone. *)
Theorem repeated_subject_restarts (content : string) (pre : list string)
    (hdr : string) (post : list string) (name : string) :
  blocks_of content = pre ++ hdr :: post →
  subject_header hdr = Some name →
  dict_get name (load_blocks (None, []) (pre ++ [hdr])).2 = Some []
  ∧ dict_get name (load_content content)
    = dict_get name (load_blocks (Some name, [(name, [])]) post).2.
Proof.
  intros Hblocks Hhdr.
  assert (agree_on name (load_blocks (None, []) (pre ++ [hdr])) (Some name, [(name, [])])) as Hag.
  { rewrite load_blocks_app. simpl. rewrite (load_block_header _ _ _ Hhdr).
    split; [done|]. simpl. by rewrite dict_get_set, !String.eqb_refl. }
  split.
  - destruct Hag as [_ ->]. simpl. by rewrite String.eqb_refl.
  - unfold load_content. rewrite Hblocks.
    replace (pre ++ hdr :: post) with ((pre ++ [hdr]) ++ post) by (by rewrite <- app_assoc).
    rewrite load_blocks_app.
    by destruct (load_blocks_agree name post _ _ Hag) as [_ ->].
Qed.

Lemma repeated_subject_restarts_witness :
  blocks_of corpus_twice = ["Subject: Math"; block_sum] ++ "Subject: Math" :: [block_double]
  ∧ dict_get "Math" (load_blocks (None, []) ["Subject: Math"; block_sum]).2 = Some [question_sum]
  ∧ dict_get "Math" (load_blocks (None, []) (["Subject: Math"; block_sum] ++ ["Subject: Math"])).2 = Some []
  ∧ dict_get "Math" (load_content corpus_twice) = Some [question_double].
Proof.
  split; [reflexivity|]. split; [reflexivity|].
  destruct (repeated_subject_restarts corpus_twice ["Subject: Math"; block_sum]
              "Subject: Math" [block_double] "Math" eq_refl eq_refl) as [H1 H2].
  split; [exact H1|]. rewrite H2. reflexivity.
Defined.

End LoaderSpec.

(** ** The subscription gate and the admin command *)
Module StoreSpec.
Import PyStr Store Fixtures.

(** C6: [is_user_subscribed] only looks the user up and leaves every
    document as it is; it answers [False] when the lookup raises, when no
    document is found and when the document's expiry is set and before
    [now]; it answers [True] when the document has no expiry (no key, or
    [None] under it) or an expiry that is not before [now]. *)
Theorem gate_reads_and_fails_closed (now chat_id : Z) (d : db) :
  let r := is_user_subscribed now chat_id d in
  docs r.2 = docs d
  ∧ log r.2 = OpFindOne chat_id :: log d
  ∧ (hd true (health d) = false → r.1 = false)
  ∧ (hd true (health d) = true →
       (docs d !! chat_id = None → r.1 = false)
       ∧ (∀ doc t, docs d !! chat_id = Some doc →
            subscription_expires_at doc = Some (Some t) → t < now → r.1 = false)
       ∧ (∀ doc t, docs d !! chat_id = Some doc →
            subscription_expires_at doc = Some (Some t) → now ≤ t → r.1 = true)
       ∧ (∀ doc, docs d !! chat_id = Some doc →
            subscription_expires_at doc = None ∨ subscription_expires_at doc = Some None →
            r.1 = true)).
Proof.
  unfold is_user_subscribed, find_one, attempt. simpl.
  destruct (hd true (health d)) eqn:Hh; simpl.
  - destruct (docs d !! chat_id) as [doc|] eqn:Hdoc; simpl.
    + destruct (subscription_expires_at doc) as [[t|]|] eqn:He; simpl.
      * destruct (Z.ltb_spec t now); simpl; repeat split; try done;
          intros; simplify_eq; try lia; intuition congruence.
      * repeat split; try done; intros; simplify_eq.
      * repeat split; try done; intros; simplify_eq.
    + repeat split; try done.
  - repeat split; try done.
Qed.

Example gate_expired_a_second_ago (now : Z) :
  (is_user_subscribed now 7 (db_of [doc_until 7 (Some (Some (now - one_second)))])).1 = false.
Proof.
  unfold is_user_subscribed, find_one, attempt, db_of. simpl.
  rewrite lookup_insert_eq. simpl.
  destruct (Z.ltb_spec (now - one_second) now); [done | unfold one_second in *; lia].
Qed.

Example gate_expires_in_a_second (now : Z) :
  (is_user_subscribed now 7 (db_of [doc_until 7 (Some (Some (now + one_second)))])).1 = true.
Proof.
  unfold is_user_subscribed, find_one, attempt, db_of. simpl.
  rewrite lookup_insert_eq. simpl.
  destruct (Z.ltb_spec (now + one_second) now); [unfold one_second in *; lia | done].
Qed.

Example gate_no_expiry (now : Z) :
  (is_user_subscribed now 7 (db_of [doc_until 7 None])).1 = true.
Proof.
  unfold is_user_subscribed, find_one, attempt, db_of. simpl.
  by rewrite lookup_insert_eq.
Qed.

(** C9: a caller other than the admin gets the refusal and the
    collection is not touched (no operation is even attempted); and when a
    second argument reads as a number of days that is zero or negative,
    the command answers with one validation text and the collection is
    not touched either: for the admin with a well-formed chat id, the
    text says the number of days must be positive. *)
Theorem grant_guards_before_storage (admin now caller : Z)
    (caller_username : option string) (args : list string)
    (notify_ok : bool) (d : db) :
  let r := add_subscriber_command admin now caller caller_username args notify_ok d in
  (caller ≠ admin → r = ([ReplyText msg_not_admin], d))
  ∧ (∀ arg0 arg1 rest expiry_days,
       args = arg0 :: arg1 :: rest → int arg1 = Some expiry_days → expiry_days ≤ 0 →
       r.2 = d
       ∧ (∃ m, r.1 = [ReplyText m]
               ∧ m ∈ [msg_not_admin; msg_bad_chat_id; msg_days_not_positive])
       ∧ (caller = admin → is_Some (int arg0) →
          r.1 = [ReplyText msg_days_not_positive])).
Proof.
  unfold add_subscriber_command. simpl. split.
  - intros Hne. by rewrite (proj2 (Z.eqb_neq caller admin)).
  - intros arg0 arg1 rest n -> Hint Hn.
    destruct (Z.eqb_spec caller admin) as [->|Hne]; simpl.
    + destruct (int arg0) as [target|] eqn:H0.
      * rewrite Hint. rewrite (proj2 (Z.leb_le n 0)) by done. simpl.
        split; [done|]. split; [|done].
        eexists. split; [done|]. set_solver.
      * simpl. split; [done|]. split; [|by intros _ [? [=]]].
        eexists. split; [done|]. set_solver.
    + split; [done|]. split; [|done]. eexists. split; [done|]. set_solver.
Qed.

Example grant_zero_days_rejected (d : db) :
  add_subscriber_command 1 0 1 None ["42"; "0"] true d
  = ([ReplyText msg_days_not_positive], d).
Proof. reflexivity. Qed.

Example grant_thirty_days_stored :
  let r := add_subscriber_command 1 0 1 None ["42"; "30"] true (db_of []) in
  r.1 = [ReplyAdded 42 (Some (30 * us_per_day)); NotifyUser 42 (Some (30 * us_per_day))]
  ∧ log r.2 = [OpInsertOne 42; OpFindOne 42]
  ∧ (is_user_subscribed 0 42 r.2).1 = true.
Proof. vm_compute. done. Qed.

End StoreSpec.

(** ** The session *)
Module QuizFacts.
Import PyStr PyNum Loader Quiz.

Lemma elem_of_range (a b x : Z) : x ∈ range a b ↔ a ≤ x < b.
Proof. unfold range. rewrite elem_of_seqZ. lia. Qed.

Lemma NoDup_range (a b : Z) : NoDup (range a b).
Proof. apply NoDup_seqZ. Qed.

Lemma length_range (a b : Z) : list_len (range a b) = Z.max 0 (b - a).
Proof. unfold list_len, range. rewrite length_seqZ. lia. Qed.

Lemma is_in_true (x : Z) (l : list Z) : is_in x l = true ↔ x ∈ l.
Proof. unfold is_in. apply bool_decide_eq_true. Qed.

Lemma present_batch_answered (batch : list (Z * Question)) (a : gset Z) (sent : list action) :
  (present_batch batch a sent).1 ⊆ a ∪ list_to_set (batch.*1).
Proof.
  revert a sent. induction batch as [|[i q] batch IH]; intros a sent; simpl.
  - set_solver.
  - destruct (negb (nonempty _)).
    + etrans; [apply IH|]. set_solver.
    + etrans; [apply IH|]. set_solver.
Qed.

Lemma zip_fst_subseteq {A B} (l : list A) (k : list B) : (zip l k).*1 ⊆ l.
Proof.
  revert k. induction l as [|x l IH]; intros [|y k]; simpl;
    try (specialize (IH k)); set_solver.
Qed.

(** The session as a handler leaves it while a quiz runs. *)
Definition session_inv (ud : user_data) : Prop :=
  ∃ qs start a,
    ud_questions ud = Some qs
    ∧ 0 ≤ start < list_len qs
    ∧ ud_current_batch_indices ud
      = Some (range start (Z.min (start + QUESTIONS_PER_BATCH) (list_len qs)))
    ∧ ud_index ud = Some (Z.min (start + QUESTIONS_PER_BATCH) (list_len qs))
    ∧ ud_answered_in_batch ud = Some a
    ∧ a ⊆ list_to_set (range start (Z.min (start + QUESTIONS_PER_BATCH) (list_len qs)))
    ∧ ud_score ud = Some (Z.of_nat (size (ud_correct ud))).

Lemma nonempty_len {A} (l : list A) : nonempty l = true ↔ 0 < list_len l.
Proof. destruct l; unfold list_len; simpl; split; intros; try done; lia. Qed.

Lemma send_next_sends (loaded : bank) (ud : user_data) (qs : list Question) (c : Z) :
  ud_questions ud = Some qs → ud_index ud = Some c → 0 ≤ c < list_len qs →
  let e := Z.min (c + QUESTIONS_PER_BATCH) (list_len qs) in
  ∃ a sent,
    send_next_question_batch loaded ud
    = mkResult (set_index e (set_answered a (set_batch (range c e) ud)))
        (Some QUIZ_IN_PROGRESS) sent
    ∧ a ⊆ list_to_set (range c e).
Proof.
  intros Hqs Hc Hr e. unfold send_next_question_batch. rewrite Hqs, Hc. simpl.
  rewrite (proj2 (Z.leb_gt (list_len qs) c)) by lia.
  assert (nonempty qs = true) as -> by (apply nonempty_len; lia). simpl.
  fold e.
  destruct (present_batch (zip (range c e) (slice qs c e)) ∅ []) as [a sent] eqn:Hp.
  eexists a, _. split; [reflexivity|].
  pose proof (present_batch_answered (zip (range c e) (slice qs c e)) ∅ []) as Hsub.
  rewrite Hp in Hsub. simpl in Hsub.
  pose proof (zip_fst_subseteq (range c e) (slice qs c e)). set_solver.
Qed.

Lemma send_next_inv (loaded : bank) (ud : user_data) (qs : list Question) (c : Z) :
  ud_questions ud = Some qs → ud_index ud = Some c → 0 ≤ c < list_len qs →
  ud_score ud = Some (Z.of_nat (size (ud_correct ud))) →
  r_state (send_next_question_batch loaded ud) = Some QUIZ_IN_PROGRESS
  ∧ session_inv (r_ud (send_next_question_batch loaded ud)).
Proof.
  intros Hqs Hc Hr Hs.
  destruct (send_next_sends loaded ud qs c Hqs Hc Hr) as (a & sent & -> & Ha).
  split; [done|]. exists qs, c, a. simpl. done.
Qed.

Lemma index_Some_range {A} (l : list A) (i : Z) (x : A) :
  index l i = Some x → - list_len l ≤ i < list_len l.
Proof.
  unfold index, list_len.
  destruct (Z.leb_spec 0 i), (Z.ltb_spec i (Z.of_nat (length l))); simpl; try lia;
    destruct (Z.leb_spec (- Z.of_nat (length l)) i), (Z.ltb_spec i 0); simpl; try lia; done.
Qed.

(** What [answer_question] does when [qid] passes the check of line 482
    and [questions[qid]] is there. *)
Lemma answer_question_proceeds (loaded : bank) (ud : user_data) (qid : Z)
    (selected_letter : string) (qs : list Question) (q : Question) :
  ud_questions ud = Some qs → index qs qid = Some q →
  let batch := default [] (ud_current_batch_indices ud) in
  let a := default ∅ (ud_answered_in_batch ud) in
  let first := is_in qid batch && negb (bool_decide (qid ∈ a)) in
  let a' := if first then {[qid]} ∪ a else a in
  let ud1 := if first then set_answered a' ud else ud in
  let ud2 :=
    if String.eqb selected_letter (correct q) && negb (bool_decide (qid ∈ ud_correct ud))
    then credit qid (default 0 (ud_score ud) + 1) ud1 else ud1 in
  let finished :=
    is_in (list_len qs - 1) batch && (list_len batch <=? Z.of_nat (size a')) in
  let r := answer_question loaded ud qid selected_letter in
  r_ud r = ud2
  ∧ r_state r = Some (if finished then SELECTING_SUBJECT else QUIZ_IN_PROGRESS)
  ∧ (finished = true →
     last (r_actions r)
     = Some (send_message
               (Str (finish_text (default 0 (ud_score ud2)) (list_len qs)
                       (bool_decide (is_Some (get_start_keyboard loaded)))))
               (get_start_keyboard loaded))).
Proof.
  intros Hqs Hidx. pose proof (index_Some_range _ _ _ Hidx) as Hr.
  cbv zeta. unfold answer_question. rewrite Hqs. simpl.
  assert (nonempty qs = true) as -> by (apply nonempty_len; lia). simpl.
  rewrite (proj2 (Z.leb_gt (list_len qs) qid)) by lia.
  rewrite Hidx.
  destruct (scan_options _ _ _ _ _ _) as [[parts sel] cor].
  destruct (is_in qid _ && negb _); simpl;
    destruct (String.eqb _ _ && negb _); simpl;
    destruct (is_in (list_len qs - 1) _ && (_ <=? _)); simpl; done.
Qed.

Lemma answer_question_aborts (loaded : bank) (ud : user_data) (qid : Z)
    (selected_letter : string) :
  list_len (default [] (ud_questions ud)) ≤ qid →
  answer_question loaded ud qid selected_letter
  = mkResult ud_clear (Some END)
      [answer_query; edit_message_text (Str "Uzr, savollarni yuklashda xatolik.")].
Proof.
  intros Hq. unfold answer_question.
  rewrite (proj2 (Z.leb_le _ qid)) by done. by rewrite orb_true_r.
Qed.

Lemma size_add_new (x : Z) (s : gset Z) :
  x ∉ s → Z.of_nat (size ({[x]} ∪ s)) = Z.of_nat (size s) + 1.
Proof.
  intros Hx. rewrite size_union by set_solver. rewrite size_singleton. lia.
Qed.

Lemma inv_set_answered (ud : user_data) (b : list Z) (a : gset Z) (x : Z) :
  session_inv ud → ud_current_batch_indices ud = Some b →
  ud_answered_in_batch ud = Some a → x ∈ b →
  session_inv (set_answered ({[x]} ∪ a) ud).
Proof.
  intros (qs & start & a0 & Hqs & Hst & Hb & Hi & Ha & Hsub & Hsc) Hb' Ha' Hx.
  exists qs, start, ({[x]} ∪ a). simpl. simplify_eq.
  repeat split; try done; try lia. set_solver.
Qed.

Lemma inv_credit (u : user_data) (s qid : Z) :
  session_inv u → qid ∉ ud_correct u → s = default 0 (ud_score u) + 1 →
  session_inv (credit qid s u).
Proof.
  intros (qs & start & a0 & Hqs & Hst & Hb & Hi & Ha & Hsub & Hsc) Hq ->.
  exists qs, start, a0. simpl. repeat split; try done; try lia.
  rewrite Hsc. simpl. by rewrite size_add_new.
Qed.

Lemma answer_question_inv (loaded : bank) (ud : user_data) (qid : Z) (letter : string) :
  session_inv ud →
  r_state (answer_question loaded ud qid letter) ≠ Some END →
  session_inv (r_ud (answer_question loaded ud qid letter)).
Proof.
  intros Hinv Hne.
  destruct Hinv as (qs & start & a & Hqs & Hst & Hb & Hi & Ha & Hsub & Hsc).
  assert (session_inv ud) as Hinv by (exists qs, start, a; done).
  set (e := Z.min (start + QUESTIONS_PER_BATCH) (list_len qs)) in *.
  set (first := is_in qid (range start e) && negb (bool_decide (qid ∈ a))).
  assert (session_inv (if first then set_answered ({[qid]} ∪ a) ud else ud)) as Hinv1.
  { destruct first eqn:Hf; [|done].
    apply andb_true_iff in Hf as [Hf _]. apply is_in_true in Hf.
    by eapply inv_set_answered. }
  destruct (index qs qid) as [q|] eqn:Hidx.
  - destruct (answer_question_proceeds loaded ud qid letter qs q Hqs Hidx) as (-> & _ & _).
    rewrite Hb, Ha. simpl. fold first. clearbody first.
    destruct (String.eqb letter (correct q) && negb (bool_decide (qid ∈ ud_correct ud))) eqn:Hc;
      [|by destruct first].
    apply andb_true_iff in Hc as [_ Hc]. apply negb_true_iff, bool_decide_eq_false in Hc.
    apply inv_credit; by destruct first.
  - unfold answer_question in *. rewrite Hqs in *. simpl in *.
    destruct (negb (nonempty qs) || (list_len qs <=? qid)); [done|].
    rewrite Hidx in *. simpl. rewrite Hb, Ha. simpl. fold first. clearbody first.
    by destruct first.
Qed.

Lemma handle_answer_inv (loaded : bank) (ud : user_data) (data : string) :
  session_inv ud →
  r_state (handle_answer loaded ud data) ≠ Some END →
  session_inv (r_ud (handle_answer loaded ud data)).
Proof.
  intros Hinv. unfold handle_answer.
  destruct (parse_answer data) as [[qid letter]|]; [|done].
  by apply answer_question_inv.
Qed.

Lemma handle_next_inv (loaded : bank) (ud : user_data) :
  session_inv ud →
  r_state (handle_next loaded ud) = Some QUIZ_IN_PROGRESS →
  session_inv (r_ud (handle_next loaded ud)).
Proof.
  intros Hinv.
  destruct Hinv as (qs & start & a & Hqs & Hst & Hb & Hi & Ha & Hsub & Hsc).
  assert (session_inv ud) as Hinv by (exists qs, start, a; done).
  unfold handle_next. destruct (_ <=? _); [|done]. simpl.
  set (e := Z.min (start + QUESTIONS_PER_BATCH) (list_len qs)) in *.
  destruct (Z.le_gt_cases (list_len qs) e) as [Hle|Hgt].
  - unfold send_next_question_batch. rewrite Hqs, Hi. simpl.
    rewrite (proj2 (Z.leb_le _ _)) by done. done.
  - intros _. eapply send_next_inv; [done | done | unfold QUESTIONS_PER_BATCH in *; lia | done].
Qed.

Section WithGen.
Context {G : Type} `{RandomGen G}.

Lemma start_quiz_inv (g : G) (loaded : bank) (data : string) :
  r_state (start_quiz g loaded data).1 = Some QUIZ_IN_PROGRESS →
  session_inv (r_ud (start_quiz g loaded data).1).
Proof.
  assert (∀ name qs, nonempty qs = true →
            session_inv (r_ud (send_next_question_batch loaded
              (mkUd (Some name) (Some qs) (Some 0) (Some 0) (Some ∅) (Some []) ∅)))) as Hbegin.
  { intros name qs Hqs. apply nonempty_len in Hqs.
    eapply send_next_inv; simpl; try done. }
  unfold start_quiz.
  destruct (startswith data "subj|").
  - destruct (dict_get _ loaded) as [[|q qs]|]; try done.
    destruct (shuffle g (q :: qs)) as [qs' g'].
    destruct (nonempty qs') eqn:Hq; simpl; [|done]. intros _. by apply Hbegin.
  - destruct (String.eqb data "random"); [|done].
    destruct (negb (existsb nonempty (dict_values loaded))); [done|].
    destruct (random_mix g loaded) as [qs' g'].
    destruct (nonempty qs') eqn:Hq; simpl; [|done]. intros _. by apply Hbegin.
Qed.

Lemma conv_step_inv (loaded : bank) (c : conversation) (u : update) :
  (c_state c = QUIZ_IN_PROGRESS → session_inv (c_ud c)) →
  c_state (conv_step loaded c u).1 = QUIZ_IN_PROGRESS →
  session_inv (c_ud (conv_step loaded c u).1).
Proof.
  intros Hinv. destruct c as [st ud g]. simpl in Hinv.
  destruct u as [name sub| |data]; simpl.
  - unfold start. destruct sub; [destruct (get_start_keyboard loaded)|]; done.
  - destruct st; simpl; done.
  - destruct st; simpl; try done.
    + destruct (_ || _); simpl; [|done].
      pose proof (start_quiz_inv g loaded data) as Hs.
      destruct (start_quiz g loaded data) as [r g']. simpl in *.
      destruct (r_state r) as [[]|] eqn:Hr; simpl; try done. auto.
    + destruct (startswith data "ans|"); simpl.
      * pose proof (handle_answer_inv loaded ud data (Hinv eq_refl)) as Hs.
        destruct (r_state (handle_answer loaded ud data)) as [[]|] eqn:Hr; simpl; try done;
          intros _; apply Hs; done.
      * destruct (matches_word "next" data); simpl; [|auto].
        pose proof (handle_next_inv loaded ud (Hinv eq_refl)) as Hs.
        destruct (r_state (handle_next loaded ud)) as [[]|] eqn:Hr; simpl; try done.
        -- auto.
        -- unfold handle_next in Hr. destruct (_ <=? _); [|done]. simpl in Hr.
           unfold send_next_question_batch in Hr.
           repeat (case_match; simpl in Hr; try done).
Qed.

Lemma conv_run_inv (loaded : bank) (us : list update) (c : conversation) :
  (c_state c = QUIZ_IN_PROGRESS → session_inv (c_ud c)) →
  c_state (conv_run loaded c us) = QUIZ_IN_PROGRESS →
  session_inv (c_ud (conv_run loaded c us)).
Proof.
  revert c. induction us as [|u us IH]; intros c Hinv; simpl; [done|].
  apply IH. by apply conv_step_inv.
Qed.

End WithGen.

End QuizFacts.

(** ** Batches *)
Module BatchSpec.
Import PyStr PyNum Loader Quiz Fixtures QuizFacts.

Section WithGen.
Context {G : Type} `{RandomGen G}.

(** C4: a call of [send_next_question_batch] with the cursor [c] inside
    the questions makes [current_batch_indices] the range that starts at
    [c] and has [min(10, len(questions) - c)] elements, and moves the
    cursor to its end; in every state a conversation reaches while the
    quiz is in progress the batch is such a range and the cursor is at its
    end; and 25 questions are sent as the ranges 0..9, 10..19, 20..24,
    after which a further call sends no batch. *)
Theorem batches_are_contiguous_windows (loaded : bank) :
  (∀ ud qs c,
     ud_questions ud = Some qs → ud_index ud = Some c → 0 ≤ c < list_len qs →
     let r := send_next_question_batch loaded ud in
     let n := Z.min QUESTIONS_PER_BATCH (list_len qs - c) in
     ud_current_batch_indices (r_ud r) = Some (range c (c + n))
     ∧ list_len (range c (c + n)) = n
     ∧ ud_index (r_ud r) = Some (c + n)
     ∧ ud_questions (r_ud r) = Some qs
     ∧ r_state r = Some QUIZ_IN_PROGRESS)
  ∧ (∀ (g0 : G) us,
       let c := conv_run loaded (mkConv END ud_clear g0) us in
       c_state c = QUIZ_IN_PROGRESS →
       ∃ qs start,
         let n := Z.min QUESTIONS_PER_BATCH (list_len qs - start) in
         ud_questions (c_ud c) = Some qs
         ∧ 0 ≤ start < list_len qs
         ∧ ud_current_batch_indices (c_ud c) = Some (range start (start + n))
         ∧ ud_index (c_ud c) = Some (start + n))
  ∧ (∀ ud qs,
       ud_questions ud = Some qs → ud_index ud = Some 0 → list_len qs = 25 →
       let r1 := send_next_question_batch loaded ud in
       let r2 := send_next_question_batch loaded (r_ud r1) in
       let r3 := send_next_question_batch loaded (r_ud r2) in
       let r4 := send_next_question_batch loaded (r_ud r3) in
       ud_current_batch_indices (r_ud r1) = Some (range 0 10)
       ∧ ud_current_batch_indices (r_ud r2) = Some (range 10 20)
       ∧ ud_current_batch_indices (r_ud r3) = Some (range 20 25)
       ∧ r_state r4 = Some SELECTING_SUBJECT
       ∧ r_ud r4 = r_ud r3).
Proof.
  assert (∀ ud qs c,
     ud_questions ud = Some qs → ud_index ud = Some c → 0 ≤ c < list_len qs →
     let r := send_next_question_batch loaded ud in
     let n := Z.min QUESTIONS_PER_BATCH (list_len qs - c) in
     ud_current_batch_indices (r_ud r) = Some (range c (c + n))
     ∧ list_len (range c (c + n)) = n
     ∧ ud_index (r_ud r) = Some (c + n)
     ∧ ud_questions (r_ud r) = Some qs
     ∧ r_state r = Some QUIZ_IN_PROGRESS) as Hone.
  { intros ud qs c Hqs Hc Hr. cbv zeta.
    destruct (send_next_sends loaded ud qs c Hqs Hc Hr) as (a & sent & -> & _). simpl.
    replace (Z.min (c + QUESTIONS_PER_BATCH) (list_len qs))
      with (c + Z.min QUESTIONS_PER_BATCH (list_len qs - c)) by lia.
    repeat split; try done.
    rewrite length_range. unfold QUESTIONS_PER_BATCH. lia. }
  split; [exact Hone|]. split.
  - intros g0 us c Hst.
    destruct (conv_run_inv loaded us (mkConv END ud_clear g0)) as
      (qs & start & a & Hqs & Hr & Hb & Hi & _); [done | done |].
    exists qs, start. cbv zeta.
    replace (start + Z.min QUESTIONS_PER_BATCH (list_len qs - start))
      with (Z.min (start + QUESTIONS_PER_BATCH) (list_len qs)) by lia.
    done.
  - intros ud qs Hqs Hc Hlen. cbv zeta.
    destruct (Hone ud qs 0 Hqs Hc) as (Hb1 & _ & Hi1 & Hq1 & _); [lia|].
    rewrite Hlen in Hb1, Hi1. change (0 + Z.min QUESTIONS_PER_BATCH (25 - 0)) with 10 in *.
    destruct (Hone _ qs 10 Hq1 Hi1) as (Hb2 & _ & Hi2 & Hq2 & _); [lia|].
    rewrite Hlen in Hb2, Hi2. change (10 + Z.min QUESTIONS_PER_BATCH (25 - 10)) with 20 in *.
    destruct (Hone _ qs 20 Hq2 Hi2) as (Hb3 & _ & Hi3 & Hq3 & _); [lia|].
    rewrite Hlen in Hb3, Hi3. change (20 + Z.min QUESTIONS_PER_BATCH (25 - 20)) with 25 in *.
    repeat split; try done.
    + unfold send_next_question_batch at 1. rewrite Hq3, Hi3. simpl. by rewrite Hlen.
    + unfold send_next_question_batch at 1. rewrite Hq3, Hi3. simpl. by rewrite Hlen.
Qed.

End WithGen.

Lemma batches_are_contiguous_windows_witness :
  let loaded := bank_ot 25 in
  let c := conv_run loaded idle three_answers in
  let r1 := send_next_question_batch loaded fresh_25 in
  c_state c = QUIZ_IN_PROGRESS
  ∧ ud_current_batch_indices (c_ud c) = Some [0; 1; 2; 3; 4; 5; 6; 7; 8; 9]
  ∧ ud_index (c_ud c) = Some 10
  ∧ ud_current_batch_indices (r_ud r1) = Some (range 0 (0 + 10))
  ∧ ud_current_batch_indices
      (r_ud (send_next_question_batch loaded
         (r_ud (send_next_question_batch loaded (r_ud r1)))))
    = Some (range 20 25).
Proof.
  cbv zeta.
  split; [reflexivity|]. split; [reflexivity|]. split; [reflexivity|].
  destruct (batches_are_contiguous_windows (G := nat) (bank_ot 25)) as (Hone & _ & H25).
  split.
  - refine (proj1 (Hone fresh_25 (replicate 25 question_sum) 0 eq_refl eq_refl _)).
    vm_compute. split; [discriminate | reflexivity].
  - refine (proj1 (proj2 (proj2 (H25 fresh_25 (replicate 25 question_sum) eq_refl eq_refl eq_refl)))).
Defined.

End BatchSpec.

(** ** Next-requests *)
Module NextSpec.
Import PyStr PyNum Loader Quiz Fixtures QuizFacts.

Lemma size_batch (b : list Z) : NoDup b → size (list_to_set b : gset Z) = length b.
Proof. apply size_list_to_set. Qed.

(** [len(answered_in_batch) >= len(current_batch_indices)] says that
    every question of the batch is answered, when the answered ones are
    among those of the batch. *)
Lemma batch_covered (b : list Z) (a : gset Z) :
  NoDup b → a ⊆ list_to_set b →
  (list_len b <=? Z.of_nat (size a)) = true ↔ (∀ i, i ∈ b → i ∈ a).
Proof.
  intros Hnd Hsub. rewrite Z.leb_le. unfold list_len. split.
  - intros Hle i Hi.
    assert (a = list_to_set b) as ->; [|set_solver].
    apply set_subseteq_size_eq; [done|]. rewrite size_batch by done. lia.
  - intros Hall. rewrite <- size_batch by done.
    apply Nat2Z.inj_le, subseteq_size. set_solver.
Qed.

Lemma batch_remaining (b : list Z) (a : gset Z) :
  NoDup b → a ⊆ list_to_set b →
  list_len b - Z.of_nat (size a) = Z.of_nat (size (list_to_set b ∖ a : gset Z)).
Proof.
  intros Hnd Hsub. rewrite size_difference by done. rewrite size_batch by done.
  pose proof (subseteq_size _ _ Hsub) as Hle. rewrite size_batch in Hle by done.
  unfold list_len. lia.
Qed.

Lemma handle_next_refuses (loaded : bank) (ud : user_data) (b : list Z) (a : gset Z) :
  ud_current_batch_indices ud = Some b → ud_answered_in_batch ud = Some a →
  NoDup b → a ⊆ list_to_set b →
  (∃ i, i ∈ b ∧ i ∉ a) →
  handle_next loaded ud
  = mkResult ud (Some QUIZ_IN_PROGRESS)
      [answer_query;
       send_message
         (Str (remaining_text (Z.of_nat (size (list_to_set b ∖ a : gset Z))))) None].
Proof.
  intros Hb Ha Hnd Hsub (i & Hi & Hna).
  unfold handle_next. rewrite Hb, Ha. simpl.
  destruct (list_len b <=? Z.of_nat (size a)) eqn:Hle.
  - pose proof (proj1 (batch_covered b a Hnd Hsub) Hle i Hi). done.
  - by rewrite batch_remaining.
Qed.

Section WithGen.
Context {G : Type} `{RandomGen G}.

(** C5: in a state a conversation reaches while the quiz is in
    progress, if some question of the current batch is not answered then
    [handle_next] returns the user data as it got it (cursor, questions,
    batch, answered set and score included), stays in the quiz, and its
    message names the number of questions of the batch that are not yet
    answered: 7 for a batch of ten with three answered. *)
Theorem premature_next_is_refused (loaded : bank) (g0 : G) (us : list update) :
  let c := conv_run loaded (mkConv END ud_clear g0) us in
  let batch := default [] (ud_current_batch_indices (c_ud c)) in
  let answered := default ∅ (ud_answered_in_batch (c_ud c)) in
  let unanswered : gset Z := list_to_set batch ∖ answered in
  c_state c = QUIZ_IN_PROGRESS →
  (∃ i, i ∈ batch ∧ i ∉ answered) →
  handle_next loaded (c_ud c)
  = mkResult (c_ud c) (Some QUIZ_IN_PROGRESS)
      [answer_query;
       send_message (Str (remaining_text (Z.of_nat (size unanswered)))) None]
  ∧ (conv_step loaded c (Callback "next")).1 = c
  ∧ (length batch = 10%nat → size answered = 3%nat →
     remaining_text (Z.of_nat (size unanswered))
     = "Iltimos, qolgan 7 ta savolga javob bering!").
Proof.
  intros c batch answered unanswered Hst Hex.
  destruct (conv_run_inv loaded us (mkConv END ud_clear g0)) as
    (qs & start & a & Hqs & Hr & Hb & Hi & Ha & Hsub & _); [done | done |].
  fold c in Hqs, Hb, Hi, Ha.
  subst unanswered answered batch. rewrite Hb, Ha in *. simpl in *.
  pose proof (NoDup_range start (Z.min (start + QUESTIONS_PER_BATCH) (list_len qs))) as Hnd.
  assert (handle_next loaded (c_ud c)
          = mkResult (c_ud c) (Some QUIZ_IN_PROGRESS)
              [answer_query;
               send_message (Str (remaining_text (Z.of_nat (size
                 (list_to_set (range start (Z.min (start + QUESTIONS_PER_BATCH) (list_len qs))) ∖ a
                  : gset Z))))) None]) as Hnext
    by (by apply handle_next_refuses).
  split; [exact Hnext|]. split.
  - destruct c as [st ud g]. simpl in *. subst st. simpl.
    unfold settle. rewrite Hnext. done.
  - intros Hlen Hsize.
    rewrite <- batch_remaining by done.
    set (b := range start _) in *. clearbody b.
    unfold list_len. rewrite Hlen, Hsize. reflexivity.
Qed.

End WithGen.

Lemma premature_next_is_refused_witness :
  let c := conv_run (bank_ot 25) idle three_answers in
  c_state c = QUIZ_IN_PROGRESS
  ∧ ud_current_batch_indices (c_ud c) = Some [0; 1; 2; 3; 4; 5; 6; 7; 8; 9]
  ∧ ud_answered_in_batch (c_ud c) = Some {[0; 1; 2]}
  ∧ handle_next (bank_ot 25) (c_ud c)
    = mkResult (c_ud c) (Some QUIZ_IN_PROGRESS)
        [answer_query;
         send_message (Str "Iltimos, qolgan 7 ta savolga javob bering!") None]
  ∧ (conv_step (bank_ot 25) c (Callback "next")).1 = c.
Proof.
  cbv zeta.
  split; [reflexivity|]. split; [reflexivity|]. split; [vm_compute; reflexivity|].
  assert (c_state (conv_run (bank_ot 25) idle three_answers) = QUIZ_IN_PROGRESS) as Hst
    by reflexivity.
  destruct (premature_next_is_refused (bank_ot 25) 0%nat three_answers Hst)
    as (Hnext & Hstep & Htext).
  { exists 3. split; compute_done. }
  split; [|exact Hstep].
  etrans; [exact Hnext|].
  rewrite Htext by compute_done. reflexivity.
Defined.

End NextSpec.

(** ** Scoring *)
Module ScoreSpec.
Import PyStr PyNum Loader Quiz Fixtures QuizFacts.

(** [user_data.get('score', 0)] *)
Definition score_of (ud : user_data) : Z := default 0 (ud_score ud).

(** The callback data the handlers of a running quiz take. *)
Definition session_callback (data : string) : bool :=
  startswith data "ans|" || matches_word "next" data.

Lemma prefix_head (a b : ascii) (s1 s2 : string) :
  String.prefix (String a s1) (String b s2) = true → a = b.
Proof.
  change (String.prefix (String a s1) (String b s2))
    with (if ascii_dec a b then String.prefix s1 s2 else false).
  by destruct (ascii_dec a b).
Qed.

Lemma session_callback_no_choice (data : string) :
  session_callback data = true →
  startswith data "subj|" || matches_word "random" data = false.
Proof.
  unfold session_callback, startswith, matches_word.
  intros Hs. apply orb_true_iff in Hs as [Hs|Hs].
  - destruct data as [|c data]; [done|].
    apply prefix_head in Hs as <-. reflexivity.
  - apply orb_true_iff in Hs as [Hs|Hs]; apply String.eqb_eq in Hs; subst; reflexivity.
Qed.

Lemma answer_question_keeps (loaded : bank) (ud : user_data) (qid : Z) (letter : string) :
  r_state (answer_question loaded ud qid letter) ≠ Some END →
  ud_questions (r_ud (answer_question loaded ud qid letter)) = ud_questions ud
  ∧ ud_correct ud ⊆ ud_correct (r_ud (answer_question loaded ud qid letter)).
Proof.
  unfold answer_question.
  destruct (negb _ || _); [done|].
  destruct (is_in qid _ && negb _); simpl;
    (destruct (index _ qid) as [q|]; simpl; [|done]);
    destruct (scan_options _ _ _ _ _ _) as [[parts sel] cor];
    destruct (String.eqb _ _ && negb _); simpl;
    destruct (is_in _ _ && (_ <=? _)); simpl; intros _; split; set_solver.
Qed.

Lemma handle_next_keeps (loaded : bank) (ud : user_data) :
  r_state (handle_next loaded ud) = Some QUIZ_IN_PROGRESS →
  ud_questions (r_ud (handle_next loaded ud)) = ud_questions ud
  ∧ ud_correct (r_ud (handle_next loaded ud)) = ud_correct ud.
Proof.
  unfold handle_next. destruct (_ <=? _); [|done]. simpl.
  unfold send_next_question_batch.
  destruct (_ <=? _); [done|]. destruct (negb _); [done|].
  destruct (present_batch _ _ _) as [a sent]. done.
Qed.

Section WithGen.
Context {G : Type} `{RandomGen G}.

Lemma conv_step_session (loaded : bank) (c : conversation) (data : string) :
  session_callback data = true →
  let c' := (conv_step loaded c (Callback data)).1 in
  (c_state c ≠ QUIZ_IN_PROGRESS → c' = c)
  ∧ (c_state c' = QUIZ_IN_PROGRESS →
     c_state c = QUIZ_IN_PROGRESS
     ∧ ud_questions (c_ud c') = ud_questions (c_ud c)
     ∧ ud_correct (c_ud c) ⊆ ud_correct (c_ud c')).
Proof.
  intros Hs. pose proof (session_callback_no_choice data Hs) as Hno.
  destruct c as [st ud g]. simpl. destruct st; simpl.
  - split; [done|done].
  - rewrite Hno. simpl. split; [done|done].
  - split; [done|].
    destruct (startswith data "ans|").
    + simpl. unfold handle_answer. destruct (parse_answer data) as [[qid letter]|]; simpl.
      * pose proof (answer_question_keeps loaded ud qid letter) as Hk.
        destruct (r_state (answer_question loaded ud qid letter)) as [[]|]; simpl; try done;
          intros _; (split; [done|]); apply Hk; done.
      * done.
    + destruct (matches_word "next" data); simpl; [|done].
      pose proof (handle_next_keeps loaded ud) as Hk.
      destruct (r_state (handle_next loaded ud)) as [[]|] eqn:Hr; simpl; try done.
      * intros _. destruct (Hk eq_refl) as [-> ->]. done.
      * unfold handle_next in Hr. destruct (_ <=? _); [|done]. simpl in Hr.
        unfold send_next_question_batch in Hr.
        repeat (case_match; simpl in Hr; try done).
Qed.

(** While only answers and next-requests come in and the quiz is still
    in progress at the end, it was in progress all along, on the same
    questions, and no credit was taken back. *)
Lemma session_run_keeps (loaded : bank) (datas : list string) (c : conversation) :
  Forall (λ data, session_callback data = true) datas →
  let c' := conv_run loaded c (Callback <$> datas) in
  c_state c' = QUIZ_IN_PROGRESS →
  c_state c = QUIZ_IN_PROGRESS
  ∧ ud_questions (c_ud c') = ud_questions (c_ud c)
  ∧ ud_correct (c_ud c) ⊆ ud_correct (c_ud c').
Proof.
  intros Hall. revert c. induction Hall as [|data datas Hd _ IH]; intros c; simpl.
  - done.
  - intros Hst. destruct (IH _ Hst) as (Hst1 & Hq & Hc).
    destruct (conv_step_session loaded c data Hd) as [_ Hstep].
    destruct (Hstep Hst1) as (Hst0 & Hq0 & Hc0).
    split; [done|]. split; [exact (eq_trans Hq Hq0) | by etrans].
Qed.

(** C2: for a [qid] the handler finds a question for, an answer with
    the question's correct letter adds exactly one to the score when the
    question has no credit yet and leaves the score as it is when it has;
    after it the question has credit, and keeps it through every later
    run of answers and next-requests of the quiz, so that a later correct
    answer to it changes no score; a wrong answer changes neither score
    nor credit, and a correct answer after it still adds exactly one. *)
Theorem score_counts_each_question_once (loaded : bank) (ud : user_data)
    (qs : list Question) (qid : Z) (q : Question) (wrong : string) :
  ud_questions ud = Some qs → index qs qid = Some q → wrong ≠ correct q →
  let right := answer_question loaded ud qid (correct q) in
  let miss := answer_question loaded ud qid wrong in
  (qid ∉ ud_correct ud → score_of (r_ud right) = score_of ud + 1)
  ∧ (qid ∈ ud_correct ud → score_of (r_ud right) = score_of ud)
  ∧ qid ∈ ud_correct (r_ud right)
  ∧ (∀ (g : G) datas,
       Forall (λ data, session_callback data = true) datas →
       let later := conv_run loaded (mkConv QUIZ_IN_PROGRESS (r_ud right) g) (Callback <$> datas) in
       c_state later = QUIZ_IN_PROGRESS →
       score_of (r_ud (answer_question loaded (c_ud later) qid (correct q)))
       = score_of (c_ud later))
  ∧ score_of (r_ud miss) = score_of ud
  ∧ ud_correct (r_ud miss) = ud_correct ud
  ∧ (qid ∉ ud_correct ud →
     score_of (r_ud (answer_question loaded (r_ud miss) qid (correct q)))
     = score_of ud + 1).
Proof.
  intros Hqs Hidx Hwrong right miss.
  assert (∀ u letter, ud_questions u = Some qs →
            ud_questions (r_ud (answer_question loaded u qid letter)) = Some qs
            ∧ score_of (r_ud (answer_question loaded u qid letter))
              = (if String.eqb letter (correct q) && negb (bool_decide (qid ∈ ud_correct u))
                 then score_of u + 1 else score_of u)
            ∧ ud_correct (r_ud (answer_question loaded u qid letter))
              = (if String.eqb letter (correct q) && negb (bool_decide (qid ∈ ud_correct u))
                 then {[qid]} ∪ ud_correct u else ud_correct u)) as Hstep.
  { intros u letter Hu.
    destruct (answer_question_proceeds loaded u qid letter qs q Hu Hidx) as (-> & _ & _).
    unfold score_of.
    destruct (is_in qid _ && negb _); destruct (String.eqb _ _ && negb _); simpl; done. }
  assert (String.eqb wrong (correct q) = false) as Hw by (by apply String.eqb_neq).
  destruct (Hstep ud (correct q) Hqs) as (Hq1 & Hs1 & Hc1).
  destruct (Hstep ud wrong Hqs) as (Hq2 & Hs2 & Hc2).
  fold right in Hq1, Hs1, Hc1. fold miss in Hq2, Hs2, Hc2.
  rewrite String.eqb_refl in Hs1, Hc1. rewrite Hw in Hs2, Hc2. simpl in *.
  split_and!.
  - intros Hn. rewrite Hs1. by rewrite bool_decide_eq_false_2.
  - intros Hy. rewrite Hs1. by rewrite bool_decide_eq_true_2.
  - rewrite Hc1. destruct (bool_decide (qid ∈ ud_correct ud)) eqn:Hd; simpl; [|set_solver].
    by apply bool_decide_eq_true in Hd.
  - intros g datas Hall Hst.
    destruct (session_run_keeps loaded datas _ Hall Hst) as (_ & Hq & Hc). simpl in Hq, Hc.
    set (later := conv_run loaded _ _) in *.
    destruct (Hstep (c_ud later) (correct q)) as (_ & -> & _); [congruence|].
    rewrite bool_decide_eq_true_2; [by rewrite andb_false_r|].
    apply Hc. rewrite Hc1.
    destruct (bool_decide (qid ∈ ud_correct ud)) eqn:Hd; simpl; [|set_solver].
    by apply bool_decide_eq_true in Hd.
  - done.
  - done.
  - intros Hn. destruct (Hstep (r_ud miss) (correct q) Hq2) as (_ & -> & _).
    rewrite String.eqb_refl, Hc2, Hs2. by rewrite bool_decide_eq_false_2.
Qed.

End WithGen.
End ScoreSpec.

(** ** Completion *)
Module AnswerSpec.
Import PyStr PyNum Loader Quiz Fixtures QuizFacts NextSpec ScoreSpec.

Section WithGen.
Context {G : Type} `{RandomGen G}.

(** C1: in a state a conversation reaches while the quiz is in
    progress, an answer the handler finds a question for leaves batch and
    cursor as they are, and then: if every question of the batch is
    answered and the last question of the quiz is in the batch, the
    handler returns to the subject selection and its last message is the
    final text with score/total; if every question of the batch is
    answered and the last question is not in it, the quiz stays in
    progress and a next-request sends the batch that starts at the cursor;
    if some question of the batch is unanswered, the quiz stays in
    progress and a next-request changes nothing. *)
Theorem answer_completes_final_batch (loaded : bank) (g0 : G) (us : list update)
    (data : string) (qid : Z) (letter : string) (q : Question) :
  let c := conv_run loaded (mkConv END ud_clear g0) us in
  let total := list_len (default [] (ud_questions (c_ud c))) in
  let r := handle_answer loaded (c_ud c) data in
  let batch := default [] (ud_current_batch_indices (r_ud r)) in
  let answered := default ∅ (ud_answered_in_batch (r_ud r)) in
  let covered := ∀ i, i ∈ batch → i ∈ answered in
  let final := (total - 1) ∈ batch in
  let next := handle_next loaded (r_ud r) in
  c_state c = QUIZ_IN_PROGRESS →
  parse_answer data = Some (qid, letter) →
  index (default [] (ud_questions (c_ud c))) qid = Some q →
  ud_current_batch_indices (r_ud r) = ud_current_batch_indices (c_ud c)
  ∧ ud_index (r_ud r) = ud_index (c_ud c)
  ∧ (covered → final →
     r_state r = Some SELECTING_SUBJECT
     ∧ last (r_actions r)
       = Some (send_message
                 (Str (finish_text (score_of (r_ud r)) total
                         (bool_decide (is_Some (get_start_keyboard loaded)))))
                 (get_start_keyboard loaded)))
  ∧ (covered → ¬ final →
     r_state r = Some QUIZ_IN_PROGRESS
     ∧ r_state next = Some QUIZ_IN_PROGRESS
     ∧ ∃ cursor, ud_index (r_ud r) = Some cursor
         ∧ ud_current_batch_indices (r_ud next)
           = Some (range cursor (Z.min (cursor + QUESTIONS_PER_BATCH) total)))
  ∧ (¬ covered →
     r_state r = Some QUIZ_IN_PROGRESS
     ∧ r_state next = Some QUIZ_IN_PROGRESS
     ∧ r_ud next = r_ud r).
Proof.
  intros c total r batch answered covered final next Hst Hparse Hidx.
  destruct (conv_run_inv loaded us (mkConv END ud_clear g0)) as
    (qs & start & a & Hqs & Hr & Hb & Hi & Ha & Hsub & Hsc); [done | done |].
  fold c in Hqs, Hb, Hi, Ha, Hsc.
  assert (session_inv (c_ud c)) as Hinv by (exists qs, start, a; done).
  subst total. rewrite Hqs in *. simpl in Hidx.
  set (e := Z.min (start + QUESTIONS_PER_BATCH) (list_len qs)) in *.
  assert (r = answer_question loaded (c_ud c) qid letter) as Hrdef
    by (subst r; unfold handle_answer; by rewrite Hparse).
  destruct (answer_question_proceeds loaded (c_ud c) qid letter qs q Hqs Hidx)
    as (Hud & Hstate & Hlast).
  rewrite <- Hrdef in Hud, Hstate, Hlast. fold r in Hud, Hstate, Hlast.
  rewrite Hb, Ha in Hud, Hstate, Hlast. simpl in Hud, Hstate, Hlast.
  set (first := is_in qid (range start e) && negb (bool_decide (qid ∈ a))) in *.
  set (a' := if first then {[qid]} ∪ a else a) in *.
  assert (ud_current_batch_indices (r_ud r) = Some (range start e)) as Hb'.
  { rewrite Hud. destruct (String.eqb _ _ && negb _), first; simpl; done. }
  assert (ud_index (r_ud r) = Some e) as Hi'.
  { rewrite Hud. destruct (String.eqb _ _ && negb _), first; simpl; done. }
  assert (ud_questions (r_ud r) = Some qs) as Hq'.
  { rewrite Hud. destruct (String.eqb _ _ && negb _), first; simpl; done. }
  assert (ud_answered_in_batch (r_ud r) = Some a') as Ha'.
  { rewrite Hud. subst a'. destruct (String.eqb _ _ && negb _), first; simpl; done. }
  assert (a' ⊆ list_to_set (range start e)) as Hsub'.
  { subst a'. destruct first eqn:Hf; [|done].
    apply andb_true_iff in Hf as [Hf _]. apply is_in_true in Hf. set_solver. }
  pose proof (NoDup_range start e) as Hnd.
  pose proof (batch_covered (range start e) a' Hnd Hsub') as Hcov.
  subst covered final batch answered. rewrite Hb', Ha', ?Hqs. simpl.
  split; [by rewrite Hb|]. split; [by rewrite Hi|].
  split_and!.
  - intros Hall Hfin. apply Hcov in Hall. apply is_in_true in Hfin.
    rewrite Hall, Hfin in Hstate, Hlast. simpl in *.
    split; [done|]. rewrite Hlast by done. unfold score_of. by rewrite Hud.
  - intros Hall Hnfin. apply Hcov in Hall.
    assert (is_in (list_len qs - 1) (range start e) = false) as Hf.
    { apply not_true_is_false. by rewrite is_in_true. }
    rewrite Hf in Hstate. simpl in Hstate. split; [done|].
    assert (e < list_len qs) as He.
    { destruct (Z.lt_ge_cases e (list_len qs)); [done|]. exfalso. apply Hnfin.
      apply elem_of_range. lia. }
    subst next. unfold handle_next. rewrite Hb', Ha'. simpl. rewrite Hall. simpl.
    destruct (send_next_sends loaded (r_ud r) qs e Hq' Hi') as (a2 & sent & -> & _);
      [unfold QUESTIONS_PER_BATCH in *; lia|].
    simpl. split; [done|]. by exists e.
  - intros Hncov.
    assert ((list_len (range start e) <=? Z.of_nat (size a')) = false) as Hf.
    { apply not_true_is_false. by rewrite Hcov. }
    rewrite Hf, andb_false_r in Hstate. split; [done|].
    subst next. unfold handle_next. rewrite Hb', Ha'. simpl. by rewrite Hf.
Qed.

End WithGen.

Lemma answer_completes_final_batch_witness :
  let c := conv_run math_bank idle
             [CmdStart "Ali" true; Callback "subj|Math"; Callback "ans|0|B"] in
  let r := handle_answer math_bank (c_ud c) "ans|1|D" in
  c_state c = QUIZ_IN_PROGRESS
  ∧ parse_answer "ans|1|D" = Some (1, "D")
  ∧ ud_questions (c_ud c) = Some [question_sum; question_double]
  ∧ r_state r = Some SELECTING_SUBJECT
  ∧ last (r_actions r)
    = Some (send_message
              (Str ("Test tugadi!" +:+ nl +:+ "Sizning natijangiz: 2/2" +:+ nl +:+ nl
                    +:+ "Yangi fan tanlash?"))
              (Some [[("Random 50 savol", "random")]])).
Proof.
  cbv zeta.
  split; [reflexivity|]. split; [reflexivity|]. split; [reflexivity|].
  assert (c_state (conv_run math_bank idle
            [CmdStart "Ali" true; Callback "subj|Math"; Callback "ans|0|B"])
          = QUIZ_IN_PROGRESS) as Hst by reflexivity.
  destruct (answer_completes_final_batch math_bank 0%nat
              [CmdStart "Ali" true; Callback "subj|Math"; Callback "ans|0|B"]
              "ans|1|D" 1 "D" question_double Hst eq_refl eq_refl)
    as (_ & _ & Hfin & _).
  destruct Hfin as [Hs Hl].
  - intros i Hi. assert (i ∈ [0; 1]) as Hi' by exact Hi. clear Hi.
    repeat (apply elem_of_cons in Hi' as [->|Hi']; [compute_done|]).
    apply elem_of_nil in Hi'. destruct Hi'.
  - compute_done.
  - split; [exact Hs|]. etrans; [exact Hl|]. by vm_compute.
Defined.

End AnswerSpec.

(** ** The range of a question index *)
Module RangeSpec.
Import PyStr PyNum Loader Quiz Fixtures QuizFacts NextSpec ScoreSpec.

Lemma score_counts_each_question_once_witness :
  let ud := c_ud math_session in
  let right := answer_question math_bank ud 0 "B" in
  let miss := answer_question math_bank ud 0 "A" in
  let later := conv_run math_bank (mkConv QUIZ_IN_PROGRESS (r_ud right) 0%nat)
                 (Callback <$> ["ans|0|B"; "next"]) in
  ud_questions ud = Some [question_sum; question_double]
  ∧ index [question_sum; question_double] 0 = Some question_sum
  ∧ score_of ud = 0
  ∧ score_of (r_ud right) = 1
  ∧ c_state later = QUIZ_IN_PROGRESS
  ∧ score_of (r_ud (answer_question math_bank (c_ud later) 0 "B")) = score_of (c_ud later)
  ∧ score_of (r_ud miss) = 0
  ∧ score_of (r_ud (answer_question math_bank (r_ud miss) 0 "B")) = 1.
Proof.
  cbv zeta.
  destruct (score_counts_each_question_once (G := nat) math_bank (c_ud math_session)
              [question_sum; question_double] 0 question_sum "A"
              eq_refl eq_refl ltac:(discriminate))
    as (Hnew & _ & _ & Hlater & Hmiss & _ & Hthen).
  assert (0 ∉ ud_correct (c_ud math_session)) as Hfresh by compute_done.
  split; [reflexivity|]. split; [reflexivity|]. split; [reflexivity|].
  split; [exact (Hnew Hfresh)|]. split; [reflexivity|].
  split; [apply (Hlater 0%nat ["ans|0|B"; "next"]); [repeat constructor | reflexivity]|].
  split; [exact Hmiss | exact (Hthen Hfresh)].
Defined.

(** Line 482 turns away a [qid] at or past the end of the questions:
    the user data is cleared, the conversation ends and the message is the
    general one. *)
Lemma answer_beyond_the_end_aborts (loaded : bank) (ud : user_data)
    (data : string) (qid : Z) (letter : string) :
  parse_answer data = Some (qid, letter) →
  list_len (default [] (ud_questions ud)) ≤ qid →
  handle_answer loaded ud data
  = mkResult ud_clear (Some END)
      [answer_query; edit_message_text (Str "Uzr, savollarni yuklashda xatolik.")].
Proof.
  intros Hp Hq. unfold handle_answer. rewrite Hp. by apply answer_question_aborts.
Qed.

(** C8, where the code departs from it: in the quiz on the two
    questions of [Math], the callback data [ans|-1|D] is not turned away.
    The handler reads [questions[-1]], the last question, gives credit
    under the key of -1 and stays in the quiz with the user data kept; a
    correct answer to question 1, the same question, then brings the score
    to 2.  The data [ans|-3|A] makes [questions[-3]] raise. *)
Theorem negative_qid_is_scored :
  let ud := c_ud math_session in
  let r := handle_answer math_bank ud "ans|-1|D" in
  let r2 := handle_answer math_bank (r_ud r) "ans|1|D" in
  c_state math_session = QUIZ_IN_PROGRESS
  ∧ ud_questions ud = Some [question_sum; question_double]
  ∧ parse_answer "ans|-1|D" = Some (-1, "D")
  ∧ r_state r = Some QUIZ_IN_PROGRESS
  ∧ ud_questions (r_ud r) = ud_questions ud
  ∧ ud_score ud = Some 0
  ∧ ud_score (r_ud r) = Some 1
  ∧ ud_correct (r_ud r) = {[ -1 ]}
  ∧ ud_score (r_ud r2) = Some 2
  ∧ r_state (handle_answer math_bank ud "ans|-3|A") = None.
Proof. cbv zeta. split_and!; reflexivity. Qed.

End RangeSpec.

(** ** The random mix *)
Module MixSpec.
Import PyStr PyNum Loader Quiz Fixtures QuizFacts.

Lemma sum_Z_bound (l : list Z) (x : Z) :
  Forall (λ y, 0 ≤ y) l → x ∈ l → x ≤ sum_Z l.
Proof.
  induction 1 as [|y l Hy Hl IH]; intros Hx; [by apply elem_of_nil in Hx|].
  assert (0 ≤ sum_Z l) as Hs.
  { clear -Hl. induction Hl; simpl; [done | lia]. }
  apply elem_of_cons in Hx as [->|Hx]; simpl; [lia|]. specialize (IH Hx). lia.
Qed.

Lemma list_len_nonneg {A} (ls : list (list A)) : Forall (λ y, 0 ≤ y) (list_len <$> ls).
Proof. apply Forall_fmap, Forall_forall. intros l _. unfold list_len. simpl. lia. Qed.

Lemma actual_count_share (total target n : Z) :
  0 < total →
  actual_count total target n
  = Z.min n (Z.max 1 (round (mul_int_float target (truediv n total)))).
Proof.
  intros Ht. unfold actual_count, mix_count.
  rewrite (proj2 (Z.ltb_lt 0 total)) by done. lia.
Qed.

Section WithGen.
Context {G : Type} `{RandomGen G}.

(** What one subject hands to the mix. *)
Definition share_of (total target : Z) (qs part : list Question) : Prop :=
  part ⊆+ qs
  ∧ list_len part = Z.min (list_len qs)
      (Z.max 1 (round (mul_int_float target (truediv (list_len qs) total))))
  ∧ 1 ≤ list_len part ≤ list_len qs.

Lemma random_mix_loop_parts (g : G) (total target : Z) (items : bank)
    (temp_list : list Question) :
  (∀ qs, qs ∈ dict_values items → nonempty qs = true → 0 < total) →
  ∃ parts,
    (random_mix_loop g total target items temp_list).1 = temp_list ++ concat parts
    ∧ Forall2 (share_of total target)
        (filter (λ qs, nonempty qs = true) (dict_values items)) parts.
Proof.
  revert g temp_list. induction items as [|[subj qs] items IH]; intros g temp Htot; simpl.
  - exists []. simpl. split; [by rewrite app_nil_r | constructor].
  - assert (∀ qs0, qs0 ∈ dict_values items → nonempty qs0 = true → 0 < total) as Htot'.
    { intros qs0 Hin. apply Htot. unfold dict_values. simpl. by right. }
    unfold dict_values. cbn [map snd]. fold (dict_values items).
    rewrite filter_cons. destruct (decide (nonempty qs = true)) as [Hne|Hne].
    + rewrite Hne. cbn [negb].
      assert (0 < total) as Ht by (apply (Htot qs); [left | done]).
      assert (0 < list_len qs) as Hlen by (by apply nonempty_len).
      rewrite actual_count_share by done.
      set (n := Z.min (list_len qs) _).
      assert (1 ≤ n ≤ list_len qs) as Hn by (subst n; lia).
      rewrite (proj2 (Z.ltb_lt 0 n)) by lia.
      assert (Z.to_nat n ≤ length qs)%nat as Hk by (unfold list_len in Hn; lia).
      pose proof (sample_length _ g qs _ Hk) as Hsl.
      pose proof (sample_submseteq _ g qs _ Hk) as Hss.
      destruct (sample g qs (Z.to_nat n)) as [picked g']. simpl in Hsl, Hss.
      destruct (IH g' (temp ++ picked) Htot') as (parts & Heq & Hparts).
      exists (picked :: parts). simpl. split; [by rewrite Heq, <- app_assoc|].
      constructor; [|done].
      assert (list_len picked = n) as Hpl by (unfold list_len; rewrite Hsl; lia).
      unfold share_of. rewrite Hpl. split; [done|]. split; [done | lia].
    + apply not_true_is_false in Hne. rewrite Hne. cbn [negb]. apply IH, Htot'.
Qed.

(** C7: the questions of a random mix are, in some order, one part per
    non-empty subject, in the order of the bank; the part of a subject of
    [s] questions is drawn from that subject's questions without
    replacement and has exactly [min(s, max(1, round(target_total *
    (s / total_available))))] questions, [round] and the arithmetic being
    Python's on floats, so it has at least one question and at most [s];
    [start_quiz] stores these questions; and for subjects of 5, 100 and 5
    questions the parts have 2, 45 and 2. *)
Theorem random_mix_takes_its_share (g : G) (loaded : bank) :
  let subjects := filter (λ qs, nonempty qs = true) (dict_values loaded) in
  let total_available := sum_Z (map list_len (dict_values loaded)) in
  let target_total := Z.min 50 total_available in
  ∃ parts,
    (random_mix g loaded).1 ≡ₚ concat parts
    ∧ Forall2 (share_of total_available target_total) subjects parts
    ∧ (subjects ≠ [] →
       ud_questions (r_ud (start_quiz g loaded "random").1) = Some (random_mix g loaded).1)
    ∧ (map list_len (dict_values loaded) = [5; 100; 5] →
       map list_len parts = [2; 45; 2]).
Proof.
  intros subjects total target.
  destruct (random_mix_loop_parts g total target loaded []) as (parts & Heq & Hparts).
  { intros qs Hin Hne. apply nonempty_len in Hne.
    pose proof (sum_Z_bound (list_len <$> dict_values loaded) (list_len qs)
                  (list_len_nonneg _)) as Hb.
    subst total. change (map list_len (dict_values loaded)) with (list_len <$> dict_values loaded).
    specialize (Hb (list_elem_of_fmap_2 list_len _ _ Hin)). lia. }
  fold subjects in Hparts. simpl in Heq.
  assert ((random_mix g loaded).1 ≡ₚ concat parts) as Hperm.
  { unfold random_mix. fold total target.
    destruct (random_mix_loop g total target loaded []) as [temp g1]. simpl in Heq. subst temp.
    apply shuffle_perm. }
  exists parts. split_and!; [done | done | |].
  - intros Hsub.
    assert (existsb nonempty (dict_values loaded) = true) as Hex.
    { destruct subjects as [|qs rest] eqn:Hs; [done|].
      assert (qs ∈ filter (λ qs, nonempty qs = true) (dict_values loaded)) as Hin
        by (fold subjects; rewrite Hs; left).
      apply list_elem_of_filter in Hin as [Hne Hin].
      apply existsb_exists. exists qs. split; [by apply list_elem_of_In | done]. }
    assert (nonempty (random_mix g loaded).1 = true) as Hne.
    { destruct Hparts as [|qs part subjects' parts' Hshare _]; [done|].
      destruct Hshare as (_ & _ & Hlen).
      apply nonempty_len. apply Permutation_length in Hperm.
      unfold list_len in *. rewrite Hperm. simpl. rewrite length_app. lia. }
    unfold start_quiz. simpl. rewrite Hex. simpl.
    destruct (random_mix g loaded) as [qs g'] eqn:Hmix. simpl in *. rewrite Hne. simpl.
    pose proof (nonempty_len qs) as [Hl _]. specialize (Hl Hne).
    destruct (send_next_sends loaded
                (mkUd (Some "Random Mix") (Some qs) (Some 0) (Some 0) (Some ∅) (Some []) ∅)
                qs 0 eq_refl eq_refl) as (a & sent & -> & _); [lia | done].
  - intros Hsizes.
    assert (total = 110) as Htot by (subst total; by rewrite Hsizes).
    assert (target = 50) as Htar by (subst target; by rewrite Htot).
    assert (subjects = dict_values loaded) as Hall.
    { subst subjects. destruct (dict_values loaded) as [|q1 [|q2 [|q3 [|]]]]; try done.
      injection Hsizes as H1 H2 H3.
      assert (∀ q : list Question, 0 < list_len q → nonempty q = true) as Hn
        by (intros q; apply nonempty_len).
      rewrite !filter_cons, !decide_True by (apply Hn; lia). done. }
    rewrite Hall in Hparts. rewrite Htot, Htar in Hparts.
    destruct (dict_values loaded) as [|q1 [|q2 [|q3 [|]]]]; try done.
    injection Hsizes as H1 H2 H3.
    apply Forall2_cons_inv_l in Hparts as (p1 & parts1 & (_ & Hp1 & _) & Hparts & ->).
    apply Forall2_cons_inv_l in Hparts as (p2 & parts2 & (_ & Hp2 & _) & Hparts & ->).
    apply Forall2_cons_inv_l in Hparts as (p3 & parts3 & (_ & Hp3 & _) & Hparts & ->).
    apply Forall2_nil_inv_l in Hparts as ->.
    simpl. rewrite Hp1, Hp2, Hp3, H1, H2, H3. reflexivity.
Qed.

End WithGen.
End MixSpec.

(** ** More on the loader *)
Module LoaderMore.
Import PyStr Loader Fixtures LoaderFacts.

(** [list(d.keys())] *)
Definition dict_keys {V} (d : dict V) : list string := map fst d.

Lemma dict_keys_set {V} (k : string) (v : V) (d : dict V) :
  dict_keys (dict_set k v d)
  = if bool_decide (k ∈ dict_keys d) then dict_keys d else dict_keys d ++ [k].
Proof.
  induction d as [|[k0 v0] d IH]; simpl; [done|].
  destruct (String.eqb_spec k k0) as [->|Hne]; simpl.
  - rewrite bool_decide_eq_true_2 by left. done.
  - rewrite IH. destruct (bool_decide (k ∈ dict_keys d)) eqn:Hd.
    + apply bool_decide_eq_true in Hd. rewrite bool_decide_eq_true_2 by (by right). done.
    + apply bool_decide_eq_false in Hd.
      rewrite bool_decide_eq_false_2; [done|].
      intros Hin. apply elem_of_cons in Hin as [?|?]; done.
Qed.

Lemma dict_get_keys {V} (k : string) (d : dict V) :
  is_Some (dict_get k d) ↔ k ∈ dict_keys d.
Proof.
  induction d as [|[k0 v0] d IH]; simpl.
  - split; [by intros [? ?] | by intros ?%elem_of_nil].
  - destruct (String.eqb_spec k k0) as [->|Hne].
    + split; [intros _; left | by eexists].
    + rewrite IH. split; [by right|]. intros Hin.
      apply elem_of_cons in Hin as [?|?]; done.
Qed.

Lemma dict_keys_append (k : string) (q : Question) (b : bank) :
  dict_keys (dict_append k q b) = dict_keys b.
Proof.
  unfold dict_append. destruct (dict_get k b) as [qs|] eqn:Hg; [|done].
  rewrite dict_keys_set. rewrite bool_decide_eq_true_2; [done|].
  apply dict_get_keys. by eexists.
Qed.

(** The keys after one block: the name of a header is added (once),
    any other block leaves the keys alone. *)
Lemma load_block_keys (st : loader_state) (block : string) :
  dict_keys (load_block st block).2
  = match subject_header block with
    | Some name =>
        if bool_decide (name ∈ dict_keys st.2) then dict_keys st.2
        else dict_keys st.2 ++ [name]
    | None => dict_keys st.2
    end.
Proof.
  destruct st as [cs b]. unfold load_block, subject_header. simpl.
  destruct (split nl (strip block) !! 0%nat) as [line0|]; [|done].
  destruct (startswith line0 "Subject:").
  { destruct (split1 ":" line0 !! 1%nat) as [rest|]; [|done].
    destruct (is_empty (strip rest)); simpl; [done|]. apply dict_keys_set. }
  repeat (case_match; simpl; try done). apply dict_keys_append.
Qed.

Definition header_names (blocks : list string) : list string :=
  omap subject_header blocks.

Lemma subject_header_nonempty (block name : string) :
  subject_header block = Some name → name ≠ EmptyString.
Proof.
  unfold subject_header. repeat (case_match; try done).
  intros [= <-] Hn. by match goal with H : is_empty _ = false |- _ => rewrite Hn in H end.
Qed.

Lemma load_blocks_keys (blocks : list string) (st : loader_state) :
  NoDup (dict_keys st.2) →
  NoDup (dict_keys (load_blocks st blocks).2)
  ∧ ∀ k, k ∈ dict_keys (load_blocks st blocks).2
         ↔ k ∈ dict_keys st.2 ∨ k ∈ header_names blocks.
Proof.
  revert st. induction blocks as [|b blocks IH]; intros st Hnd; simpl.
  - split; [done|]. intros k. unfold header_names. simpl. set_solver.
  - pose proof (load_block_keys st b) as Hk.
    assert (NoDup (dict_keys (load_block st b).2)) as Hnd'.
    { rewrite Hk. destruct (subject_header b) as [name|]; [|done].
      destruct (bool_decide (name ∈ dict_keys st.2)) eqn:Hd; [done|].
      apply bool_decide_eq_false in Hd. apply NoDup_app. split_and!; [done | | apply NoDup_singleton].
      intros x Hx ?%list_elem_of_singleton. by subst. }
    destruct (IH _ Hnd') as [Hnd'' Hkeys]. split; [done|].
    intros k. rewrite Hkeys, Hk. unfold header_names. simpl.
    destruct (subject_header b) as [name|]; simpl; [|done].
    destruct (bool_decide (name ∈ dict_keys st.2)) eqn:Hd.
    + apply bool_decide_eq_true in Hd. set_solver.
    + set_solver.
Qed.

(** X1: the subjects of the loaded bank are exactly the names that the
    header blocks of the corpus give, each once and none empty. *)
Theorem bank_subjects_are_header_names (content : string) :
  NoDup (dict_keys (load_content content))
  ∧ (∀ k, k ∈ dict_keys (load_content content)
          ↔ ∃ block, block ∈ blocks_of content ∧ subject_header block = Some k)
  ∧ Forall (λ k, k ≠ EmptyString) (dict_keys (load_content content)).
Proof.
  destruct (load_blocks_keys (blocks_of content) (None, [])) as [Hnd Hkeys];
    [constructor|].
  assert (∀ k, k ∈ dict_keys (load_content content)
          ↔ ∃ block, block ∈ blocks_of content ∧ subject_header block = Some k) as Hiff.
  { intros k. unfold load_content. rewrite Hkeys. simpl. unfold header_names.
    rewrite list_elem_of_omap. split.
    - intros [?%elem_of_nil|Hin]; done.
    - intros Hin. by right. }
  split; [done|]. split; [done|].
  apply Forall_forall. intros k Hk. apply Hiff in Hk as (block & _ & Hh).
  by eapply subject_header_nonempty.
Qed.

(** X2: blocks that stand before any subject header, or in a corpus
    without one, are dropped: when no block of the corpus names a
    subject, the bank is empty. *)
Theorem no_header_no_bank (content : string) :
  Forall (λ block, subject_header block = None) (blocks_of content) →
  load_content content = [].
Proof.
  intros Hnone.
  destruct (bank_subjects_are_header_names content) as (_ & Hiff & _).
  destruct (load_content content) as [|[k v] rest]; [done|].
  exfalso. destruct (proj1 (Hiff k)) as (block & Hin & Hh); [left|].
  rewrite Forall_forall in Hnone. rewrite (Hnone _ Hin) in Hh. done.
Qed.

Lemma no_header_no_bank_witness :
  blocks_of block_sum = [block_sum]
  ∧ subject_header block_sum = None
  ∧ load_content block_sum = [].
Proof.
  split; [reflexivity|]. split; [reflexivity|].
  apply no_header_no_bank. repeat constructor.
Defined.

End LoaderMore.

(** ** Writing a question and loading it back *)
Module RenderFacts.
Import PyStr Loader Fixtures LoaderFacts LoaderMore Render.

Lemma prefix_nl (c : ascii) (r : string) :
  String.prefix nl (String c r) = Ascii.eqb LF c.
Proof.
  unfold nl.
  change (String.prefix (String LF "") (String c r))
    with (if ascii_dec LF c then String.prefix "" r else false).
  destruct (ascii_dec LF c) as [<-|Hne].
  - by destruct r.
  - symmetry. by apply Ascii.eqb_neq.
Qed.

Lemma app_nil_str (s : string) : EmptyString +:+ s = s.
Proof. reflexivity. Qed.

Lemma app_cons_str (c : ascii) (s t : string) : String c s +:+ t = String c (s +:+ t).
Proof. reflexivity. Qed.

Lemma split_go_cons (sep : string) (c : ascii) (r : string) :
  split_go sep 0 (String c r)
  = if String.prefix sep (String c r)
    then EmptyString :: split_go sep (String.length sep - 1) r
    else cons_head c (split_go sep 0 r).
Proof. reflexivity. Qed.

Lemma split_nl_line (s t : string) :
  one_line s = true →
  split nl (s +:+ String LF t) = s :: split nl t.
Proof.
  unfold split. induction s as [|c s IH]; intros Hs.
  - rewrite app_nil_str, split_go_cons, prefix_nl, Ascii.eqb_refl. done.
  - simpl in Hs. apply andb_true_iff in Hs as [Hc Hs].
    rewrite app_cons_str, split_go_cons, prefix_nl.
    rewrite Ascii.eqb_sym. apply negb_true_iff in Hc. rewrite Hc.
    rewrite (IH Hs). done.
Qed.

Lemma split_nl_last (s : string) :
  one_line s = true → split nl s = [s].
Proof.
  unfold split. induction s as [|c s IH]; intros Hs; [done|].
  simpl in Hs. apply andb_true_iff in Hs as [Hc Hs].
  rewrite split_go_cons, prefix_nl.
  rewrite Ascii.eqb_sym. apply negb_true_iff in Hc. rewrite Hc.
  rewrite (IH Hs). done.
Qed.

Lemma split_join_lines (ls : list string) :
  ls ≠ [] → forallb one_line ls = true → split nl (join nl ls) = ls.
Proof.
  induction ls as [|l ls IH]; [done|]. intros _ Hall.
  simpl in Hall. apply andb_true_iff in Hall as [Hl Hall].
  destruct ls as [|l' ls]; [by apply split_nl_last|].
  change (join nl (l :: l' :: ls)) with (l +:+ nl +:+ join nl (l' :: ls)).
  assert (∀ x, nl +:+ x = String LF x) as Hnl by reflexivity. rewrite Hnl.
  rewrite split_nl_line by done. f_equal. by apply IH.
Qed.

Lemma rstrip_keeps (s : string) (c : ascii) :
  isspace c = false → rstrip (s +:+ String c "") = s +:+ String c "".
Proof.
  intros Hc. induction s as [|a s IH].
  - rewrite app_nil_str. simpl. by rewrite Hc.
  - rewrite app_cons_str. cbn [rstrip]. rewrite IH.
    destruct s; rewrite ?app_nil_str, ?app_cons_str; simpl; by rewrite andb_false_r.
Qed.

Lemma lstrip_keeps (s : string) :
  from_option (λ c, negb (isspace c)) false (String.get 0 s) = true → lstrip s = s.
Proof. destruct s as [|c s]; simpl; [done|]. by intros ->%negb_true_iff. Qed.

Lemma isupper_facts (c : ascii) :
  isupper c = true →
  isspace c = false ∧ isalpha c = true ∧ upper_char c = c ∧ Ascii.eqb c LF = false.
Proof. destruct c as [[] [] [] [] [] [] [] []]; vm_compute; try done. Qed.

Lemma str_app_assoc (s t u : string) : (s +:+ t) +:+ u = s +:+ (t +:+ u).
Proof.
  induction s as [|c s IH]; [done|]. by rewrite !app_cons_str, IH.
Qed.

Lemma join_ends (ls : list string) (t : string) (c : ascii) :
  ∃ s, join nl (ls ++ [t +:+ String c ""]) = s +:+ String c "".
Proof.
  induction ls as [|l ls [s IH]].
  - by exists t.
  - destruct ls as [|l' ls].
    + exists (l +:+ nl +:+ t). simpl. by rewrite !str_app_assoc.
    + exists (l +:+ nl +:+ s).
      change (join nl ((l :: l' :: ls) ++ [t +:+ String c ""]))
        with (l +:+ nl +:+ join nl ((l' :: ls) ++ [t +:+ String c ""])).
      rewrite IH. by rewrite !str_app_assoc.
Qed.

Lemma one_line_answer (c : ascii) :
  isupper c = true → one_line ("Answer: " +:+ String c "") = true.
Proof.
  intros Hc. destruct (isupper_facts c Hc) as (_ & _ & _ & Hlf).
  change (one_line ("Answer: " +:+ String c "")) with (negb (Ascii.eqb c LF) && true).
  by rewrite Hlf.
Qed.

Lemma strip_answer_letter (c : ascii) :
  isupper c = true → strip (String " " (String c "")) = String c "".
Proof.
  intros Hc. destruct (isupper_facts c Hc) as (Hsp & _ & _ & _).
  unfold strip. cbn [lstrip]. change (isspace " ") with true. cbv iota.
  rewrite Hsp. cbn [rstrip is_empty]. by rewrite Hsp.
Qed.

(** The readable form of a renderable question. *)
Lemma renderable_inv (q : Question) :
  renderable q = true →
  ∃ c0 rest o1 o2 o3 o4 c,
    q = mkQuestion (String c0 rest) [o1; o2; o3; o4] (String c "")
    ∧ isspace c0 = false
    ∧ one_line (String c0 rest) = true
    ∧ startswith (String c0 rest) "Subject:" = false
    ∧ forallb option_ok [o1; o2; o3; o4] = true
    ∧ forallb one_line [o1; o2; o3; o4] = true
    ∧ isupper c = true.
Proof.
  destruct q as [qt opts cor]. unfold renderable. cbn [question options correct].
  intros Hr.
  apply andb_true_iff in Hr as [Hr Hcor]. apply andb_true_iff in Hr as [Hr Hopts].
  apply andb_true_iff in Hr as [Hr Hlen]. apply andb_true_iff in Hr as [Hr Hsub].
  apply andb_true_iff in Hr as [Hol Hfirst].
  apply bool_decide_eq_true in Hlen. apply negb_true_iff in Hsub.
  destruct qt as [|c0 rest]; [done|].
  destruct opts as [|o1 [|o2 [|o3 [|o4 [|]]]]]; try done.
  destruct cor as [|c [|]]; try done.
  exists c0, rest, o1, o2, o3, o4, c.
  cbn [String.get from_option] in Hfirst. apply negb_true_iff in Hfirst.
  cbn [forallb] in Hopts.
  apply andb_true_iff in Hopts as [H1 Hopts]. apply andb_true_iff in Hopts as [H2 Hopts].
  apply andb_true_iff in Hopts as [H3 Hopts]. apply andb_true_iff in Hopts as [H4 _].
  apply andb_true_iff in H1 as [Hk1 Hl1]. apply andb_true_iff in H2 as [Hk2 Hl2].
  apply andb_true_iff in H3 as [Hk3 Hl3]. apply andb_true_iff in H4 as [Hk4 Hl4].
  split_and!; try done.
  - cbn [forallb]. by rewrite Hk1, Hk2, Hk3, Hk4.
  - cbn [forallb]. by rewrite Hl1, Hl2, Hl3, Hl4.
Qed.

(** X3: a question written in the corpus format loads back as itself:
    under an open subject that is a key of the bank, the block
    [render_question q] of a renderable [q] appends exactly [q] to that
    subject and leaves the subject open. *)
Theorem rendered_question_loads (q : Question) (subj : string) (b : bank) :
  renderable q = true → is_Some (dict_get subj b) →
  load_block (Some subj, b) (render_question q) = (Some subj, dict_append subj q b).
Proof.
  intros Hr Hkey.
  destruct (renderable_inv q Hr) as
    (c0 & rest & o1 & o2 & o3 & o4 & c & -> & Hc0 & Hqt & Hsub & Hok & Hol & Hc).
  destruct (isupper_facts c Hc) as (Hsp & Halpha & Hup & Hlf).
  set (ans := "Answer: " +:+ String c "").
  set (lines := [String c0 rest; o1; o2; o3; o4; ans]).
  assert (render_question (mkQuestion (String c0 rest) [o1; o2; o3; o4] (String c ""))
          = join nl lines) as Hrender by reflexivity.
  assert (strip (join nl lines) = join nl lines) as Hstrip.
  { unfold strip. rewrite lstrip_keeps.
    - destruct (join_ends [String c0 rest; o1; o2; o3; o4] "Answer: " c) as [s Hs].
      change ([String c0 rest; o1; o2; o3; o4] ++ ["Answer: " +:+ String c ""]) with lines in Hs.
      rewrite Hs. by apply rstrip_keeps.
    - change (join nl lines) with (String c0 (rest +:+ nl +:+ join nl [o1; o2; o3; o4; ans])).
      simpl. by rewrite Hc0. }
  assert (split nl (join nl lines) = lines) as Hsplit.
  { apply split_join_lines; [done|].
    simpl in Hol. repeat (apply andb_true_iff in Hol as [? Hol]).
    change (forallb one_line lines)
      with (one_line (String c0 rest) && (one_line o1 && (one_line o2 && (one_line o3
            && (one_line o4 && (one_line ans && true)))))).
    rewrite Hqt. unfold ans. rewrite one_line_answer by done.
    by repeat (apply andb_true_iff; split). }
  unfold load_block. rewrite Hrender, Hstrip, Hsplit.
  change (lines !! 0%nat) with (Some (String c0 rest)). cbv beta iota zeta.
  rewrite Hsub.
  change (length lines <? 6)%nat with false. cbv beta iota.
  rewrite bool_decide_eq_true_2 by done. cbn [negb].
  change (slice lines 1 5) with [o1; o2; o3; o4].
  change (lines !! 5%nat) with (Some ans). cbv beta iota.
  rewrite Hok. cbn [negb].
  change (startswith ans "Answer:") with true. cbn [negb].
  change (split1 ":" ans !! 1%nat) with (Some (String " " (String c ""))). cbv beta iota.
  rewrite strip_answer_letter by done.
  change (is_empty (String c "")) with false.
  change (len (String c "") =? 1) with true.
  change (str_isalpha (String c "")) with (isalpha c && true).
  rewrite Halpha. cbn [negb orb andb].
  change (upper (String c "")) with (String (upper_char c) ""). rewrite Hup. done.
Qed.

Lemma rendered_question_loads_witness :
  renderable question_double = true
  ∧ render_question question_double = block_double
  ∧ load_block (Some "Math", [("Math", [question_sum])]) block_double
    = (Some "Math", [("Math", [question_sum; question_double])]).
Proof.
  split; [reflexivity|]. split; [reflexivity|].
  exact (rendered_question_loads question_double "Math" [("Math", [question_sum])]
           eq_refl (mk_is_Some _ _ eq_refl)).
Defined.

End RenderFacts.

(** ** More on the subscription collection *)
Module StoreMore.
Import PyStr Store Fixtures.

(** The expiry [grant] computes for [days]: [now + timedelta(days)]
    when both are in range. *)
Definition expiry_of (now : Z) (expiry_days : option Z) : option (option Z) :=
  match expiry_days with
  | Some n => delta ← timedelta_days n; Some <$> datetime_add now delta
  | None => Some None
  end.

Lemma grant_stored (now target : Z) (expiry_days : option Z) (uname : option string)
    (notify_ok : bool) (d : db) (e : option Z) :
  health d = [] → expiry_of now expiry_days = Some e →
  (docs d !! target = None → bson_int target = true) →
  let r := grant now target expiry_days uname notify_ok d in
  health r.2 = []
  ∧ docs r.2
    = <[target :=
          match docs d !! target with
          | Some doc =>
              mkDoc (doc_chat_id doc) (Some (ms (default now (subscribed_at doc))))
                (Some <$> (ms <$> e)) (username doc)
          | None => mkDoc target (Some (ms now)) (Some <$> (ms <$> e)) (Some uname)
          end]> (docs d).
Proof.
  intros Hh He Hfit. unfold grant, find_one, write_doc, attempt. rewrite Hh. simpl.
  unfold expiry_of in He. rewrite He. simpl.
  destruct (docs d !! target) as [doc|]; simpl.
  - by destruct e.
  - rewrite Hfit by done. by destruct e.
Qed.

Lemma ms_bounds (t : Z) : ms t ≤ t < ms t + 1000.
Proof. unfold ms. pose proof (Z.mod_pos_bound t 1000 ltac:(lia)). lia. Qed.

Lemma ms_aligned (t : Z) : ms (ms t) = ms t.
Proof.
  unfold ms. rewrite Zminus_mod_idemp_r, Z.sub_diag. rewrite Z.mod_0_l by lia. lia.
Qed.

(** X4: after the admin's grant of [days] days to [target], a chat id
    that fits 64 bits, on a collection that answers, with the expiry in
    [datetime]'s range, the gate admits [target] at every time up to the
    expiry the collection keeps, that is [now + days] cut to the
    millisecond, and at no later time; a grant without days admits the
    user at every time. *)
Theorem granted_user_is_entitled (admin now target : Z) (uname : option string)
    (arg0 : string) (rest : list string) (notify_ok : bool) (d : db) (e : option Z) :
  health d = [] →
  int arg0 = Some target →
  bson_int target = true →
  match rest with
  | [] => e = None
  | arg1 :: _ =>
      ∃ days, int arg1 = Some days ∧ 0 < days ≤ 999999999
              ∧ 0 ≤ now + days * us_per_day ≤ datetime_max
              ∧ e = Some (ms (now + days * us_per_day))
  end →
  let r := add_subscriber_command admin now admin uname (arg0 :: rest) notify_ok d in
  ∀ t, (is_user_subscribed t target r.2).1
       = match e with Some expires => bool_decide (t ≤ expires) | None => true end.
Proof.
  intros Hh H0 Hfit Hrest r t.
  assert (∃ days e0, r = grant now target days uname notify_ok d
                     ∧ expiry_of now days = Some e0 ∧ e = ms <$> e0)
    as (days & e0 & Hr & He & ->).
  { subst r. unfold add_subscriber_command. rewrite Z.eqb_refl, H0. simpl.
    destruct rest as [|arg1 rest'].
    - subst e. by exists None, None.
    - destruct Hrest as (n & H1 & Hn & Hrange & ->). rewrite H1.
      rewrite (proj2 (Z.leb_gt n 0)) by lia.
      exists (Some n), (Some (now + n * us_per_day)). split; [done|]. split; [|done].
      unfold expiry_of, timedelta_days, datetime_add.
      rewrite (proj2 (Z.leb_le (Z.abs n) 999999999)) by lia. simpl.
      rewrite (proj2 (Z.leb_le 0 _)), (proj2 (Z.leb_le _ datetime_max)) by lia. done. }
  destruct (grant_stored now target days uname notify_ok d e0 Hh He (λ _, Hfit))
    as [Hh' Hd'].
  rewrite <- Hr in Hh', Hd'.
  unfold is_user_subscribed, find_one, attempt. rewrite Hh'. simpl.
  rewrite Hd', lookup_insert_eq.
  destruct (docs d !! target) as [doc|]; simpl; destruct e0 as [x|]; simpl; try done;
    destruct (Z.ltb_spec (ms x) t); simpl; symmetry;
    (apply bool_decide_eq_false_2 || apply bool_decide_eq_true_2); lia.
Qed.

Lemma granted_user_is_entitled_witness :
  let r := add_subscriber_command 1 1500 1 None ["42"; "30"] true (db_of []) in
  (is_user_subscribed (1000 + 30 * us_per_day) 42 r.2).1 = true
  ∧ (is_user_subscribed (1001 + 30 * us_per_day) 42 r.2).1 = false
  ∧ (is_user_subscribed (1500 + 30 * us_per_day) 42 r.2).1 = false.
Proof.
  cbv zeta.
  pose proof (granted_user_is_entitled 1 1500 42 None "42" ["30"] true (db_of [])
                (Some (1000 + 30 * us_per_day)) eq_refl eq_refl eq_refl) as Hg.
  cbv zeta in Hg. rewrite !Hg.
  - split; [|split]; reflexivity.
  - exists 30. split; [reflexivity|]. split; [lia|]. split; [by vm_compute | reflexivity].
  - exists 30. split; [reflexivity|]. split; [lia|]. split; [by vm_compute | reflexivity].
  - exists 30. split; [reflexivity|]. split; [lia|]. split; [by vm_compute | reflexivity].
Defined.

(** A chat id beyond 64 bits cannot be stored: the command answers with
    the failure text and the collection holds what it held. *)
Example grant_refuses_wide_chat_id :
  let r := add_subscriber_command 1 1500 1 None ["9223372036854775808"; "30"] true
             (db_of []) in
  r.1 = [ReplyText msg_failure] ∧ docs r.2 = ∅.
Proof. vm_compute. done. Qed.

(** X5: the command changes no document but the one of the chat id
    its first argument names, and none at all for a caller who is not the
    admin or when it answers with the failure text. *)
Theorem grant_touches_only_its_target (admin now caller : Z) (uname : option string)
    (args : list string) (notify_ok : bool) (d : db) :
  let r := add_subscriber_command admin now caller uname args notify_ok d in
  (∀ id, int (default EmptyString (head args)) ≠ Some id →
         docs r.2 !! id = docs d !! id)
  ∧ (caller ≠ admin → docs r.2 = docs d)
  ∧ (r.1 = [ReplyText msg_failure] → docs r.2 = docs d).
Proof.
  assert (∀ target days,
            let g := grant now target days uname notify_ok d in
            (∀ id, id ≠ target → docs g.2 !! id = docs d !! id)
            ∧ (g.1 = [ReplyText msg_failure] → docs g.2 = docs d)) as Hgrant.
  { intros target days. unfold grant, find_one, write_doc, attempt. simpl.
    destruct (hd true (health d)); simpl; [|done].
    destruct days as [n|]; simpl.
    - destruct (timedelta_days n) as [delta|]; simpl; [|done].
      destruct (datetime_add now delta) as [e|]; simpl; [|done].
      destruct (docs d !! target) as [doc|]; simpl;
        destruct (hd true (tl (health d))); simpl; try destruct (bson_int target);
        simpl; split; try done;
        intros id Hne; by rewrite lookup_insert_ne.
    - destruct (docs d !! target) as [doc|]; simpl;
        destruct (hd true (tl (health d))); simpl; try destruct (bson_int target);
        simpl; split; try done;
        intros id Hne; by rewrite lookup_insert_ne. }
  unfold add_subscriber_command. simpl.
  destruct (Z.eqb_spec caller admin) as [->|Hne]; simpl; [|done].
  destruct args as [|arg0 rest]; simpl; [done|].
  destruct (int arg0) as [target|] eqn:H0; simpl; [|done].
  assert (∀ id, Some target ≠ Some id → id ≠ target) as Hid by (intros id Hn ->; done).
  destruct rest as [|arg1 rest].
  - destruct (Hgrant target None) as [Hf Hfail]. split_and!; [|done|done].
    intros id Hn. by apply Hf, Hid.
  - destruct (int arg1) as [n|]; simpl; [|done].
    destruct (n <=? 0); simpl; [done|].
    destruct (Hgrant target (Some n)) as [Hf Hfail]. split_and!; [|done|done].
    intros id Hn. by apply Hf, Hid.
Qed.

(** X6: a grant to a user who has a document keeps the date of the
    first subscription and the stored user name; it sets the expiry to
    the new one, or removes the key when the grant is without days.  The
    dates are kept as the collection keeps every date, to the
    millisecond. *)
Theorem renewal_keeps_first_subscription (now target : Z) (expiry_days : option Z)
    (uname : option string) (notify_ok : bool) (d : db) (doc : user_doc)
    (since : Z) (e : option Z) :
  health d = [] → docs d !! target = Some doc → subscribed_at doc = Some since →
  expiry_of now expiry_days = Some e →
  let r := grant now target expiry_days uname notify_ok d in
  docs r.2 !! target
  = Some (mkDoc (doc_chat_id doc) (Some (ms since)) (Some <$> (ms <$> e)) (username doc))
  ∧ r.1 = ReplyUpdated target e
          :: (if notify_ok then [NotifyUser target e] else [ReplyNotifyFailed])
  ∧ (expiry_days = None → e = None).
Proof.
  intros Hh Hdoc Hs He.
  destruct (grant_stored now target expiry_days uname notify_ok d e Hh He) as [_ Hd'].
  { by rewrite Hdoc. }
  cbv zeta. rewrite Hd', lookup_insert_eq, Hdoc, Hs. simpl. split; [done|]. split.
  - unfold grant, find_one, write_doc, attempt. rewrite Hh. simpl. rewrite Hdoc.
    unfold expiry_of in He. rewrite He. simpl. by destruct notify_ok.
  - intros ->. simpl in He. by injection He as <-.
Qed.

Lemma renewal_keeps_first_subscription_witness :
  let d := db_of [doc_until 7 (Some (Some 5))] in
  docs (grant 1000 7 None None true d).2 !! 7 = Some (mkDoc 7 (Some 0) None (Some None))
  ∧ (is_user_subscribed 1000 7 d).1 = false
  ∧ (is_user_subscribed 1000 7 (grant 1000 7 None None true d).2).1 = true.
Proof.
  cbv zeta. split; [|split; reflexivity].
  refine (proj1 (renewal_keeps_first_subscription 1000 7 None None true
            (db_of [doc_until 7 (Some (Some 5))]) (doc_until 7 (Some (Some 5))) 0 None
            eq_refl _ eq_refl eq_refl)).
  reflexivity.
Defined.

End StoreMore.

(** ** The start keyboard *)
Module KeyboardSpec.
Import PyStr PyNum Loader Quiz Fixtures QuizFacts MixSpec.

Lemma nonempty_perm {A} (l k : list A) : l ≡ₚ k → nonempty l = nonempty k.
Proof. intros Hp. apply Permutation_length in Hp. by destruct l, k. Qed.

Lemma existsb_nonempty (loaded : bank) :
  existsb nonempty (dict_values loaded) = true
  ↔ ∃ qs, qs ∈ dict_values loaded ∧ nonempty qs = true.
Proof.
  rewrite existsb_exists. split; intros (qs & Hin & Hne); exists qs;
    (split; [by apply list_elem_of_In | done]).
Qed.

Section WithGen.
Context {G : Type} `{RandomGen G}.

Lemma random_mix_nonempty (g : G) (loaded : bank) :
  existsb nonempty (dict_values loaded) = true →
  nonempty (random_mix g loaded).1 = true.
Proof.
  intros Hex. apply existsb_nonempty in Hex as (qs0 & Hin0 & Hne0).
  set (total := sum_Z (map list_len (dict_values loaded))).
  destruct (random_mix_loop_parts g total (Z.min 50 total) loaded []) as (parts & Heq & Hparts).
  { intros qs Hin Hne. apply nonempty_len in Hne.
    pose proof (sum_Z_bound (list_len <$> dict_values loaded) (list_len qs)
                  (list_len_nonneg _) (list_elem_of_fmap_2 list_len _ _ Hin)) as Hb.
    subst total. change (map list_len (dict_values loaded)) with (list_len <$> dict_values loaded).
    lia. }
  unfold random_mix. fold total.
  destruct (random_mix_loop g total (Z.min 50 total) loaded []) as [temp g1].
  simpl in Heq. subst temp.
  rewrite (nonempty_perm _ _ (shuffle_perm _ g1 (concat parts))).
  assert (qs0 ∈ filter (λ qs, nonempty qs = true) (dict_values loaded)) as Hf
    by (by apply list_elem_of_filter).
  destruct Hparts as [|qs part subjects parts' (_ & _ & Hlen) _]; [by apply elem_of_nil in Hf|].
  simpl. apply nonempty_len. unfold list_len in *. rewrite length_app. lia.
Qed.

Lemma begin_starts (g : G) (loaded : bank) (name : string) (qs : list Question) :
  nonempty qs = true →
  r_state (send_next_question_batch loaded
             (mkUd (Some name) (Some qs) (Some 0) (Some 0) (Some ∅) (Some []) ∅))
  = Some QUIZ_IN_PROGRESS.
Proof.
  intros Hne. apply nonempty_len in Hne.
  by destruct (send_next_sends loaded
                 (mkUd (Some name) (Some qs) (Some 0) (Some 0) (Some ∅) (Some []) ∅)
                 qs 0 eq_refl eq_refl ltac:(lia)) as (a & sent & -> & _).
Qed.

(** X7: the start keyboard exists exactly when some subject of the
    bank has questions; and every button on it starts a quiz: its callback
    data, sent while a subject is being selected, leads [start_quiz] to a
    quiz in progress on a non-empty list of questions. *)
Theorem start_keyboard_buttons_start_a_quiz (g : G) (loaded : bank) :
  (is_Some (get_start_keyboard loaded)
   ↔ ∃ qs, qs ∈ dict_values loaded ∧ nonempty qs = true)
  ∧ ∀ kb row label data,
      get_start_keyboard loaded = Some kb → row ∈ kb → (label, data) ∈ row →
      let c := (conv_step loaded (mkConv SELECTING_SUBJECT ud_clear g) (Callback data)).1 in
      c_state c = QUIZ_IN_PROGRESS
      ∧ ∃ qs, ud_questions (c_ud c) = Some qs ∧ nonempty qs = true.
Proof.
  unfold get_start_keyboard.
  set (rows := flat_map _ known_subjects).
  assert (∀ row, row ∈ rows →
            ∃ subj q qs, subj ∈ known_subjects ∧ dict_get subj loaded = Some (q :: qs)
                         ∧ row = [(subj, "subj|" +:+ subj)]) as Hrows.
  { intros row Hin. apply list_elem_of_In, in_flat_map in Hin as (subj & Hs & Hin).
    apply list_elem_of_In in Hs.
    destruct (dict_get subj loaded) as [[|q qs]|] eqn:Hg; try by destruct Hin.
    destruct Hin as [<-|[]]. by exists subj, q, qs. }
  assert (rows ≠ [] → existsb nonempty (dict_values loaded) = true) as Hany.
  { destruct rows as [|row rows'] eqn:Hr; [done|]. intros _.
    destruct (Hrows row) as (subj & q & qs & _ & Hg & _); [left|].
    apply existsb_nonempty. exists (q :: qs). split; [|done].
    clear -Hg. induction loaded as [|[k v] l IH]; simpl in *; [done|].
    destruct (String.eqb subj k); [injection Hg as ->; left | right; by apply IH]. }
  split.
  - rewrite <- existsb_nonempty.
    destruct (existsb nonempty (dict_values loaded)) eqn:Hex.
    + split; [done|]. intros _. destruct rows; by eexists.
    + split; [|done]. destruct rows as [|row rows'] eqn:Hr; simpl; [by intros [? ?]|].
      intros _. by apply Hany.
  - intros kb row label data Hkb Hrow Hbtn.
    assert (existsb nonempty (dict_values loaded) = true) as Hex.
    { destruct (existsb nonempty (dict_values loaded)); [done|].
      destruct rows as [|r rows'] eqn:Hr; [done|]. by apply Hany. }
    rewrite Hex in Hkb.
    assert (kb = rows ++ [[("Random 50 savol", "random")]]) as ->.
    { destruct (rows ++ _) eqn:Hk; simpl in Hkb; [by destruct rows|]. by injection Hkb. }
    apply elem_of_app in Hrow as [Hrow|Hrow].
    + destruct (Hrows row Hrow) as (subj & q & qs & Hknown & Hg & ->).
      apply list_elem_of_singleton in Hbtn. injection Hbtn as -> ->.
      assert (startswith ("subj|" +:+ subj) "subj|" = true
              ∧ split1 "|" ("subj|" +:+ subj) !! 1%nat = Some subj) as [Hsw Hsp].
      { unfold known_subjects in Hknown.
        repeat (apply elem_of_cons in Hknown as [->|Hknown]; [split; reflexivity|]).
        by apply elem_of_nil in Hknown. }
      cbv zeta. cbn [conv_step c_state c_ud c_gen]. rewrite Hsw. cbn [orb].
      unfold start_quiz. rewrite Hsw, Hsp. cbn [default from_option id]. rewrite Hg.
      pose proof (shuffle_perm _ g (q :: qs)) as Hperm.
      destruct (shuffle g (q :: qs)) as [qs' g']. simpl in Hperm.
      assert (nonempty qs' = true) as Hne by (by rewrite (nonempty_perm _ _ Hperm)).
      rewrite Hne. cbn [negb settle fst r_state r_ud c_state c_ud default from_option id].
      split; [done|]. exists qs'. split; [|done].
      apply nonempty_len in Hne.
      by destruct (send_next_sends loaded
                 (mkUd (Some subj) (Some qs') (Some 0) (Some 0) (Some ∅) (Some []) ∅)
                 qs' 0 eq_refl eq_refl ltac:(lia)) as (a & sent & -> & _).
    + apply list_elem_of_singleton in Hrow as ->.
      apply list_elem_of_singleton in Hbtn. injection Hbtn as -> ->.
      cbv zeta. cbn [conv_step c_state c_ud c_gen].
      change (startswith "random" "subj|" || matches_word "random" "random") with true.
      unfold start_quiz.
      change (startswith "random" "subj|") with false.
      change (String.eqb "random" "random") with true. cbv iota.
      rewrite Hex. cbn [negb].
      pose proof (random_mix_nonempty g loaded Hex) as Hne.
      destruct (random_mix g loaded) as [qs' g']. simpl in Hne.
      rewrite Hne. cbn [negb settle fst r_state r_ud c_state c_ud default from_option id].
      split; [done|]. exists qs'. split; [|done].
      apply nonempty_len in Hne.
      by destruct (send_next_sends loaded
                 (mkUd (Some "Random Mix") (Some qs') (Some 0) (Some 0) (Some ∅) (Some []) ∅)
                 qs' 0 eq_refl eq_refl ltac:(lia)) as (a & sent & -> & _).
Qed.

End WithGen.

Lemma start_keyboard_buttons_start_a_quiz_witness :
  get_start_keyboard (bank_ot 25)
  = Some [[("OT", "subj|OT")]; [("Random 50 savol", "random")]]
  ∧ c_state (conv_step (bank_ot 25) (mkConv SELECTING_SUBJECT ud_clear 0%nat)
               (Callback "subj|OT")).1 = QUIZ_IN_PROGRESS.
Proof.
  split; [reflexivity|].
  destruct (start_keyboard_buttons_start_a_quiz 0%nat (bank_ot 25)) as [_ Hb].
  refine (proj1 (Hb _ [("OT", "subj|OT")] "OT" "subj|OT" eq_refl _ _)).
  - left.
  - left.
Defined.

End KeyboardSpec.

(** ** Numbers in callback data *)
Module IntFacts.
Import PyStr Loader RenderFacts.

(** The character of the decimal digit [d]. *)
Definition digit_char (d : Z) : ascii := ascii_of_N (48 + Z.to_N d).

Lemma digit_char_facts (d : Z) :
  0 ≤ d < 10 →
  isdigit (digit_char d) = true
  ∧ Z.of_N (N_of_ascii (digit_char d)) - 48 = d
  ∧ isspace (digit_char d) = false
  ∧ Ascii.eqb (digit_char d) "|" = false
  ∧ Ascii.eqb (digit_char d) "-" = false
  ∧ Ascii.eqb (digit_char d) "+" = false.
Proof.
  intros Hd.
  assert (d = 0 ∨ d = 1 ∨ d = 2 ∨ d = 3 ∨ d = 4 ∨ d = 5 ∨ d = 6 ∨ d = 7 ∨ d = 8 ∨ d = 9)
    as Hcases by lia.
  repeat (destruct Hcases as [->|Hcases]; [by vm_compute|]). subst. by vm_compute.
Qed.

(** A string of decimal digits. *)
Fixpoint all_digits (s : string) : bool :=
  match s with
  | EmptyString => true
  | String c r => isdigit c && negb (isspace c) && negb (Ascii.eqb c "|") && all_digits r
  end.

Lemma all_digits_app (s t : string) :
  all_digits (s +:+ t) = all_digits s && all_digits t.
Proof.
  induction s as [|c s IH]; [done|].
  rewrite app_cons_str. cbn [all_digits]. rewrite IH. by rewrite !andb_assoc.
Qed.

Lemma str_length_app (s t : string) :
  String.length (s +:+ t) = (String.length s + String.length t)%nat.
Proof. induction s as [|c s IH]; [done|]. rewrite app_cons_str. simpl. by rewrite IH. Qed.

Lemma digits_go_digit (d : Z) (rest : string) (a : Z) (f : bool) :
  0 ≤ d < 10 →
  digits_go (String (digit_char d) rest) a f = digits_go rest (10 * a + d) true.
Proof.
  intros Hd. destruct (digit_char_facts d Hd) as (Hdig & Hval & _).
  cbn [digits_go]. by rewrite Hdig, Hval.
Qed.

(** [digits_pos] writes the digits of [n] in front of [acc], and
    [digits_go] reads them back. *)
Lemma digits_pos_spec (fuel : nat) :
  ∀ n acc, 0 ≤ n < 10 ^ Z.of_nat (S fuel) →
    ∃ ds, digits_pos (S fuel) n acc = ds +:+ acc
          ∧ all_digits ds = true
          ∧ (0 < String.length ds)%nat
          ∧ ∀ rest a f,
              digits_go (ds +:+ rest) a f
              = digits_go rest (a * 10 ^ Z.of_nat (String.length ds) + n) true.
Proof.
  assert (∀ n acc, 0 ≤ n < 10 →
            ∃ ds, String (digit_char (n mod 10)) acc = ds +:+ acc
                  ∧ all_digits ds = true
                  ∧ (0 < String.length ds)%nat
                  ∧ ∀ rest a f,
                      digits_go (ds +:+ rest) a f
                      = digits_go rest (a * 10 ^ Z.of_nat (String.length ds) + n) true) as Hone.
  { intros n acc Hlt.
    assert (0 ≤ n mod 10 < 10) as Hd by (apply Z.mod_pos_bound; lia).
    destruct (digit_char_facts _ Hd) as (Hdig & Hval & Hsp & Hbar & _).
    exists (String (digit_char (n mod 10)) "").
    split; [done|]. split; [cbn [all_digits]; by rewrite Hdig, Hsp, Hbar|].
    split; [simpl; lia|]. intros rest a f.
    rewrite app_cons_str, app_nil_str, digits_go_digit by done.
    f_equal. rewrite Z.mod_small by lia. simpl. lia. }
  induction fuel as [|k IH]; intros n acc Hn.
  - cbn [digits_pos]. fold (digit_char (n mod 10)).
    change (10 ^ Z.of_nat 1) with 10 in Hn.
    rewrite (proj2 (Z.ltb_lt n 10)) by lia. by apply Hone.
  - assert (0 ≤ n mod 10 < 10) as Hd by (apply Z.mod_pos_bound; lia).
    destruct (digit_char_facts _ Hd) as (Hdig & Hval & Hsp & Hbar & _).
    cbn [digits_pos]. fold (digit_char (n mod 10)).
    destruct (Z.ltb_spec n 10) as [Hlt|Hge]; [apply Hone; lia|].
    destruct (IH (n / 10) (String (digit_char (n mod 10)) acc)) as (ds & Heq & Hall & Hlen & Hgo).
    { split; [apply Z.div_pos; lia|].
      apply Z.div_lt_upper_bound; [lia|].
      rewrite (Nat2Z.inj_succ (S k)), Z.pow_succ_r in Hn by lia. lia. }
    exists (ds +:+ String (digit_char (n mod 10)) "").
    split; [cbn [digits_pos] in Heq; by rewrite Heq, str_app_assoc|].
    split; [rewrite all_digits_app, Hall; cbn [all_digits]; by rewrite Hdig, Hsp, Hbar|].
    split; [rewrite str_length_app; lia|]. intros rest a f.
    rewrite str_app_assoc, app_cons_str, app_nil_str, Hgo, digits_go_digit by done.
    f_equal. rewrite str_length_app. simpl String.length.
    rewrite Nat2Z.inj_add. change (Z.of_nat 1) with 1.
    rewrite Z.pow_add_r, Z.pow_1_r by lia.
    pose proof (Z.div_mod n 10 ltac:(lia)). lia.
Qed.

Lemma fuel_enough (n : Z) : 0 ≤ n → n < 10 ^ Z.of_nat (S (Z.to_nat (Z.log2 n))).
Proof.
  intros Hn. rewrite Nat2Z.inj_succ, Z2Nat.id by apply Z.log2_nonneg.
  destruct (Z.eq_dec n 0) as [->|Hne]; [done|].
  pose proof (Z.log2_spec n ltac:(lia)) as [_ Hup].
  eapply Z.lt_le_trans; [exact Hup|].
  apply Z.pow_le_mono_l. pose proof (Z.log2_nonneg n). lia.
Qed.

Lemma not_space_c (c : ascii) : isspace c = false → isspace_c c = false.
Proof. destruct c as [[] [] [] [] [] [] [] []]; vm_compute; congruence. Qed.

Lemma lstrip_c_digits (s : string) : all_digits s = true → lstrip_c s = s.
Proof.
  intros Hs. destruct s as [|c s]; [done|]. cbn [all_digits] in Hs.
  apply andb_true_iff in Hs as [Hs _]. apply andb_true_iff in Hs as [Hs _].
  apply andb_true_iff in Hs as [_ Hsp].
  apply negb_true_iff, not_space_c in Hsp. cbn [lstrip_c]. by rewrite Hsp.
Qed.

Lemma rstrip_c_digits (s : string) : all_digits s = true → rstrip_c s = s.
Proof.
  intros Hs. induction s as [|c s IH]; [done|]. cbn [all_digits] in Hs.
  apply andb_true_iff in Hs as [Hs Hrest]. apply andb_true_iff in Hs as [Hs _].
  apply andb_true_iff in Hs as [_ Hsp]. apply negb_true_iff, not_space_c in Hsp.
  cbn [rstrip_c]. rewrite (IH Hrest), Hsp. done.
Qed.

Lemma strip_no_space (s : string) :
  all_digits s = true → rstrip_c (lstrip_c s) = s.
Proof. intros Hs. by rewrite lstrip_c_digits, rstrip_c_digits. Qed.

Lemma int_digits (ds : string) :
  all_digits ds = true → int ds = digits_go ds 0 false.
Proof.
  intros Hall. unfold int. rewrite (strip_no_space ds Hall).
  destruct ds as [|c ds]; [done|]. cbn [all_digits] in Hall.
  apply andb_true_iff in Hall as [Hs _]. apply andb_true_iff in Hs as [Hs _].
  apply andb_true_iff in Hs as [Hdig _].
  destruct c as [[] [] [] [] [] [] [] []]; try done.
Qed.

(** [int(str(n))] is [n]. *)
Lemma int_str_of_Z (n : Z) : int (str_of_Z n) = Some n.
Proof.
  unfold str_of_Z. destruct (Z.ltb_spec n 0) as [Hneg|Hpos].
  - assert (0 ≤ - n) as Hpos by lia.
    destruct (digits_pos_spec _ (- n) "" (conj Hpos (fuel_enough (- n) Hpos)))
      as (ds & -> & Hall & Hlen & Hgo).
    assert (ds +:+ "" = ds) as -> by (clear; induction ds as [|c s IH]; [done|];
                                        by rewrite app_cons_str, IH).
    unfold int. cbn [lstrip_c]. change (isspace_c "-") with false. cbv iota.
    cbn [rstrip_c]. change (isspace_c "-") with false. cbn [andb].
    rewrite (rstrip_c_digits ds Hall).
    specialize (Hgo "" 0 false). rewrite <- (app_nil_str "") in Hgo at 1.
    assert (ds +:+ ("" +:+ "") = ds) as Heq by (clear; induction ds as [|c s IH]; [done|];
                                        by rewrite app_cons_str, IH).
    rewrite Heq in Hgo. rewrite Hgo. simpl. f_equal. lia.
  - destruct (digits_pos_spec _ n "" (conj Hpos (fuel_enough n Hpos)))
      as (ds & -> & Hall & Hlen & Hgo).
    assert (ds +:+ "" = ds) as Heq by (clear; induction ds as [|c s IH]; [done|];
                                        by rewrite app_cons_str, IH).
    rewrite Heq. rewrite int_digits by done.
    specialize (Hgo "" 0 false). rewrite Heq in Hgo. rewrite Hgo. simpl. f_equal.
Qed.

(** [int] skips the blanks around a number and refuses the separator US
    there, which [str.strip] would drop. *)
Example int_refuses_separators :
  int " 12 " = Some 12
  ∧ int (String "031" "12") = None
  ∧ strip (String "031" "12") = "12".
Proof. by vm_compute. Qed.

Lemma str_of_Z_digits (n : Z) :
  0 ≤ n → all_digits (str_of_Z n) = true.
Proof.
  intros Hpos. unfold str_of_Z. rewrite (proj2 (Z.ltb_ge n 0)) by done.
  destruct (digits_pos_spec _ n "" (conj Hpos (fuel_enough n Hpos)))
    as (ds & -> & Hall & _).
  by rewrite all_digits_app, Hall.
Qed.

End IntFacts.

(** ** The answer buttons *)
Module ButtonSpec.
Import PyStr PyNum Loader Quiz Fixtures QuizFacts RenderFacts IntFacts.

(** [c0] does not occur in [s]. *)
Fixpoint without (c0 : ascii) (s : string) : bool :=
  match s with
  | EmptyString => true
  | String c r => negb (Ascii.eqb c c0) && without c0 r
  end.

Lemma prefix_char (c0 c : ascii) (r : string) :
  String.prefix (String c0 "") (String c r) = Ascii.eqb c0 c.
Proof.
  change (String.prefix (String c0 "") (String c r))
    with (if ascii_dec c0 c then String.prefix "" r else false).
  destruct (ascii_dec c0 c) as [<-|Hne].
  - rewrite Ascii.eqb_refl. by destruct r.
  - symmetry. by apply Ascii.eqb_neq.
Qed.

Lemma split_char_line (c0 : ascii) (s t : string) :
  without c0 s = true →
  split (String c0 "") (s +:+ String c0 t) = s :: split (String c0 "") t.
Proof.
  unfold split. induction s as [|c s IH]; intros Hs.
  - rewrite app_nil_str, split_go_cons, prefix_char, Ascii.eqb_refl. done.
  - simpl in Hs. apply andb_true_iff in Hs as [Hc Hs].
    rewrite app_cons_str, split_go_cons, prefix_char.
    rewrite Ascii.eqb_sym. apply negb_true_iff in Hc. rewrite Hc.
    rewrite (IH Hs). done.
Qed.

Lemma split_char_last (c0 : ascii) (s : string) :
  without c0 s = true → split (String c0 "") s = [s].
Proof.
  unfold split. induction s as [|c s IH]; intros Hs; [done|].
  simpl in Hs. apply andb_true_iff in Hs as [Hc Hs].
  rewrite split_go_cons, prefix_char.
  rewrite Ascii.eqb_sym. apply negb_true_iff in Hc. rewrite Hc.
  rewrite (IH Hs). done.
Qed.

Lemma all_digits_without_bar (s : string) : all_digits s = true → without "|" s = true.
Proof.
  induction s as [|c s IH]; [done|]. cbn [all_digits without]. intros Hs.
  apply andb_true_iff in Hs as [Hs Hrest]. apply andb_true_iff in Hs as [_ Hbar].
  by rewrite Hbar, IH.
Qed.

(** The callback data of an answer button. *)
Definition answer_data (i : Z) (letter : string) : string :=
  "ans|" +:+ str_of_Z i +:+ "|" +:+ letter.

Lemma parse_answer_data (i : Z) (letter : string) :
  0 ≤ i → without "|" letter = true →
  parse_answer (answer_data i letter) = Some (i, letter).
Proof.
  intros Hi Hl. unfold parse_answer, answer_data.
  change ("ans|" +:+ str_of_Z i +:+ "|" +:+ letter)
    with ("ans" +:+ String "|" (str_of_Z i +:+ String "|" letter)).
  change "|" with (String "|"%char "") at 1.
  rewrite split_char_line by done.
  rewrite split_char_line by (by apply all_digits_without_bar, str_of_Z_digits).
  rewrite split_char_last by done.
  by rewrite int_str_of_Z.
Qed.

Lemma option_ok_letter (opt : string) :
  option_ok opt = true →
  presentable opt = true
  ∧ ∃ c, upper (option_letter opt) = String c "" ∧ isupper c = true
         ∧ without "|" (String c "") = true.
Proof.
  unfold option_ok, presentable. intros Hok.
  apply andb_true_iff in Hok as [Hok Halpha]. split; [done|].
  destruct opt as [|c opt]; [done|]. simpl in Halpha.
  exists (upper_char c). split; [done|].
  pose proof (LoaderFacts.upper_char_isupper c Halpha) as Hup. split; [done|].
  cbn [without]. revert Hup. generalize (upper_char c). intros u Hu.
  destruct u as [[] [] [] [] [] [] [] []]; try done.
Qed.

(** The messages for a batch of checked questions: one per question,
    with all its options, and nothing is skipped. *)
Lemma present_batch_ok (batch : list (Z * Question)) (a : gset Z) (sent : list action) :
  Forall (λ iq, question_ok iq.2) batch →
  present_batch batch a sent
  = (a, sent ++ ((λ iq, question_message iq.1 iq.2 (options iq.2)) <$> batch)).
Proof.
  intros Hall. revert a sent. induction Hall as [|[i q] batch Hq _ IH]; intros a sent.
  - simpl. by rewrite app_nil_r.
  - cbn [present_batch].
    assert (filter (λ opt, presentable opt = true) (options q) = options q) as Hf.
    { destruct Hq as (_ & Hopts & _). simpl in Hopts.
      induction Hopts as [|o os Ho _ IHo]; [done|].
      rewrite filter_cons, decide_True by (by apply option_ok_letter). by rewrite IHo. }
    rewrite Hf.
    assert (nonempty (options q) = true) as ->
      by (destruct Hq as (Hlen & _); simpl in Hlen; by destruct (options q)).
    cbn [negb]. rewrite IH. simpl. by rewrite <- app_assoc.
Qed.

Lemma zip_range_slice (qs : list Question) (c e i : Z) (q : Question) :
  0 ≤ c → (i, q) ∈ zip (range c e) (slice qs c e) →
  c ≤ i < e ∧ qs !! Z.to_nat i = Some q.
Proof.
  intros Hc Hin. apply list_elem_of_lookup in Hin as [j Hj].
  apply lookup_zip_with_Some in Hj as (i' & q' & [= <- <-] & Hi & Hq).
  unfold range in Hi. apply lookup_seqZ in Hi as [-> Hlt].
  unfold slice in Hq. rewrite (proj2 (Z.ltb_ge c 0)) in Hq by lia.
  apply lookup_take_Some in Hq as [Hq _]. rewrite lookup_drop in Hq.
  split; [lia|]. rewrite <- Hq. f_equal.
  assert (c ≤ Z.of_nat (length qs)).
  { apply lookup_lt_Some in Hq. destruct (Z.min_spec c (Z.of_nat (length qs))); lia. }
  rewrite Z.min_l by lia. lia.
Qed.

(** X8: for questions that passed the loader's checks, a batch is
    sent with no question skipped, and every button under a question
    carries callback data that [parse_answer] reads back as the index of a
    question of the batch and the button's own letter, which is the
    upper-case letter of one of that question's options; the only other
    button is the one for the next batch. *)
Theorem sent_buttons_are_understood (loaded : bank) (ud : user_data)
    (qs : list Question) (c : Z) :
  ud_questions ud = Some qs → ud_index ud = Some c → 0 ≤ c < list_len qs →
  Forall question_ok qs →
  let r := send_next_question_batch loaded ud in
  ud_answered_in_batch (r_ud r) = Some ∅
  ∧ ∀ t kb row label data,
      send_message t (Some kb) ∈ r_actions r → row ∈ kb → (label, data) ∈ row →
      data = "next"
      ∨ ∃ i q opt,
          i ∈ default [] (ud_current_batch_indices (r_ud r))
          ∧ index qs i = Some q ∧ opt ∈ options q
          ∧ label = upper (option_letter opt)
          ∧ parse_answer data = Some (i, label).
Proof.
  intros Hqs Hc Hr Hok. cbv zeta.
  unfold send_next_question_batch. rewrite Hqs, Hc. simpl.
  rewrite (proj2 (Z.leb_gt (list_len qs) c)) by lia.
  assert (nonempty qs = true) as -> by (apply nonempty_len; lia). simpl.
  set (e := Z.min (c + QUESTIONS_PER_BATCH) (list_len qs)).
  assert (∀ i q, (i, q) ∈ zip (range c e) (slice qs c e) →
            c ≤ i < e ∧ qs !! Z.to_nat i = Some q) as Hzip
    by (intros i q; apply zip_range_slice; lia).
  rewrite present_batch_ok.
  2:{ apply Forall_forall. intros [i q] Hin. simpl.
      destruct (Hzip i q Hin) as [_ Hq]. rewrite Forall_forall in Hok.
      apply Hok. by eapply list_elem_of_lookup_2. }
  simpl. split; [done|].
  intros t kb row label data Hmsg Hrow Hbtn.
  apply elem_of_app in Hmsg as [Hmsg|Hmsg].
  - right. apply list_elem_of_fmap in Hmsg as ([i q] & Heq & Hin). simpl in Heq.
    destruct (Hzip i q Hin) as [Hi Hq].
    unfold question_message in Heq. injection Heq as _ ->.
    apply list_elem_of_singleton in Hrow as ->.
    apply list_elem_of_fmap in Hbtn as (opt & [= -> ->] & Hopt).
    exists i, q, opt.
    assert (question_ok q) as (_ & Hopts & _).
    { rewrite Forall_forall in Hok. apply Hok. by eapply list_elem_of_lookup_2. }
    rewrite Forall_forall in Hopts. specialize (Hopts opt Hopt).
    destruct (option_ok_letter opt Hopts) as (_ & l & Hl & _ & Hbar).
    split_and!; try done.
    + apply elem_of_range. lia.
    + unfold index. unfold list_len in *.
      rewrite (proj2 (Z.leb_le 0 i)), (proj2 (Z.ltb_lt i _)) by (subst e; lia). done.
    + fold (answer_data i (upper (option_letter opt))).
      apply parse_answer_data; [lia|]. by rewrite Hl.
  - left. destruct (e <? list_len qs); [|by apply elem_of_nil in Hmsg].
    apply list_elem_of_singleton in Hmsg. injection Hmsg as _ ->.
    apply list_elem_of_singleton in Hrow as ->.
    apply list_elem_of_singleton in Hbtn. by injection Hbtn.
Qed.

End ButtonSpec.

(** ** The shares of the random mix in exact arithmetic *)
Module ShareExact.
Import PyNum Loader Quiz QuizFacts MixSpec.

(** The integer nearest to [a / b], ties to the even one, in exact
    arithmetic ([0 < b]). *)
Definition round_ratio (a b : Z) : Z :=
  let q := a / b in
  let r := a mod b in
  if 2 * r <? b then q
  else if b <? 2 * r then q + 1
  else if Z.even q then q else q + 1.

Definition share_agrees (total s : Z) : bool :=
  let target := Z.min 50 total in
  (round (mul_int_float target (truediv s total)) =? round_ratio (target * s) total).

Definition shares_agree_upto (N : Z) : bool :=
  forallb (λ total, forallb (share_agrees total) (seqZ 1 total)) (seqZ 1 N).

Lemma shares_agree_upto_spec (N total s : Z) :
  shares_agree_upto N = true → 1 ≤ s ≤ total → total ≤ N →
  share_agrees total s = true.
Proof.
  unfold shares_agree_upto. intros Hall Hs Ht.
  rewrite forallb_forall in Hall.
  assert (In total (seqZ 1 N)) as Hin by (apply list_elem_of_In, elem_of_seqZ; lia).
  specialize (Hall total Hin). rewrite forallb_forall in Hall.
  apply Hall, list_elem_of_In, elem_of_seqZ. lia.
Qed.

Lemma shares_agree_200 : shares_agree_upto 200 = true.
Proof. vm_compute. reflexivity. Qed.

(** X11: for a bank of at most 200 questions the float arithmetic of
    the random mix loses nothing: a subject of [s] questions gets
    [min(s, max(1, r))] where [r] is [target_total * s / total_available]
    rounded to the nearest integer, ties to even, in exact arithmetic. *)
Theorem share_is_exact_for_small_banks (total s : Z) :
  1 ≤ s ≤ total → total ≤ 200 →
  actual_count total (Z.min 50 total) s
  = Z.min s (Z.max 1 (round_ratio (Z.min 50 total * s) total)).
Proof.
  intros Hs Ht. rewrite actual_count_share by lia.
  pose proof (shares_agree_upto_spec 200 total s shares_agree_200 Hs Ht) as Hag.
  unfold share_agrees in Hag. apply Z.eqb_eq in Hag. by rewrite Hag.
Qed.

Lemma share_is_exact_for_small_banks_witness :
  actual_count 110 (Z.min 50 110) 5 = 2
  ∧ actual_count 110 (Z.min 50 110) 100 = 45.
Proof.
  split.
  - rewrite (share_is_exact_for_small_banks 110 5) by lia. reflexivity.
  - rewrite (share_is_exact_for_small_banks 110 100) by lia. reflexivity.
Defined.

End ShareExact.

Module SessionMore.
Import PyStr PyNum Loader Quiz Fixtures QuizFacts MixSpec KeyboardSpec ButtonSpec.

Lemma sent_buttons_are_understood_witness :
  let ud := mkUd (Some "Math") (Some [question_sum; question_double]) (Some 0) (Some 0)
              (Some ∅) (Some []) ∅ in
  let r := send_next_question_batch math_bank ud in
  ud_answered_in_batch (r_ud r) = Some ∅
  ∧ r_actions r
    = [question_message 0 question_sum (options question_sum);
       question_message 1 question_double (options question_double)]
  ∧ parse_answer "ans|1|D" = Some (1, "D").
Proof.
  cbv zeta.
  assert (Forall question_ok [question_sum; question_double]) as Hok.
  { pose proof (LoaderFacts.load_blocks_ok (blocks_of corpus_math) (None, [])
                  ltac:(constructor)) as Hb.
    apply Forall_inv in Hb. exact Hb. }
  destruct (sent_buttons_are_understood math_bank
              (mkUd (Some "Math") (Some [question_sum; question_double]) (Some 0) (Some 0)
                 (Some ∅) (Some []) ∅)
              [question_sum; question_double] 0 eq_refl eq_refl
              ltac:(by vm_compute) Hok) as [Hempty _].
  split; [exact Hempty|]. split; reflexivity.
Defined.

Lemma concat_submseteq {A} (ls ps : list (list A)) :
  Forall2 (λ l p, p ⊆+ l) ls ps → concat ps ⊆+ concat ls.
Proof.
  induction 1 as [|l p ls ps Hp _ IH]; simpl; [done|]. by apply submseteq_app.
Qed.

Lemma concat_filter_submseteq {A} (P : list A → Prop) `{∀ l, Decision (P l)}
    (ls : list (list A)) :
  concat (filter P ls) ⊆+ concat ls.
Proof.
  induction ls as [|l ls IH]; simpl; [done|].
  rewrite filter_cons. destruct (decide (P l)); simpl.
  - by apply submseteq_skips_l.
  - by apply submseteq_inserts_l.
Qed.
End SessionMore.

(** ** Where the questions come from, and what a session keeps *)
Module SelectionSpec.
Import PyStr PyNum Loader Quiz Fixtures QuizFacts MixSpec KeyboardSpec ButtonSpec SessionMore.

Lemma parts_size (vs parts : list (list Question)) :
  Forall2 (λ qs p, 1 ≤ list_len p ≤ list_len qs)
    (filter (λ qs, nonempty qs = true) vs) parts →
  Z.of_nat (length (filter (λ qs, nonempty qs = true) vs))
  ≤ list_len (concat parts) ≤ sum_Z (map list_len vs).
Proof.
  revert parts. induction vs as [|qs vs IH]; intros parts Hparts.
  - apply Forall2_nil_inv_l in Hparts as ->. done.
  - rewrite filter_cons in Hparts. cbn [map sum_Z foldr].
    rewrite filter_cons.
    assert (0 ≤ list_len qs) as Hq by (unfold list_len; lia).
    destruct (decide (nonempty qs = true)) as [Hne|Hne].
    + apply Forall2_cons_inv_l in Hparts as (p & ps & Hlen & Hrest & ->).
      specialize (IH ps Hrest). simpl. unfold list_len in *. rewrite length_app.
      unfold sum_Z in IH. lia.
    + specialize (IH parts Hparts). unfold sum_Z in IH. lia.
Qed.

Section WithGen.
Context {G : Type} `{RandomGen G}.

(** X9: the questions of a quiz come from the bank and from nowhere
    else.  For a subject they are that subject's questions, each once, in
    some order; for the random mix they are drawn from all the questions
    of the bank without taking an entry twice, at least one from each
    subject that has questions and at most as many as the bank holds. *)
Theorem quiz_questions_come_from_the_bank (g : G) (loaded : bank) :
  (∀ name q qs,
     dict_get name loaded = Some (q :: qs) →
     ∃ asked,
       ud_questions (r_ud (start_quiz g loaded ("subj|" +:+ name)).1) = Some asked
       ∧ asked ≡ₚ q :: qs)
  ∧ (random_mix g loaded).1 ⊆+ concat (dict_values loaded)
  ∧ (Z.of_nat (length (filter (λ qs, nonempty qs = true) (dict_values loaded)))
     ≤ list_len (random_mix g loaded).1
     ≤ sum_Z (map list_len (dict_values loaded))).
Proof.
  split; [|split].
  - intros name q qs Hg.
    assert (startswith ("subj|" +:+ name) "subj|" = true) as Hsw
      by (destruct name; reflexivity).
    assert (split1 "|" ("subj|" +:+ name) !! 1%nat = Some name) as Hsp
      by (destruct name; reflexivity).
    unfold start_quiz. rewrite Hsw, Hsp. cbn [default from_option id]. rewrite Hg.
    pose proof (shuffle_perm _ g (q :: qs)) as Hperm.
    destruct (shuffle g (q :: qs)) as [asked g']. simpl in Hperm.
    assert (nonempty asked = true) as Hne by (by rewrite (nonempty_perm _ _ Hperm)).
    rewrite Hne. cbn [negb fst r_ud]. exists asked. split; [|done].
    apply nonempty_len in Hne.
    by destruct (send_next_sends loaded
               (mkUd (Some name) (Some asked) (Some 0) (Some 0) (Some ∅) (Some []) ∅)
               asked 0 eq_refl eq_refl ltac:(lia)) as (a & sent & -> & _).
  - set (total := sum_Z (map list_len (dict_values loaded))).
    destruct (random_mix_loop_parts g total (Z.min 50 total) loaded []) as (parts & Heq & Hparts).
    { intros qs Hin Hne. apply nonempty_len in Hne.
      pose proof (sum_Z_bound (list_len <$> dict_values loaded) (list_len qs)
                    (list_len_nonneg _) (list_elem_of_fmap_2 list_len _ _ Hin)) as Hb.
      subst total.
      change (map list_len (dict_values loaded)) with (list_len <$> dict_values loaded). lia. }
    unfold random_mix. fold total.
    destruct (random_mix_loop g total (Z.min 50 total) loaded []) as [temp g1].
    simpl in Heq. subst temp.
    rewrite (shuffle_perm _ g1 (concat parts)).
    etrans; [|apply (concat_filter_submseteq (λ qs, nonempty qs = true))].
    apply concat_submseteq.
    eapply Forall2_impl; [exact Hparts|]. by intros qs part (Hsub & _).
  - set (total := sum_Z (map list_len (dict_values loaded))).
    destruct (random_mix_loop_parts g total (Z.min 50 total) loaded []) as (parts & Heq & Hparts).
    { intros qs Hin Hne. apply nonempty_len in Hne.
      pose proof (sum_Z_bound (list_len <$> dict_values loaded) (list_len qs)
                    (list_len_nonneg _) (list_elem_of_fmap_2 list_len _ _ Hin)) as Hb.
      subst total.
      change (map list_len (dict_values loaded)) with (list_len <$> dict_values loaded). lia. }
    assert (list_len (random_mix g loaded).1 = list_len (concat parts)) as ->.
    { unfold random_mix. fold total.
      destruct (random_mix_loop g total (Z.min 50 total) loaded []) as [temp g1].
      simpl in Heq. subst temp. unfold list_len.
      by rewrite (Permutation_length (shuffle_perm _ g1 (concat parts))). }
    subst total. clear Heq. apply parts_size.
    eapply Forall2_impl; [exact Hparts|]. by intros qs part (_ & _ & Hlen).
Qed.


End WithGen.


End SelectionSpec.

Module Drive.
Import PyStr PyNum Loader Quiz ButtonSpec.

Section WithGen.
Context {G : Type} `{RandomGen G}.

(** A run of the conversation that keeps the transport calls, in
    order. *)
Fixpoint conv_trace (loaded : bank) (c : conversation) (us : list update)
  : conversation * list action :=
  match us with
  | [] => (c, [])
  | u :: rest =>
      let '(c1, acts) := conv_step loaded c u in
      let '(c2, acts') := conv_trace loaded c1 rest in
      (c2, acts ++ acts')
  end.

End WithGen.

(** The user data as [start_quiz] sets it before the first batch is
    sent (lines 380 to 385). *)
Definition fresh (subject_name : string) (questions_to_ask : list Question) : user_data :=
  mkUd (Some subject_name) (Some questions_to_ask) (Some 0) (Some 0) (Some ∅) (Some []) ∅.

(** A user who answers the questions in order, question [i] with the
    [i]-th of [letters], and asks for the next batch after every tenth
    answer while questions are left; [n] is the number of questions. *)
Fixpoint answer_all (i n : Z) (letters : list string) : list update :=
  match letters with
  | [] => []
  | letter :: rest =>
      Callback (answer_data i letter)
      :: (if ((i + 1) mod QUESTIONS_PER_BATCH =? 0) && (i + 1 <? n)
          then [Callback "next"] else [])
      ++ answer_all (i + 1) n rest
  end.

(** How many of the questions get their correct letter. *)
Fixpoint correct_count (qs : list Question) (letters : list string) : Z :=
  match qs, letters with
  | q :: qs', letter :: rest =>
      (if String.eqb letter (correct q) then 1 else 0) + correct_count qs' rest
  | _, _ => 0
  end.

End Drive.

Module DriveFacts.
Import PyStr PyNum Loader Quiz Fixtures QuizFacts NextSpec ScoreSpec RenderFacts IntFacts
  ButtonSpec Drive.

Lemma div10_bounds (i : Z) : 10 * (i / 10) ≤ i < 10 * (i / 10) + 10.
Proof.
  pose proof (Z.div_mod i 10 ltac:(lia)). pose proof (Z.mod_pos_bound i 10 ltac:(lia)). lia.
Qed.

Lemma div10_succ_same (i : Z) : (i + 1) mod 10 ≠ 0 → (i + 1) / 10 = i / 10.
Proof.
  intros Hm.
  pose proof (Z.div_mod i 10 ltac:(lia)). pose proof (Z.mod_pos_bound i 10 ltac:(lia)).
  pose proof (Z.div_mod (i + 1) 10 ltac:(lia)).
  pose proof (Z.mod_pos_bound (i + 1) 10 ltac:(lia)). lia.
Qed.

Lemma div10_succ_next (i : Z) :
  (i + 1) mod 10 = 0 → 10 * ((i + 1) / 10) = i + 1 ∧ 10 * (i / 10) = i - 9.
Proof.
  intros Hm.
  pose proof (Z.div_mod i 10 ltac:(lia)). pose proof (Z.mod_pos_bound i 10 ltac:(lia)).
  pose proof (Z.div_mod (i + 1) 10 ltac:(lia)). lia.
Qed.

Lemma startswith_app (p s : string) : startswith (p +:+ s) p = true.
Proof.
  unfold startswith. induction p as [|c p IH].
  - rewrite app_nil_str. by destruct s.
  - rewrite app_cons_str.
    change (String.prefix (String c p) (String c (p +:+ s)))
      with (if ascii_dec c c then String.prefix p (p +:+ s) else false).
    by destruct (ascii_dec c c).
Qed.

Lemma range_set_succ (s i : Z) :
  s ≤ i →
  ({[i]} ∪ list_to_set (range s i) : gset Z) = list_to_set (range s (i + 1)).
Proof.
  intros Hs. apply set_eq. intros x.
  rewrite elem_of_union, elem_of_singleton, !elem_of_list_to_set, !elem_of_range. lia.
Qed.

Lemma range_set_size (s i : Z) :
  s ≤ i → Z.of_nat (size (list_to_set (range s i) : gset Z)) = i - s.
Proof.
  intros Hs. rewrite size_list_to_set by apply NoDup_range.
  pose proof (length_range s i) as Hl. unfold list_len in Hl. lia.
Qed.

(** [send_next_question_batch] on checked questions. *)
Lemma send_next_ok (loaded : bank) (ud : user_data) (qs : list Question) (c : Z) :
  ud_questions ud = Some qs → ud_index ud = Some c → 0 ≤ c < list_len qs →
  Forall question_ok qs →
  let e := Z.min (c + QUESTIONS_PER_BATCH) (list_len qs) in
  ∃ sent,
    send_next_question_batch loaded ud
    = mkResult (set_index e (set_answered ∅ (set_batch (range c e) ud)))
        (Some QUIZ_IN_PROGRESS) sent.
Proof.
  intros Hqs Hc Hr Hok e.
  unfold send_next_question_batch. rewrite Hqs, Hc. simpl.
  rewrite (proj2 (Z.leb_gt (list_len qs) c)) by lia.
  assert (nonempty qs = true) as -> by (apply nonempty_len; lia). simpl. fold e.
  rewrite present_batch_ok; [by eexists|].
  apply Forall_forall. intros [i q] Hin. simpl.
  destruct (zip_range_slice qs c e i q ltac:(lia) Hin) as [_ Hq].
  rewrite Forall_forall in Hok. apply Hok. by eapply list_elem_of_lookup_2.
Qed.

Section Run.
Context {G : Type} `{RandomGen G}.
Variable loaded : bank.
Variable qs : list Question.
Hypothesis qs_ok : Forall question_ok qs.

Let n : Z := list_len qs.
Let first_of (i : Z) : Z := 10 * (i / 10).
Let end_of (i : Z) : Z := Z.min (first_of i + QUESTIONS_PER_BATCH) n.

(** The user data before question [i] is answered ([k = i]) and after
    ([k = i + 1]), in the batch of question [i]. *)
Definition at_question (i k sc : Z) (ud : user_data) : Prop :=
  ud_questions ud = Some qs
  ∧ ud_current_batch_indices ud = Some (range (first_of i) (end_of i))
  ∧ ud_index ud = Some (end_of i)
  ∧ ud_answered_in_batch ud = Some (list_to_set (range (first_of i) k))
  ∧ ud_score ud = Some sc
  ∧ ∀ j, j ∈ ud_correct ud → 0 ≤ j < k.

Lemma answer_step (i sc : Z) (ud : user_data) (q : Question) (letter : string) :
  at_question i i sc ud → 0 ≤ i < n → qs !! Z.to_nat i = Some q →
  without "|" letter = true →
  let r := handle_answer loaded ud (answer_data i letter) in
  let sc' := sc + (if String.eqb letter (correct q) then 1 else 0) in
  at_question i (i + 1) sc' (r_ud r)
  ∧ (i = n - 1 →
     r_state r = Some SELECTING_SUBJECT
     ∧ last (r_actions r)
       = Some (send_message
                 (Str (finish_text sc' n (bool_decide (is_Some (get_start_keyboard loaded)))))
                 (get_start_keyboard loaded)))
  ∧ (i < n - 1 → r_state r = Some QUIZ_IN_PROGRESS).
Proof.
  intros (Hqs & Hb & Hi & Ha & Hsc & Hcor) Hr Hq Hbar r sc'.
  assert (first_of i ≤ i < first_of i + 10) as Hf by apply div10_bounds.
  assert (i < end_of i) as He by (unfold end_of, QUESTIONS_PER_BATCH; lia).
  assert (index qs i = Some q) as Hidx.
  { unfold index. fold (list_len qs). fold n.
    rewrite (proj2 (Z.leb_le 0 i)), (proj2 (Z.ltb_lt i n)) by lia. done. }
  assert (r = answer_question loaded ud i letter) as Hrdef.
  { subst r. unfold handle_answer. 
    rewrite parse_answer_data by (done || lia). done. }
  destruct (answer_question_proceeds loaded ud i letter qs q Hqs Hidx) as (Hud & Hstate & Hlast).
  rewrite <- Hrdef in Hud, Hstate, Hlast. cbv zeta in Hlast. rewrite <- Hud in Hlast.
  rewrite Hb, Ha in Hud, Hstate, Hlast. rewrite Hsc in Hud.
  cbn [default from_option id] in Hud, Hstate, Hlast.
  assert (is_in i (range (first_of i) (end_of i))
          && negb (bool_decide (i ∈ (list_to_set (range (first_of i) i) : gset Z))) = true) as Hfirst.
  { apply andb_true_iff. split; [apply is_in_true, elem_of_range; lia|].
    apply negb_true_iff, bool_decide_eq_false.
    rewrite elem_of_list_to_set, elem_of_range. lia. }
  rewrite Hfirst in Hud, Hstate, Hlast.
  rewrite range_set_succ in Hud, Hstate, Hlast by lia.
  rewrite range_set_size in Hstate, Hlast by lia.
  assert (bool_decide (i ∈ ud_correct ud) = false) as Hnew.
  { apply bool_decide_eq_false. intros Hin. apply Hcor in Hin. lia. }
  rewrite Hnew, andb_true_r in Hud.
  assert (list_len (range (first_of i) (end_of i)) = end_of i - first_of i) as Hlen
    by (rewrite length_range; lia).
  rewrite Hlen in Hstate, Hlast.
  assert (at_question i (i + 1) sc' (r_ud r)) as Hat.
  { rewrite Hud. subst sc'. unfold at_question.
    destruct (String.eqb letter (correct q)); simpl; split_and!; try done.
    all: try (f_equal; lia).
    all: try (by rewrite Hsc, Z.add_0_r).
    all: intros j Hj;
      try (apply elem_of_union in Hj as [Hj|Hj]; [apply elem_of_singleton in Hj; lia|]);
      apply Hcor in Hj; lia. }
  split; [done|]. split.
  - intros ->.
    assert (end_of (n - 1) = n) as Hen by (unfold end_of, QUESTIONS_PER_BATCH; lia).
    assert (is_in (list_len qs - 1) (range (first_of (n - 1)) (end_of (n - 1))) = true) as Hin
      by (apply is_in_true, elem_of_range; fold n; lia).
    rewrite Hin in Hstate, Hlast.
    rewrite (proj2 (Z.leb_le _ _)) in Hstate, Hlast by lia.
    split; [done|]. rewrite Hlast by done. fold n.
    destruct Hat as (_ & _ & _ & _ & -> & _). done.
  - intros Hlt.
    destruct (decide (end_of i = n)) as [Hen|Hen].
    + rewrite (proj2 (Z.leb_gt _ _)), andb_false_r in Hstate by lia. done.
    + assert (is_in (list_len qs - 1) (range (first_of i) (end_of i)) = false) as Hin.
      { apply not_true_is_false. rewrite is_in_true, elem_of_range. fold n.
        unfold end_of in *. lia. }
      by rewrite Hin in Hstate.
Qed.

Lemma next_step (i sc : Z) (ud : user_data) :
  at_question i (i + 1) sc ud → 0 ≤ i → i + 1 < n →
  (((i + 1) mod QUESTIONS_PER_BATCH =? 0) = true →
   r_state (handle_next loaded ud) = Some QUIZ_IN_PROGRESS
   ∧ at_question (i + 1) (i + 1) sc (r_ud (handle_next loaded ud)))
  ∧ (((i + 1) mod QUESTIONS_PER_BATCH =? 0) = false → at_question (i + 1) (i + 1) sc ud).
Proof.
  intros (Hqs & Hb & Hi & Ha & Hsc & Hcor) Hi0 Hlt. unfold QUESTIONS_PER_BATCH. split.
  - intros Hmod%Z.eqb_eq.
    assert (first_of (i + 1) = i + 1) as Hf1 by (by apply div10_succ_next).
    assert (first_of i = i - 9) as Hf0 by (by apply div10_succ_next).
    assert (end_of i = i + 1) as He0 by (unfold end_of, QUESTIONS_PER_BATCH; lia).
    unfold handle_next. rewrite Hb, Ha. cbn [default from_option id].
    rewrite range_set_size by lia. rewrite length_range.
    rewrite (proj2 (Z.leb_le _ _)) by lia.
    destruct (send_next_ok loaded ud qs (end_of i) Hqs Hi ltac:(fold n; lia) qs_ok) as [sent ->].
    cbn [r_state r_ud]. split; [done|].
    unfold at_question. cbn. rewrite He0, Hf1. unfold end_of. rewrite Hf1. fold n.
    unfold range. rewrite Z.sub_diag. split_and!; done.
  - intros Hmod%Z.eqb_neq.
    assert (first_of (i + 1) = first_of i) as Hf
      by (unfold first_of; by rewrite div10_succ_same).
    unfold at_question, end_of. rewrite Hf. done.
Qed.

End Run.
End DriveFacts.

Module DriveSpec.
Import PyStr PyNum Loader Quiz Fixtures QuizFacts NextSpec ScoreSpec RenderFacts IntFacts
  ButtonSpec Drive DriveFacts.

Lemma last_app_Some {A} (l k : list A) (x : A) : last k = Some x → last (l ++ k) = Some x.
Proof.
  intros Hk. destruct k as [|y k]; [done|].
  induction l as [|z l IH]; [done|].
  change ((z :: l) ++ y :: k) with (z :: (l ++ y :: k)).
  destruct (l ++ y :: k) as [|w m] eqn:Heq; [by destruct l|].
  exact IH.
Qed.

Section WithGen.
Context {G : Type} `{RandomGen G}.

Lemma step_answer (loaded : bank) (ud : user_data) (g : G) (i : Z) (letter : string) :
  conv_step loaded (mkConv QUIZ_IN_PROGRESS ud g) (Callback (answer_data i letter))
  = settle (mkConv QUIZ_IN_PROGRESS ud g)
      (handle_answer loaded ud (answer_data i letter)) g.
Proof.
  cbn [conv_step c_state c_ud c_gen]. unfold answer_data. by rewrite startswith_app.
Qed.

Lemma run_answers (loaded : bank) (qs : list Question) (g : G) :
  Forall question_ok qs →
  ∀ letters i sc ud,
    0 ≤ i → length letters = length (drop (Z.to_nat i) qs) → letters ≠ [] →
    Forall (λ l, without "|" l = true) letters →
    at_question qs i i sc ud →
    let res := conv_trace loaded (mkConv QUIZ_IN_PROGRESS ud g)
                 (answer_all i (list_len qs) letters) in
    let total := sc + correct_count (drop (Z.to_nat i) qs) letters in
    c_state res.1 = SELECTING_SUBJECT
    ∧ ud_score (c_ud res.1) = Some total
    ∧ last res.2
      = Some (send_message
                (Str (finish_text total (list_len qs)
                        (bool_decide (is_Some (get_start_keyboard loaded)))))
                (get_start_keyboard loaded)).
Proof.
  intros Hok. induction letters as [|letter rest IH]; intros i sc ud Hi Hlen Hne Hbar Hat;
    [by destruct Hne|].
  apply Forall_cons in Hbar as [Hl Hrest].
  destruct (drop (Z.to_nat i) qs) as [|q tail] eqn:Hdrop; [done|].
  assert (qs !! Z.to_nat i = Some q) as Hq.
  { rewrite <- (Nat.add_0_r (Z.to_nat i)), <- lookup_drop, Hdrop. done. }
  assert (drop (Z.to_nat (i + 1)) qs = tail) as Hdrop'.
  { rewrite Z2Nat.inj_add by lia. change (Z.to_nat 1) with 1%nat.
    rewrite <- drop_drop, Hdrop. done. }
  assert (i < list_len qs) as Hlt.
  { apply lookup_lt_Some in Hq. unfold list_len. lia. }
  assert (length tail = (length qs - Z.to_nat (i + 1))%nat) as Htl
    by (rewrite <- Hdrop'; apply length_drop).
  destruct (answer_step loaded qs i sc ud q letter Hat (conj Hi Hlt) Hq Hl)
    as (Hat' & Hfin & Hmid).
  cbn [answer_all conv_trace]. rewrite step_answer.
  set (r := handle_answer loaded ud (answer_data i letter)) in *.
  set (sc' := sc + (if String.eqb letter (correct q) then 1 else 0)) in *.
  cbn [correct_count]. simpl in Hlen. injection Hlen as Hlen.
  destruct rest as [|letter' rest'].
  - assert (i = list_len qs - 1) as Hlast by (unfold list_len in *; simpl in Hlen; lia).
    destruct (Hfin Hlast) as [Hst Hmsg].
    rewrite (proj2 (Z.ltb_ge (i + 1) (list_len qs))) by lia. rewrite andb_false_r.
    cbn [app answer_all conv_trace]. unfold settle. rewrite Hst.
    cbn [default from_option id fst snd c_state c_ud]. rewrite app_nil_r.
    destruct tail; [|done]. cbn [correct_count]. rewrite Z.add_0_r.
    fold sc'. destruct Hat' as (_ & _ & _ & _ & Hsc' & _). done.
  - assert (i < list_len qs - 1) as Hnl by (unfold list_len in *; simpl in Hlen; lia).
    specialize (Hmid Hnl).
    rewrite (proj2 (Z.ltb_lt (i + 1) (list_len qs))) by lia. rewrite andb_true_r.
    unfold settle. rewrite Hmid. cbn [default from_option id].
    destruct (next_step loaded qs Hok i sc' (r_ud r) Hat' Hi ltac:(lia)) as [Hnext Hstay].
    assert (∀ ud1 acts,
              at_question qs (i + 1) (i + 1) sc' ud1 →
              let res := conv_trace loaded (mkConv QUIZ_IN_PROGRESS ud1 g)
                           (answer_all (i + 1) (list_len qs) (letter' :: rest')) in
              c_state res.1 = SELECTING_SUBJECT
              ∧ ud_score (c_ud res.1) = Some (sc' + correct_count tail (letter' :: rest'))
              ∧ last (acts ++ res.2)
                = Some (send_message
                    (Str (finish_text (sc' + correct_count tail (letter' :: rest')) (list_len qs)
                            (bool_decide (is_Some (get_start_keyboard loaded)))))
                    (get_start_keyboard loaded))) as Hgo.
    { intros ud1 acts Hat1.
      destruct (IH (i + 1) sc' ud1 ltac:(lia)) as (H1 & H2 & H3);
        [by rewrite Hdrop' | done | done | done |].
      rewrite Hdrop' in H2, H3. split; [done|]. split; [done|]. by apply last_app_Some. }
    rewrite Z.add_assoc. fold sc'.
    destruct ((i + 1) mod QUESTIONS_PER_BATCH =? 0) eqn:Hmod.
    + destruct (Hnext eq_refl) as [Hst1 Hat1].
      change ([Callback "next"] ++ ?l) with (Callback "next" :: l).
      cbn [conv_trace].
      change (conv_step loaded (mkConv QUIZ_IN_PROGRESS (r_ud r) g) (Callback "next"))
        with (settle (mkConv QUIZ_IN_PROGRESS (r_ud r) g) (handle_next loaded (r_ud r)) g).
      unfold settle. rewrite Hst1. cbn [default from_option id].
      destruct (Hgo _ (r_actions r ++ r_actions (handle_next loaded (r_ud r))) Hat1)
        as (H1 & H2 & H3).
      destruct (conv_trace loaded _ (answer_all (i + 1) (list_len qs) (letter' :: rest')))
        as [c2 acts2]. cbn [fst snd] in *.
      split; [done|]. split; [done|]. by rewrite <- app_assoc in H3.
    + cbn [app].
      destruct (Hgo _ (r_actions r) (Hstay eq_refl)) as (H1 & H2 & H3).
      destruct (conv_trace loaded _ (answer_all (i + 1) (list_len qs) (letter' :: rest')))
        as [c2 acts2]. cbn [fst snd] in *. done.
Qed.

Lemma start_quiz_fresh (g : G) (loaded : bank) (data : string) :
  r_state (start_quiz g loaded data).1 = Some QUIZ_IN_PROGRESS →
  ∃ name qs,
    nonempty qs = true
    ∧ r_ud (start_quiz g loaded data).1
      = r_ud (send_next_question_batch loaded (fresh name qs)).
Proof.
  unfold start_quiz, fresh.
  destruct (startswith data "subj|").
  - destruct (dict_get _ loaded) as [[|q qs]|]; try done.
    destruct (shuffle g (q :: qs)) as [qs' g'].
    destruct (nonempty qs') eqn:Hq; simpl; [|done]. intros _. by eexists _, qs'.
  - destruct (String.eqb data "random"); [|done].
    destruct (negb (existsb nonempty (dict_values loaded))); [done|].
    destruct (random_mix g loaded) as [qs' g'].
    destruct (nonempty qs') eqn:Hq; simpl; [|done]. intros _. by eexists _, qs'.
Qed.

(** X12: a user who answers every question of the quiz once, in the
    order sent, with a button of that question, and asks for the next
    batch after each full batch, ends the quiz: the conversation is back
    at the subject selection, and the score stored and shown in the last
    message, as score/total, is the number of questions that got their
    correct letter. *)
Theorem answering_everything_scores_the_correct_ones (loaded : bank) (g : G)
    (data : string) (qs : list Question) (letters : list string) :
  let c0 := (conv_step loaded (mkConv SELECTING_SUBJECT ud_clear g) (Callback data)).1 in
  let res := conv_trace loaded c0 (answer_all 0 (list_len qs) letters) in
  c_state c0 = QUIZ_IN_PROGRESS →
  ud_questions (c_ud c0) = Some qs →
  Forall question_ok qs →
  length letters = length qs →
  Forall (λ l, without "|" l = true) letters →
  c_state res.1 = SELECTING_SUBJECT
  ∧ ud_score (c_ud res.1) = Some (correct_count qs letters)
  ∧ last res.2
    = Some (send_message
              (Str (finish_text (correct_count qs letters) (list_len qs)
                      (bool_decide (is_Some (get_start_keyboard loaded)))))
              (get_start_keyboard loaded)).
Proof.
  intros c0 res Hst Hqs Hok Hlen Hbar.
  assert (∃ g' name qs', nonempty qs' = true
            ∧ c0 = mkConv QUIZ_IN_PROGRESS
                     (r_ud (send_next_question_batch loaded (fresh name qs'))) g')
    as (g' & name & qs' & Hne & Hc0).
  { subst c0. revert Hst. cbn [conv_step c_state c_ud c_gen].
    destruct (startswith data "subj|" || matches_word "random" data); [|done].
    pose proof (start_quiz_fresh g loaded data) as Hf.
    destruct (start_quiz g loaded data) as [r g']. cbn [fst] in Hf.
    unfold settle. cbn [fst c_state c_ud].
    destruct (r_state r) as [[]|] eqn:Hr; cbn [default from_option id]; try done.
    intros _. destruct (Hf eq_refl) as (name & qs' & Hne & ->). by exists g', name, qs'. }
  assert (qs' = qs) as ->.
  { rewrite Hc0 in Hqs. cbn [c_ud] in Hqs. apply nonempty_len in Hne.
    destruct (send_next_sends loaded (fresh name qs') qs' 0 eq_refl eq_refl ltac:(lia))
      as (a & sent & Heq & _).
    rewrite Heq in Hqs. by injection Hqs. }
  apply nonempty_len in Hne.
  assert (at_question qs 0 0 0 (c_ud c0)) as Hat.
  { rewrite Hc0. cbn [c_ud].
    destruct (send_next_ok loaded (fresh name qs) qs 0 eq_refl eq_refl ltac:(lia) Hok)
      as [sent ->].
    unfold at_question. cbn. split_and!; done. }
  subst res. rewrite Hc0 in *. cbn [c_ud] in Hat.
  assert (letters ≠ []) as Hsome.
  { intros ->. destruct qs; [|done]. unfold list_len in Hne. simpl in Hne. lia. }
  exact (run_answers loaded qs g' Hok letters 0 0 _ ltac:(done) Hlen Hsome Hbar Hat).
Qed.

End WithGen.

Lemma answering_everything_scores_the_correct_ones_witness :
  c_state (conv_step math_bank (mkConv SELECTING_SUBJECT ud_clear 0%nat)
             (Callback "subj|Math")).1 = QUIZ_IN_PROGRESS
  ∧ ud_questions (c_ud (conv_step math_bank (mkConv SELECTING_SUBJECT ud_clear 0%nat)
                          (Callback "subj|Math")).1)
    = Some [question_sum; question_double]
  ∧ correct_count [question_sum; question_double] ["A"; "D"] = 1
  ∧ c_state (conv_trace math_bank
               (conv_step math_bank (mkConv SELECTING_SUBJECT ud_clear 0%nat)
                  (Callback "subj|Math")).1
               (answer_all 0 2 ["A"; "D"])).1 = SELECTING_SUBJECT
  ∧ ud_score (c_ud (conv_trace math_bank
               (conv_step math_bank (mkConv SELECTING_SUBJECT ud_clear 0%nat)
                  (Callback "subj|Math")).1
               (answer_all 0 2 ["A"; "D"])).1) = Some 1
  ∧ last (conv_trace math_bank
               (conv_step math_bank (mkConv SELECTING_SUBJECT ud_clear 0%nat)
                  (Callback "subj|Math")).1
               (answer_all 0 2 ["A"; "D"])).2
    = Some (send_message
              (Str ("Test tugadi!" +:+ nl +:+ "Sizning natijangiz: 1/2" +:+ nl +:+ nl
                    +:+ "Yangi fan tanlash?"))
              (Some [[("Random 50 savol", "random")]])).
Proof.
  assert (Forall question_ok [question_sum; question_double]) as Hok.
  { pose proof (LoaderFacts.load_blocks_ok (blocks_of corpus_math) (None, [])
                  ltac:(constructor)) as Hb.
    apply Forall_inv in Hb. exact Hb. }
  assert (c_state (conv_step math_bank (mkConv SELECTING_SUBJECT ud_clear 0%nat)
                     (Callback "subj|Math")).1 = QUIZ_IN_PROGRESS) as Hst by reflexivity.
  split; [exact Hst|]. split; [reflexivity|]. split; [reflexivity|].
  exact (answering_everything_scores_the_correct_ones math_bank 0%nat "subj|Math"
           [question_sum; question_double] ["A"; "D"] Hst eq_refl Hok eq_refl
           ltac:(repeat constructor)).
Defined.

End DriveSpec.

Module AccessSpec.
Import PyStr PyNum Loader Quiz Fixtures Drive.

Section WithGen.
Context {G : Type} `{RandomGen G}.

(** X13: while every [/start] of a user is answered by the
    subscription check with no, whatever the user sends -- commands, or
    the data of any button, of a quiz or made up -- the conversation
    stays ended, the user data stays as it was, and all the bot sends
    are plain messages without a keyboard. *)
Theorem unsubscribed_user_gets_no_quiz (loaded : bank) (c : conversation)
    (us : list update) :
  c_state c = END →
  Forall (λ u, ∀ first_name, u ≠ CmdStart first_name true) us →
  c_state (conv_trace loaded c us).1 = END
  ∧ c_ud (conv_trace loaded c us).1 = c_ud c
  ∧ Forall (λ a, ∃ s, a = send_message (Str s) None) (conv_trace loaded c us).2.
Proof.
  intros Hc Hus. revert c Hc. induction Hus as [|u us Hu _ IH]; intros c Hc.
  - cbn. by split_and!.
  - cbn [conv_trace].
    assert (∃ c1 acts, conv_step loaded c u = (c1, acts) ∧ c_state c1 = END
              ∧ c_ud c1 = c_ud c ∧ Forall (λ a, ∃ s, a = send_message (Str s) None) acts)
      as (c1 & acts & -> & Hc1 & Hud & Hacts).
    { destruct u as [first_name [|]| |data].
      - by destruct (Hu first_name).
      - eexists _, _. split; [reflexivity|]. cbn. split_and!; try done.
        apply Forall_singleton. by eexists.
      - cbn [conv_step]. rewrite Hc. by eexists _, _.
      - cbn [conv_step]. rewrite Hc. by eexists _, _. }
    destruct (IH c1 Hc1) as (H1 & H2 & H3).
    destruct (conv_trace loaded c1 us) as [c2 acts2]. cbn [fst snd] in *.
    split; [done|]. split; [congruence|]. by apply Forall_app.
Qed.

End WithGen.

Lemma unsubscribed_user_gets_no_quiz_witness :
  c_state idle = END
  ∧ Forall (λ u, ∀ first_name, u ≠ CmdStart first_name true)
      [CmdStart "Ali" false; Callback "subj|Math"; Callback "ans|0|A"; CmdCancel]
  ∧ c_state (conv_trace math_bank idle
               [CmdStart "Ali" false; Callback "subj|Math"; Callback "ans|0|A"; CmdCancel]).1
    = END
  ∧ c_ud (conv_trace math_bank idle
            [CmdStart "Ali" false; Callback "subj|Math"; Callback "ans|0|A"; CmdCancel]).1
    = ud_clear
  ∧ Forall (λ a, ∃ s, a = send_message (Str s) None)
      (conv_trace math_bank idle
         [CmdStart "Ali" false; Callback "subj|Math"; Callback "ans|0|A"; CmdCancel]).2.
Proof.
  assert (Forall (λ u, ∀ first_name : string, u ≠ CmdStart first_name true)
            [CmdStart "Ali" false; Callback "subj|Math"; Callback "ans|0|A"; CmdCancel])
    as Hus by (repeat constructor; done).
  split; [reflexivity|]. split; [exact Hus|].
  exact (unsubscribed_user_gets_no_quiz math_bank idle _ eq_refl Hus).
Defined.

End AccessSpec.

Module CancelSpec.
Import PyStr PyNum Loader Quiz Fixtures Drive.

Section WithGen.
Context {G : Type} `{RandomGen G}.

(** X14: [/cancel] in a conversation that runs, at the subject
    selection or in a quiz, sends the one cancel message, empties the
    user data and ends the conversation; after it the buttons still on
    the screen are dead: whatever callback data arrives, nothing is sent
    and nothing changes. *)
Theorem cancelled_quiz_ignores_its_buttons (loaded : bank) (c : conversation)
    (datas : list string) :
  c_state c ≠ END →
  (conv_step loaded c CmdCancel).2 = [send_message (Str cancel_message) None]
  ∧ c_state (conv_step loaded c CmdCancel).1 = END
  ∧ c_ud (conv_step loaded c CmdCancel).1 = ud_clear
  ∧ conv_trace loaded (conv_step loaded c CmdCancel).1 (map Callback datas)
    = ((conv_step loaded c CmdCancel).1, []).
Proof.
  intros Hc.
  assert (conv_step loaded c CmdCancel
          = (mkConv END ud_clear (c_gen c), [send_message (Str cancel_message) None])) as ->.
  { cbn [conv_step]. by destruct (c_state c). }
  cbn [fst snd c_state c_ud]. split_and!; try done.
  induction datas as [|data datas IH]; [done|].
  cbn [map conv_trace conv_step c_state]. by rewrite IH.
Qed.

End WithGen.

Lemma cancelled_quiz_ignores_its_buttons_witness :
  c_state math_session ≠ END
  ∧ c_ud (conv_step math_bank math_session CmdCancel).1 = ud_clear
  ∧ conv_trace math_bank (conv_step math_bank math_session CmdCancel).1
      (map Callback ["ans|0|B"; "next"; "subj|Math"])
    = (mkConv END ud_clear (c_gen math_session), []).
Proof.
  assert (c_state math_session ≠ END) as Hc by done.
  split; [exact Hc|].
  pose proof (cancelled_quiz_ignores_its_buttons math_bank math_session
                ["ans|0|B"; "next"; "subj|Math"] Hc) as (_ & _ & Hud & Hrun).
  split; [exact Hud | exact Hrun].
Defined.

End CancelSpec.
